(** * Photo watermark pipeline: metadata extraction, geocoding, layout and
      batch coordination of [WatermarkApp].

    The development embeds the TypeScript of the watermark page
    (types [PhotoDraft], [WorkerSettings], [WorkerMsg]; functions
    [isUnknownLocationText], [parseExifGps], [formatExifDate],
    the worker's [processOne], [processInMainThread], [reverseGeocode],
    [triggerReverseGeocode], [onDrop] and [processPhotos]) and proves
    properties of the embedded functions.

    Conventions of the embedding.
    - A JavaScript string is a [string]; every character stands for one code
      unit below 256, so the white space of [String.prototype.trim] and of
      the regular expression class [\s] is the set 9..13, 32, 160.
    - A JavaScript number is a [number]: NaN, the two infinities, or an exact
      rational.  Arithmetic on finite values is exact (the rounding of
      binary64 and the sign of zero are not modelled); the special values
      follow IEEE 754 as JavaScript does.
    - Asynchronous code is written as explicit state passing: what the
      environment decides (the outcome of a fetch, the messages of the
      worker, the firing of a timer) is an explicit argument. *)

From Stdlib Require Import ZArith QArith Qabs Qround Lqa Ascii String DecimalString DecimalNat DecimalZ.
From stdpp Require Import gmap strings list fin_maps.


(** ** JavaScript strings *)

Module JsString.

(** [WhiteSpace] and [LineTerminator] code units below 256. *)
Definition isWhiteSpace (c : ascii) : bool :=
  let n := nat_of_ascii c in
  ((9 <=? n)%nat && (n <=? 13)%nat) || (n =? 32)%nat || (n =? 160)%nat.

(** [\d] *)
Definition isDigit (c : ascii) : bool :=
  let n := nat_of_ascii c in (48 <=? n)%nat && (n <=? 57)%nat.

Fixpoint trimStart (s : string) : string :=
  match s with
  | EmptyString => EmptyString
  | String c s' => if isWhiteSpace c then trimStart s' else s
  end.

Fixpoint trimEnd (s : string) : string :=
  match s with
  | EmptyString => EmptyString
  | String c s' =>
      match trimEnd s' with
      | EmptyString => if isWhiteSpace c then EmptyString else String c EmptyString
      | t => String c t
      end
  end.

(** [s.trim()] *)
Definition trim (s : string) : string := trimEnd (trimStart s).

(** Truthiness of a string: [Boolean(s)], [if (s)], [!s]. *)
Definition truthy (s : string) : bool :=
  match s with EmptyString => false | _ => true end.

(** [a === b] on strings. *)
Definition strictEq (a b : string) : bool := bool_decide (a = b).

(** [`${n}`] for a non-negative integer and for an integer. *)
Definition ofNat (n : nat) : string := NilEmpty.string_of_uint (Nat.to_uint n).
Definition ofZ (z : Z) : string := NilEmpty.string_of_int (Z.to_int z).

End JsString.

(** ** Regular expressions

    The numeric-pair pattern of the source uses character classes,
    concatenation, [?], [+] and [*] only and is anchored at both ends, so
    [test] is membership in a regular language; it is decided with
    derivatives. *)

Module Regex.

Inductive regex : Type :=
| Fail
| Eps
| Class (p : ascii -> bool)
| Cat (r1 r2 : regex)
| Alt (r1 r2 : regex)
| Star (r : regex).

Definition chr (c : ascii) : regex := Class (fun x => bool_decide (x = c)).
Definition opt (r : regex) : regex := Alt r Eps.
Definition plus (r : regex) : regex := Cat r (Star r).

Fixpoint nullable (r : regex) : bool :=
  match r with
  | Fail => false
  | Eps => true
  | Class _ => false
  | Cat r1 r2 => nullable r1 && nullable r2
  | Alt r1 r2 => nullable r1 || nullable r2
  | Star _ => true
  end.

(** Constructors that drop the branches that cannot match. *)
Definition cat (r1 r2 : regex) : regex :=
  match r1, r2 with
  | Fail, _ => Fail
  | _, Fail => Fail
  | Eps, _ => r2
  | _, _ => Cat r1 r2
  end.

Definition alt (r1 r2 : regex) : regex :=
  match r1, r2 with
  | Fail, _ => r2
  | _, Fail => r1
  | _, _ => Alt r1 r2
  end.

Fixpoint deriv (c : ascii) (r : regex) : regex :=
  match r with
  | Fail => Fail
  | Eps => Fail
  | Class p => if p c then Eps else Fail
  | Cat r1 r2 =>
      alt (cat (deriv c r1) r2) (if nullable r1 then deriv c r2 else Fail)
  | Alt r1 r2 => alt (deriv c r1) (deriv c r2)
  | Star r1 => cat (deriv c r1) (Star r1)
  end.

(** [/^r$/.test(s)] *)
Fixpoint test (r : regex) (s : string) : bool :=
  match s with
  | EmptyString => nullable r
  | String c s' => test (deriv c r) s'
  end.

Definition digit : regex := Class JsString.isDigit.
Definition space : regex := Class JsString.isWhiteSpace.

(** [-?\d+(?:\.\d+)?] *)
Definition signedDecimal : regex :=
  Cat (opt (chr "-")) (Cat (plus digit) (opt (Cat (chr ".") (plus digit)))).

(** [/^-?\d+(?:\.\d+)?\s*,\s*-?\d+(?:\.\d+)?$/] *)
Definition numericPair : regex :=
  Cat signedDecimal (Cat (Star space) (Cat (chr ",") (Cat (Star space) signedDecimal))).

End Regex.

(** ** JavaScript numbers *)

Inductive number : Type :=
| NaN
| PInf
| NInf
| Fin (q : Q).

Module Num.

Definition ofZ (z : Z) : number := Fin (inject_Z z).
Definition ofNat (n : nat) : number := ofZ (Z.of_nat n).

Definition zero : number := ofZ 0.

(** [Number.isFinite] *)
Definition isFinite (x : number) : bool :=
  match x with Fin _ => true | _ => false end.

Definition isNaN (x : number) : bool :=
  match x with NaN => true | _ => false end.

(** Sign of a rational: [Lt] negative, [Eq] zero, [Gt] positive. *)
Definition sgn (q : Q) : comparison := (q ?= 0)%Q.

(** Unary minus. *)
Definition neg (x : number) : number :=
  match x with
  | NaN => NaN
  | PInf => NInf
  | NInf => PInf
  | Fin q => Fin (- q)
  end.

(** [Math.abs] *)
Definition abs (x : number) : number :=
  match x with
  | NaN => NaN
  | PInf | NInf => PInf
  | Fin q => Fin (Qabs q)
  end.

(** [a + b] *)
Definition add (a b : number) : number :=
  match a, b with
  | NaN, _ | _, NaN => NaN
  | PInf, NInf | NInf, PInf => NaN
  | PInf, _ | _, PInf => PInf
  | NInf, _ | _, NInf => NInf
  | Fin p, Fin q => Fin (p + q)
  end.

(** [a - b] *)
Definition sub (a b : number) : number := add a (neg b).

(** An infinity times a value of the given sign. *)
Definition scaleInf (positive : bool) (s : comparison) : number :=
  match s with
  | Eq => NaN
  | Gt => if positive then PInf else NInf
  | Lt => if positive then NInf else PInf
  end.

(** [a * b] *)
Definition mul (a b : number) : number :=
  match a, b with
  | NaN, _ | _, NaN => NaN
  | PInf, PInf | NInf, NInf => PInf
  | PInf, NInf | NInf, PInf => NInf
  | PInf, Fin q | Fin q, PInf => scaleInf true (sgn q)
  | NInf, Fin q | Fin q, NInf => scaleInf false (sgn q)
  | Fin p, Fin q => Fin (p * q)
  end.

(** [a <= b]; false as soon as one side is NaN. *)
Definition leb (a b : number) : bool :=
  match a, b with
  | NaN, _ | _, NaN => false
  | NInf, _ => true
  | _, PInf => true
  | PInf, _ => false
  | _, NInf => false
  | Fin p, Fin q => Qle_bool p q
  end.

(** [a < b] *)
Definition ltb (a b : number) : bool :=
  match a, b with
  | NaN, _ | _, NaN => false
  | _, NInf => false
  | PInf, _ => false
  | NInf, _ => true
  | _, PInf => true
  | Fin p, Fin q => negb (Qle_bool q p)
  end.

(** [Math.max(a, b)] *)
Definition max (a b : number) : number :=
  match a, b with
  | NaN, _ | _, NaN => NaN
  | _, _ => if ltb a b then b else a
  end.

(** [Math.round]: the nearest integer, a tie going towards plus infinity. *)
Definition round (x : number) : number :=
  match x with
  | Fin q => Fin (inject_Z (Qfloor (q + (1 # 2))))
  | _ => x
  end.

(** Decimal digits of a natural number, at least [width] of them. *)
Definition padZeros (width : nat) (digits : string) : string :=
  String.concat "" (replicate (width - String.length digits) "0") +:+ digits.

(** [x.toFixed(6)] for a magnitude below 1e21; a larger magnitude, which
    JavaScript prints in exponent notation, is printed in plain digits. *)
Definition toFixed6 (x : number) : string :=
  match x with
  | NaN => "NaN"
  | PInf => "Infinity"
  | NInf => "-Infinity"
  | Fin q =>
      let n := Qfloor (Qabs q * (1000000 # 1) + (1 # 2)) in
      let digits := padZeros 7 (JsString.ofZ n) in
      let cut := (String.length digits - 6)%nat in
      let body := substring 0 cut digits +:+ "." +:+ substring cut 6 digits in
      match sgn q with
      | Lt => "-" +:+ body
      | _ => body
      end
  end.

End Num.

(** The literals of the layout code. *)
Definition lit_1_4 : number := Fin (14 # 10).
Definition lit_0_7 : number := Fin (7 # 10).
Definition lit_0_5 : number := Fin (5 # 10).
Definition lit_0_01 : number := Fin (1 # 100).
Definition lit_0_82 : number := Fin (82 # 100).

(** ** Metadata extraction *)

(** A JavaScript value, as far as the code inspects one ([typeof],
    [Array.isArray], [v[0]], [??]). *)
#[warnings="-register-all"]
Inductive value : Type :=
| VUndefined
| VNull
| VBool (b : bool)
| VNum (x : number)
| VStr (s : string)
| VArr (items : list value).

(** One tag of [ExifReader.Tags]. *)
Record Tag : Type := { tvalue : value; description : value }.

(** The tags the page reads; [None] is a tag that is not in the block. *)
Record Tags : Type := {
  DateTimeOriginal : option Tag;
  DateTimeDigitized : option Tag;
  DateTime : option Tag;
  GPSLatitude : option Tag;
  GPSLongitude : option Tag;
  GPSLatitudeRef : option Tag;
  GPSLongitudeRef : option Tag
}.

(** [tag?.field] *)
Definition optChain (tag : option Tag) (field : Tag -> value) : value :=
  match tag with
  | Some t => field t
  | None => VUndefined
  end.

(** [a ?? b] *)
Definition nullish (a b : value) : value :=
  match a with
  | VUndefined | VNull => b
  | _ => a
  end.

(** [v === "..."] *)
Definition isString (v : value) (s : string) : bool :=
  match v with
  | VStr s' => JsString.strictEq s' s
  | _ => false
  end.

Record GpsCoord : Type := { lat : number; lon : number }.

(** The local [toNumber] of [parseExifGps]. *)
Definition toNumber (v : value) : option number :=
  match v with
  | VNum x => Some x
  | VArr (VNum x :: _) => Some x
  | _ => None
  end.

Definition parseExifGps (tags : Tags) : option GpsCoord :=
  let lat := optChain (GPSLatitude tags) tvalue in
  let lon := optChain (GPSLongitude tags) tvalue in
  let latRef := optChain (GPSLatitudeRef tags) description in
  let lonRef := optChain (GPSLongitudeRef tags) description in
  match toNumber lat, toNumber lon with
  | Some latN, Some lonN =>
      let signedLat := if isString latRef "S" then Num.neg (Num.abs latN) else latN in
      let signedLon := if isString lonRef "W" then Num.neg (Num.abs lonN) else lonN in
      if negb (Num.isFinite signedLat) || negb (Num.isFinite signedLon) then None
      else Some {| lat := signedLat; lon := signedLon |}
  | _, _ => None
  end.

(** [s.replace(/^(\d{4}):(\d{2}):(\d{2})/, "$1-$2-$3")] *)
Definition replaceDateSeparators (s : string) : string :=
  match s with
  | String y1 (String y2 (String y3 (String y4 (String c1
      (String m1 (String m2 (String c2 (String d1 (String d2 rest))))))))) =>
      if forallb JsString.isDigit [y1; y2; y3; y4; m1; m2; d1; d2]
         && bool_decide (c1 = ":"%char) && bool_decide (c2 = ":"%char)
      then String y1 (String y2 (String y3 (String y4 (String "-"
             (String m1 (String m2 (String "-" (String d1 (String d2 rest)))))))))
      else s
  | _ => s
  end.

Definition formatExifDate (raw : value) (fallback : string) : string :=
  match raw with
  | VStr s =>
      if (String.length (JsString.trim s) =? 0)%nat then fallback
      else replaceDateSeparators (JsString.trim s)
  | _ => fallback
  end.

(** The argument [onDrop] passes to [formatExifDate]:
    [tags.DateTimeOriginal?.description ?? tags.DateTimeDigitized?.description
     ?? tags.DateTime?.description]. *)
Definition rawTimestamp (tags : Tags) : value :=
  nullish (nullish (optChain (DateTimeOriginal tags) description)
                   (optChain (DateTimeDigitized tags) description))
          (optChain (DateTime tags) description).

(** [shotAt] of a draft whose tag block was read. *)
Definition shotAtOf (tags : Tags) (unknownDate : string) : string :=
  formatExifDate (rawTimestamp tags) unknownDate.

(** ** Drafts, results and the state of the page *)

(** The bytes of a file or of an encoded image, as an opaque handle. *)
Definition Blob : Type := nat.

(** [URL.createObjectURL] *)
Definition createObjectURL (b : Blob) : string := "blob:" +:+ JsString.ofNat b.

(** A dropped [File].  [exifTags] is what [ExifReader.load] gives on the
    file's bytes; [None] when reading or parsing them throws. *)
Record File : Type := {
  fileName : string;
  lastModified : Z;
  fileData : Blob;
  exifTags : option Tags
}.

Module PhotoDraft.
Record t : Type := {
  id : string;
  file : File;
  name : string;
  shotAt : string;
  locationText : string;
  sourceUrl : string;
  dateLabel : string;
  locationLabel : string;
  gps : option GpsCoord;
  isGeocoding : option bool
}.

(** [{ ...p, locationText: text, isGeocoding: flag }] *)
Definition withLocation (text : string) (flag : bool) (p : t) : t :=
  {| id := id p; file := file p; name := name p; shotAt := shotAt p;
     locationText := text; sourceUrl := sourceUrl p;
     dateLabel := dateLabel p; locationLabel := locationLabel p;
     gps := gps p; isGeocoding := Some flag |}.

(** [{ ...p, isGeocoding: flag }] *)
Definition withGeocoding (flag : bool) (p : t) : t :=
  withLocation (locationText p) flag p.
End PhotoDraft.

Module ProcessedPhoto.
Record t : Type := {
  id : string;
  name : string;
  outputUrl : string;
  shotAt : string;
  locationText : string
}.
End ProcessedPhoto.

(** The state of [WatermarkApp] that the pipeline reads and writes: the
    [useState] cells, the geocode cache of [geocodeCacheRef], and the log of
    the reverse-geocoding requests that were sent. *)
Record App : Type := {
  photos : list PhotoDraft.t;
  processed : list ProcessedPhoto.t;
  progress : nat * nat;
  isProcessing : bool;
  errorMsg : string;
  geocodeCache : gmap string string;
  requests : list (number * number)
}.

Definition setPhotos (f : list PhotoDraft.t -> list PhotoDraft.t) (a : App) : App :=
  {| photos := f (photos a); processed := processed a; progress := progress a;
     isProcessing := isProcessing a; errorMsg := errorMsg a;
     geocodeCache := geocodeCache a; requests := requests a |}.

Definition setProcessed (l : list ProcessedPhoto.t) (a : App) : App :=
  {| photos := photos a; processed := l; progress := progress a;
     isProcessing := isProcessing a; errorMsg := errorMsg a;
     geocodeCache := geocodeCache a; requests := requests a |}.

Definition setProgress (done total : nat) (a : App) : App :=
  {| photos := photos a; processed := processed a; progress := (done, total);
     isProcessing := isProcessing a; errorMsg := errorMsg a;
     geocodeCache := geocodeCache a; requests := requests a |}.

Definition setIsProcessing (b : bool) (a : App) : App :=
  {| photos := photos a; processed := processed a; progress := progress a;
     isProcessing := b; errorMsg := errorMsg a;
     geocodeCache := geocodeCache a; requests := requests a |}.

Definition setErrorMsg (m : string) (a : App) : App :=
  {| photos := photos a; processed := processed a; progress := progress a;
     isProcessing := isProcessing a; errorMsg := m;
     geocodeCache := geocodeCache a; requests := requests a |}.

(** [geocodeCacheRef.current.set(key, text)] *)
Definition cacheSet (key text : string) (a : App) : App :=
  {| photos := photos a; processed := processed a; progress := progress a;
     isProcessing := isProcessing a; errorMsg := errorMsg a;
     geocodeCache := <[key := text]> (geocodeCache a); requests := requests a |}.

(** A [fetch] of the reverse-geocoding URL for [(lat, lon)] is sent. *)
Definition sendRequest (lat lon : number) (a : App) : App :=
  {| photos := photos a; processed := processed a; progress := progress a;
     isProcessing := isProcessing a; errorMsg := errorMsg a;
     geocodeCache := geocodeCache a; requests := requests a ++ [(lat, lon)] |}.

Definition emptyApp : App :=
  {| photos := []; processed := []; progress := (0, 0)%nat; isProcessing := false;
     errorMsg := ""; geocodeCache := ∅; requests := [] |}.

(** The localized strings [t("unknownDate")], [t("unknownLocation")] and
    [t("processFailed")]. *)
Record Messages : Type := {
  unknownDate : string;
  unknownLocation : string;
  processFailed : string
}.

(** ** Reverse geocoding *)

(** A parsed JSON body. *)
#[warnings="-register-all"]
Inductive json : Type :=
| JNull
| JBool (b : bool)
| JNumber (x : number)
| JString (s : string)
| JArray (items : list json)
| JObject (fields : list (string * json)).

(** [obj.key] on a parsed object: the binding of [key], if any.  The
    bindings are in the order of the text; of those of a key written more
    than once, [JSON.parse] keeps the last. *)
Fixpoint field (key : string) (fields : list (string * json)) : option json :=
  match fields with
  | [] => None
  | (k, v) :: rest =>
      match field key rest with
      | Some later => Some later
      | None => if JsString.strictEq k key then Some v else None
      end
  end.

(** What the network does with one request: [fetch] rejects, or a response
    arrives whose body parses as JSON or does not. *)
Inductive fetchOutcome : Type :=
| FetchRejects
| Response (ok : bool) (body : option json).

(** The completion of a call: it returns a value or it throws. *)
Inductive completion (A : Type) : Type :=
| Return (a : A)
| Throw.
Arguments Return {A} a.
Arguments Throw {A}.

Definition reverseGeocode (lat lon : number) (net : fetchOutcome)
  : completion (option string) :=
  match net with
  | FetchRejects => Throw
  | Response ok body =>
      if negb ok then Return None
      else match body with
           | None => Throw
           | Some JNull => Throw
           | Some (JObject fields) =>
               match field "display_name" fields with
               | Some (JString s) => Return (Some s)
               | _ => Return None
               end
           | Some _ => Return None
           end
  end.

(** [`${gps.lat.toFixed(6)},${gps.lon.toFixed(6)}`] *)
Definition geocodeKey (gps : GpsCoord) : string :=
  Num.toFixed6 (lat gps) +:+ "," +:+ Num.toFixed6 (lon gps).

(** [prev.map((p) => (p.id === photoId ? f(p) : p))] *)
Definition updatePhoto (photoId : string) (f : PhotoDraft.t -> PhotoDraft.t)
  (prev : list PhotoDraft.t) : list PhotoDraft.t :=
  map (fun p => if JsString.strictEq (PhotoDraft.id p) photoId then f p else p) prev.

(** [triggerReverseGeocode] up to its [await]: the cache is consulted and,
    on a miss, the request is sent.  The boolean tells whether a request is
    now in flight. *)
Definition triggerBegin (photoId : string) (gps : GpsCoord) (a : App) : App * bool :=
  let key := geocodeKey gps in
  let miss :=
    (sendRequest (lat gps) (lon gps)
       (setPhotos (updatePhoto photoId (PhotoDraft.withGeocoding true)) a), true) in
  match geocodeCache a !! key with
  | Some cached =>
      if JsString.truthy cached
      then (setPhotos (updatePhoto photoId (PhotoDraft.withLocation cached false)) a, false)
      else miss
  | None => miss
  end.

(** [triggerReverseGeocode] from the settlement of the request on: the
    [try] block around [reverseGeocode] and its [catch]. *)
Definition triggerSettle (photoId : string) (gps : GpsCoord) (net : fetchOutcome)
  (a : App) : completion App :=
  let key := geocodeKey gps in
  match reverseGeocode (lat gps) (lon gps) net with
  | Return (Some text) =>
      if JsString.truthy text
      then Return (setPhotos (updatePhoto photoId (PhotoDraft.withLocation text false))
                     (cacheSet key text a))
      else Return (setPhotos (updatePhoto photoId (PhotoDraft.withGeocoding false)) a)
  | Return None =>
      Return (setPhotos (updatePhoto photoId (PhotoDraft.withGeocoding false)) a)
  | Throw =>
      Return (setPhotos (updatePhoto photoId (PhotoDraft.withGeocoding false)) a)
  end.

(** One resolution run to its end with nothing in between. *)
Definition triggerReverseGeocode (photoId : string) (gps : GpsCoord)
  (net : fetchOutcome) (a : App) : completion App :=
  let '(a', inFlight) := triggerBegin photoId gps a in
  if inFlight then triggerSettle photoId gps net a' else Return a'.

(** ** Ingestion *)

(** The callback of [acceptedFiles.map] in [onDrop]. *)
Definition parseFile (msg : Messages) (index : nat) (file : File) : PhotoDraft.t :=
  let id := fileName file +:+ "-" +:+ JsString.ofNat index +:+ "-"
            +:+ JsString.ofZ (lastModified file) in
  match exifTags file with
  | Some tags =>
      let shotAt := shotAtOf tags (unknownDate msg) in
      let gps := parseExifGps tags in
      let fallbackLocation :=
        match gps with
        | Some g => Num.toFixed6 (lat g) +:+ ", " +:+ Num.toFixed6 (lon g)
        | None => unknownLocation msg
        end in
      {| PhotoDraft.id := id; PhotoDraft.file := file; PhotoDraft.name := fileName file;
         PhotoDraft.shotAt := shotAt; PhotoDraft.locationText := fallbackLocation;
         PhotoDraft.sourceUrl := createObjectURL (fileData file);
         PhotoDraft.dateLabel := ""; PhotoDraft.locationLabel := "";
         PhotoDraft.gps := gps; PhotoDraft.isGeocoding := None |}
  | None =>
      {| PhotoDraft.id := id; PhotoDraft.file := file; PhotoDraft.name := fileName file;
         PhotoDraft.shotAt := unknownDate msg; PhotoDraft.locationText := unknownLocation msg;
         PhotoDraft.sourceUrl := createObjectURL (fileData file);
         PhotoDraft.dateLabel := ""; PhotoDraft.locationLabel := "";
         PhotoDraft.gps := None; PhotoDraft.isGeocoding := None |}
  end.

(** [parsed] of [onDrop]. *)
Definition parseFiles (msg : Messages) (acceptedFiles : list File) : list PhotoDraft.t :=
  imap (parseFile msg) acceptedFiles.

(** [parsed.forEach(...)]: every draft with a coordinate starts its
    resolution; the requests settle later. *)
Definition startResolutions (parsed : list PhotoDraft.t) (a : App) : App :=
  fold_left
    (fun acc item =>
       match PhotoDraft.gps item with
       | Some g => fst (triggerBegin (PhotoDraft.id item) g acc)
       | None => acc
       end)
    parsed a.

Definition onDrop (msg : Messages) (acceptedFiles : list File) (a : App) : App :=
  let parsed := parseFiles msg acceptedFiles in
  startResolutions parsed
    (setPhotos (fun prev => prev ++ parsed) (setErrorMsg "" a)).

(** ** Rasterization: the overlay of one photo *)

Record WorkerSettings : Type := {
  fontFamily : string;
  fontSize : number;
  textColor : number * number * number * number;
  showLocation : bool;
  unknownLocationText : string
}.

Module WorkerInputPhoto.
Record t : Type := {
  id : string;
  name : string;
  file : File;
  shotAt : string;
  locationText : string;
  dateLabel : string;
  locationLabel : string
}.
End WorkerInputPhoto.

(** The element of [workerPhotos] built from a draft in [processPhotos]. *)
Definition toWorkerPhoto (p : PhotoDraft.t) : WorkerInputPhoto.t :=
  {| WorkerInputPhoto.id := PhotoDraft.id p;
     WorkerInputPhoto.name := PhotoDraft.name p;
     WorkerInputPhoto.file := PhotoDraft.file p;
     WorkerInputPhoto.shotAt := PhotoDraft.shotAt p;
     WorkerInputPhoto.locationText := PhotoDraft.locationText p;
     WorkerInputPhoto.dateLabel := PhotoDraft.dateLabel p;
     WorkerInputPhoto.locationLabel := PhotoDraft.locationLabel p |}.

(** What a rasterization routine computes before it draws: the text lines,
    the sizes, the panel passed to [fillRect] and the position passed to
    [fillText] for every line. *)
Record Overlay : Type := {
  lines : list string;
  appliedFontSize : number;
  lineHeight : number;
  padX : number;
  padY : number;
  margin : number;
  boxWidth : number;
  boxHeight : number;
  x : number;
  y : number;
  texts : list (string * number * number)
}.

Definition isUnknownLocationText (text tUnknown : string) : bool :=
  let trimmed := JsString.trim text in
  if negb (JsString.truthy trimmed) then true
  else if JsString.strictEq trimmed tUnknown then true
  else if Regex.test Regex.numericPair trimmed then true
  else false.

Section Rasterization.

(** [ctx.measureText(text).width] once [ctx.font] is set from the applied
    font size and the font family. *)
Variable measureText : number -> string -> string -> number.

(** The overlay of [processOne] in the worker, for a bitmap of the given
    width and height. *)
Definition workerOverlay (item : WorkerInputPhoto.t) (settings : WorkerSettings)
  (width height : nat) : Overlay :=
  let unknown :=
    JsString.strictEq (WorkerInputPhoto.locationText item) (unknownLocationText settings)
    || Regex.test Regex.numericPair (JsString.trim (WorkerInputPhoto.locationText item)) in
  let lines :=
    List.filter JsString.truthy
      [ WorkerInputPhoto.shotAt item;
        if showLocation settings && negb unknown
        then WorkerInputPhoto.locationText item else "" ] in
  let fontSize := Num.max (Num.ofZ 10) (Num.round (fontSize settings)) in
  let lineHeight := Num.round (Num.mul fontSize lit_1_4) in
  let padX := Num.round (Num.mul fontSize lit_0_7) in
  let padY := Num.round (Num.mul fontSize lit_0_5) in
  let margin := Num.max (Num.ofZ 16) (Num.round (Num.mul (Num.ofNat width) lit_0_01)) in
  let maxWidth :=
    fold_left (fun m text => Num.max m (measureText fontSize (fontFamily settings) text))
      lines Num.zero in
  let boxWidth := Num.round (Num.add maxWidth (Num.mul padX (Num.ofZ 2))) in
  let boxHeight :=
    Num.round (Num.add (Num.mul (Num.ofNat (length lines)) lineHeight)
                       (Num.mul padY (Num.ofZ 2))) in
  let x := Num.max Num.zero (Num.sub (Num.sub (Num.ofNat width) boxWidth) margin) in
  let y := Num.max Num.zero (Num.sub (Num.sub (Num.ofNat height) boxHeight) margin) in
  {| lines := lines; appliedFontSize := fontSize; lineHeight := lineHeight;
     padX := padX; padY := padY; margin := margin;
     boxWidth := boxWidth; boxHeight := boxHeight; x := x; y := y;
     texts :=
       imap (fun i line =>
               (line, Num.add x padX,
                Num.add (Num.add y padY)
                        (Num.mul lineHeight (Num.add (Num.ofNat i) lit_0_82))))
            lines |}.

(** The overlay of one iteration of [processInMainThread]. *)
Definition mainThreadOverlay (item : PhotoDraft.t) (settings : WorkerSettings)
  (width height : nat) : Overlay :=
  let lines0 := List.filter JsString.truthy [PhotoDraft.shotAt item] in
  let unknown :=
    isUnknownLocationText (PhotoDraft.locationText item) (unknownLocationText settings) in
  let lines :=
    if showLocation settings && negb unknown
    then lines0 ++ [PhotoDraft.locationText item] else lines0 in
  let fontSize := Num.max (Num.ofZ 10) (Num.round (fontSize settings)) in
  let lineHeight := Num.round (Num.mul fontSize lit_1_4) in
  let padX := Num.round (Num.mul fontSize lit_0_7) in
  let padY := Num.round (Num.mul fontSize lit_0_5) in
  let margin := Num.max (Num.ofZ 16) (Num.round (Num.mul (Num.ofNat width) lit_0_01)) in
  let maxWidth :=
    fold_left (fun m text => Num.max m (measureText fontSize (fontFamily settings) text))
      lines Num.zero in
  let boxWidth := Num.round (Num.add maxWidth (Num.mul padX (Num.ofZ 2))) in
  let boxHeight :=
    Num.round (Num.add (Num.mul (Num.ofNat (length lines)) lineHeight)
                       (Num.mul padY (Num.ofZ 2))) in
  let x := Num.max Num.zero (Num.sub (Num.sub (Num.ofNat width) boxWidth) margin) in
  let y := Num.max Num.zero (Num.sub (Num.sub (Num.ofNat height) boxHeight) margin) in
  {| lines := lines; appliedFontSize := fontSize; lineHeight := lineHeight;
     padX := padX; padY := padY; margin := margin;
     boxWidth := boxWidth; boxHeight := boxHeight; x := x; y := y;
     texts :=
       imap (fun i line =>
               (line, Num.add x padX,
                Num.add (Num.add y padY)
                        (Num.mul lineHeight (Num.add (Num.ofNat i) lit_0_82))))
            lines |}.

End Rasterization.

(** The layout function as the specification states it (LayoutEngine):
    from the lines, their measured widths, the canvas dimensions and the font
    size in pixels to the geometry of the panel. *)
Record Geometry : Type := {
  boxX : number;
  boxY : number;
  geomBoxWidth : number;
  geomBoxHeight : number;
  geomLineHeight : number;
  geomPadX : number;
  geomPadY : number
}.

Definition layout (lines : list string) (measuredWidths : list number)
  (canvasWidth canvasHeight : nat) (fontSizePx : number) : Geometry :=
  let lineHeight := Num.round (Num.mul fontSizePx lit_1_4) in
  let padX := Num.round (Num.mul fontSizePx lit_0_7) in
  let padY := Num.round (Num.mul fontSizePx lit_0_5) in
  let margin := Num.max (Num.ofZ 16) (Num.round (Num.mul (Num.ofNat canvasWidth) lit_0_01)) in
  let maxTextWidth := fold_left Num.max measuredWidths Num.zero in
  let boxWidth := Num.round (Num.add maxTextWidth (Num.mul (Num.ofZ 2) padX)) in
  let boxHeight :=
    Num.round (Num.add (Num.mul (Num.ofNat (length lines)) lineHeight)
                       (Num.mul (Num.ofZ 2) padY)) in
  {| boxX := Num.max Num.zero (Num.sub (Num.sub (Num.ofNat canvasWidth) boxWidth) margin);
     boxY := Num.max Num.zero (Num.sub (Num.sub (Num.ofNat canvasHeight) boxHeight) margin);
     geomBoxWidth := boxWidth; geomBoxHeight := boxHeight;
     geomLineHeight := lineHeight; geomPadX := padX; geomPadY := padY |}.

(** The geometry an overlay was drawn with. *)
Definition geometryOf (o : Overlay) : Geometry :=
  {| boxX := x o; boxY := y o; geomBoxWidth := boxWidth o; geomBoxHeight := boxHeight o;
     geomLineHeight := lineHeight o; geomPadX := padX o; geomPadY := padY o |}.

(** ** Batch coordination *)

(** An asynchronous call of the platform resolves with a value or rejects;
    a rejection carries the [message] of its reason, if the reason has one. *)
Inductive attempt (A : Type) : Type :=
| Resolved (a : A)
| Rejected (message : option string).
Arguments Resolved {A} a.
Arguments Rejected {A} message.

(** What an execution context offers to a rasterization routine:
    [createImageBitmap] (the width and height of the decoded bitmap),
    whether [getContext("2d")] gives a context, the width [measureText]
    reports, and the export of the canvas on which the overlay was drawn
    ([convertToBlob] in the worker, [toBlob] in the main thread). *)
Record Platform : Type := {
  createImageBitmap : File -> attempt (nat * nat);
  getContext2d : bool;
  measureTextWidth : number -> string -> string -> number;
  exportCanvas : File -> Overlay -> attempt Blob
}.

Module WorkerResult.
Record t : Type := {
  id : string;
  name : string;
  shotAt : string;
  locationText : string;
  blob : Blob
}.
End WorkerResult.

Inductive WorkerMsg : Type :=
| Progress (done total : nat)
| Result (result : WorkerResult.t)
| Complete
| Error (message : string).

(** [processOne] of the worker. *)
Definition processOne (pf : Platform) (settings : WorkerSettings)
  (item : WorkerInputPhoto.t) : attempt WorkerResult.t :=
  match createImageBitmap pf (WorkerInputPhoto.file item) with
  | Rejected reason => Rejected reason
  | Resolved (width, height) =>
      if negb (getContext2d pf) then Rejected (Some "Canvas 2D context unavailable")
      else
        let overlay := workerOverlay (measureTextWidth pf) item settings width height in
        match exportCanvas pf (WorkerInputPhoto.file item) overlay with
        | Rejected reason => Rejected reason
        | Resolved blob =>
            Resolved {| WorkerResult.id := WorkerInputPhoto.id item;
                        WorkerResult.name := WorkerInputPhoto.name item;
                        WorkerResult.shotAt := WorkerInputPhoto.shotAt item;
                        WorkerResult.locationText := WorkerInputPhoto.locationText item;
                        WorkerResult.blob := blob |}
        end
  end.

(** The messages the worker posts for [photos], from index [i] on: the [for]
    loop of [self.onmessage] and its [catch]. *)
Fixpoint workerLoop (pf : Platform) (settings : WorkerSettings) (total i : nat)
  (photos : list WorkerInputPhoto.t) : list WorkerMsg :=
  match photos with
  | [] => [Complete]
  | item :: rest =>
      match processOne pf settings item with
      | Resolved result =>
          Progress (i + 1) total :: Result result
          :: workerLoop pf settings total (S i) rest
      | Rejected reason => [Error (default "Processing failed" reason)]
      end
  end.

(** The messages the worker posts in answer to
    [worker.postMessage({ photos, settings })]. *)
Definition workerMessages (pf : Platform) (settings : WorkerSettings)
  (photos : list WorkerInputPhoto.t) : list WorkerMsg :=
  workerLoop pf settings (length photos) 0 photos.

(** What the environment produces while the coordinator waits: a message of
    the worker, the worker's [error] or [messageerror] event, or one of the
    two timers firing (1500 ms after the start, 60000 ms after the start).
    Whether the event is delivered is decided by [enabled]. *)
Inductive event : Type :=
| OnMessage (m : WorkerMsg)
| OnError
| OnMessageError
| StartupTimeout
| OverallTimeout.

(** The variables of one [processPhotos] call: the page state, the [results]
    array, the locals of the promise executor.  [startupTimeoutId] and
    [timeoutId] tell whether the timer is still pending; [workerAlive] is
    false once [worker.terminate()] ran. *)
Record Run : Type := {
  app : App;
  results : list ProcessedPhoto.t;
  settled : bool;
  gotAnyMessage : bool;
  shouldFallbackToMainThread : bool;
  startupTimeoutId : bool;
  timeoutId : bool;
  workerAlive : bool
}.

Definition withApp (f : App -> App) (r : Run) : Run :=
  {| app := f (app r); results := results r; settled := settled r;
     gotAnyMessage := gotAnyMessage r;
     shouldFallbackToMainThread := shouldFallbackToMainThread r;
     startupTimeoutId := startupTimeoutId r; timeoutId := timeoutId r;
     workerAlive := workerAlive r |}.

(** [results.push(item); setProcessed([...results])] *)
Definition pushResult (item : ProcessedPhoto.t) (r : Run) : Run :=
  {| app := setProcessed (results r ++ [item]) (app r);
     results := results r ++ [item]; settled := settled r;
     gotAnyMessage := gotAnyMessage r;
     shouldFallbackToMainThread := shouldFallbackToMainThread r;
     startupTimeoutId := startupTimeoutId r; timeoutId := timeoutId r;
     workerAlive := workerAlive r |}.

(** [finish()] *)
Definition finish (r : Run) : Run :=
  if settled r then r
  else {| app := app r; results := results r; settled := true;
          gotAnyMessage := gotAnyMessage r;
          shouldFallbackToMainThread := shouldFallbackToMainThread r;
          startupTimeoutId := startupTimeoutId r; timeoutId := timeoutId r;
          workerAlive := workerAlive r |}.

(** [gotAnyMessage = true; window.clearTimeout(startupTimeoutId)] *)
Definition noteMessage (r : Run) : Run :=
  {| app := app r; results := results r; settled := settled r;
     gotAnyMessage := true;
     shouldFallbackToMainThread := shouldFallbackToMainThread r;
     startupTimeoutId := false; timeoutId := timeoutId r;
     workerAlive := workerAlive r |}.

(** [window.clearTimeout(timeoutId)] *)
Definition clearTimeoutId (r : Run) : Run :=
  {| app := app r; results := results r; settled := settled r;
     gotAnyMessage := gotAnyMessage r;
     shouldFallbackToMainThread := shouldFallbackToMainThread r;
     startupTimeoutId := startupTimeoutId r; timeoutId := false;
     workerAlive := workerAlive r |}.

(** [window.clearTimeout(startupTimeoutId)], also the timer having fired. *)
Definition clearStartupTimeoutId (r : Run) : Run :=
  {| app := app r; results := results r; settled := settled r;
     gotAnyMessage := gotAnyMessage r;
     shouldFallbackToMainThread := shouldFallbackToMainThread r;
     startupTimeoutId := false; timeoutId := timeoutId r;
     workerAlive := workerAlive r |}.

(** [shouldFallbackToMainThread = true; worker.terminate()] *)
Definition fallBack (r : Run) : Run :=
  {| app := app r; results := results r; settled := settled r;
     gotAnyMessage := gotAnyMessage r;
     shouldFallbackToMainThread := true;
     startupTimeoutId := startupTimeoutId r; timeoutId := timeoutId r;
     workerAlive := false |}.

(** The state when the promise executor has run: the worker is built and
    posted to, both timers are pending. *)
Definition initRun (a : App) : Run :=
  {| app := a; results := []; settled := false; gotAnyMessage := false;
     shouldFallbackToMainThread := false;
     startupTimeoutId := true; timeoutId := true; workerAlive := true |}.

(** The cleanup of the effect on [photos, processed]:
    [workerRef.current?.terminate()].  [processPhotos] calls
    [setProcessed([])], a new array, and runs the promise executor before
    its first [await]; when React commits the update it runs this cleanup,
    and [workerRef.current] is by then the worker just built.  That worker
    is terminated before it has delivered anything.  (The object URLs the
    cleanup revokes are opaque here.) *)
Definition effectCleanup (r : Run) : Run :=
  {| app := app r; results := results r; settled := settled r;
     gotAnyMessage := gotAnyMessage r;
     shouldFallbackToMainThread := shouldFallbackToMainThread r;
     startupTimeoutId := startupTimeoutId r; timeoutId := timeoutId r;
     workerAlive := false |}.

(** The state of a call that builds no worker: no timer, no worker. *)
Definition directRun (a : App) : Run :=
  {| app := a; results := []; settled := false; gotAnyMessage := false;
     shouldFallbackToMainThread := false;
     startupTimeoutId := false; timeoutId := false; workerAlive := false |}.

(** The callback of the 1500 ms timer. *)
Definition onStartupTimeout (r : Run) : Run :=
  let r := clearStartupTimeoutId r in
  if gotAnyMessage r then r else finish (fallBack r).

(** The callback of the 60000 ms timer. *)
Definition onOverallTimeout (msg : Messages) (r : Run) : Run :=
  finish (withApp (setErrorMsg (processFailed msg)) (clearTimeoutId r)).

(** [worker.onerror] and [worker.onmessageerror]. *)
Definition onWorkerError (msg : Messages) (r : Run) : Run :=
  finish (withApp (setErrorMsg (processFailed msg))
            (clearStartupTimeoutId (clearTimeoutId r))).

(** [worker.onmessage] *)
Definition onMessage (m : WorkerMsg) (r : Run) : Run :=
  let r := noteMessage r in
  match m with
  | Progress done total => withApp (setProgress done total) r
  | Result res =>
      pushResult {| ProcessedPhoto.id := WorkerResult.id res;
                    ProcessedPhoto.name := WorkerResult.name res;
                    ProcessedPhoto.outputUrl := createObjectURL (WorkerResult.blob res);
                    ProcessedPhoto.shotAt := WorkerResult.shotAt res;
                    ProcessedPhoto.locationText := WorkerResult.locationText res |} r
  | Error message => clearTimeoutId (withApp (setErrorMsg message) r)
  | Complete => finish (clearTimeoutId r)
  end.

(** An event can happen: a timer fires only while it is pending, and a
    terminated worker delivers nothing. *)
Definition enabled (e : event) (r : Run) : bool :=
  match e with
  | OnMessage _ | OnError | OnMessageError => workerAlive r
  | StartupTimeout => startupTimeoutId r
  | OverallTimeout => timeoutId r
  end.

(** The coordinator handles one event; an event that cannot happen changes
    nothing. *)
Definition handle (msg : Messages) (e : event) (r : Run) : Run :=
  if negb (enabled e r) then r
  else match e with
       | OnMessage m => onMessage m r
       | OnError | OnMessageError => onWorkerError msg r
       | StartupTimeout => onStartupTimeout r
       | OverallTimeout => onOverallTimeout msg r
       end.

Definition handleAll (msg : Messages) (es : list event) (r : Run) : Run :=
  fold_left (fun acc e => handle msg e acc) es r.

(** [await new Promise(...)]: events are handled until [finish] has resolved
    the promise; the events not yet handled are returned with the state. *)
Fixpoint awaitSettled (msg : Messages) (es : list event) (r : Run) : Run * list event :=
  match es with
  | [] => (r, [])
  | e :: rest =>
      let r' := handle msg e r in
      if settled r' then (r', rest) else awaitSettled msg rest r'
  end.

(** One iteration of [processInMainThread] up to the export of the canvas. *)
Definition rasterizeInMainThread (pf : Platform) (settings : WorkerSettings)
  (item : PhotoDraft.t) : attempt Blob :=
  match createImageBitmap pf (PhotoDraft.file item) with
  | Rejected reason => Rejected reason
  | Resolved (width, height) =>
      if negb (getContext2d pf) then Rejected (Some "Canvas 2D unsupported")
      else
        let overlay := mainThreadOverlay (measureTextWidth pf) item settings width height in
        match exportCanvas pf (PhotoDraft.file item) overlay with
        | Rejected _ => Rejected (Some "Image export failed")
        | Resolved blob => Resolved blob
        end
  end.

(** The loop of [processInMainThread] from index [index] on, with the two
    callbacks [processPhotos] passes; [inl] when the loop ends, [inr] when
    an iteration throws. *)
Fixpoint mainThreadLoop (pf : Platform) (settings : WorkerSettings) (total index : nat)
  (drafts : list PhotoDraft.t) (r : Run) : Run + Run :=
  match drafts with
  | [] => inl r
  | item :: rest =>
      match rasterizeInMainThread pf settings item with
      | Resolved blob =>
          let r1 :=
            pushResult {| ProcessedPhoto.id := PhotoDraft.id item;
                          ProcessedPhoto.name := PhotoDraft.name item;
                          ProcessedPhoto.outputUrl := createObjectURL blob;
                          ProcessedPhoto.shotAt := PhotoDraft.shotAt item;
                          ProcessedPhoto.locationText := PhotoDraft.locationText item |} r in
          let r2 := withApp (setProgress (index + 1) total) r1 in
          mainThreadLoop pf settings total (S index) rest r2
      | Rejected _ => inr r
      end
  end.

Definition processInMainThread (pf : Platform) (settings : WorkerSettings)
  (drafts : list PhotoDraft.t) (r : Run) : Run + Run :=
  mainThreadLoop pf settings (length drafts) 0 drafts r.

(** What the environment decides during one [processPhotos] call. *)
Record Environment : Type := {
  canUseWorker : bool;
  events : list event;
  mainPlatform : Platform;
  signedIn : bool;
  addDocFails : bool
}.

(** A [processPhotos] call either still awaits the promise or has run to
    its end. *)
Inductive status : Type :=
| Waiting (r : Run)
| Finished (a : App).

Definition appOf (s : status) : App :=
  match s with
  | Waiting r => app r
  | Finished a => a
  end.

(** The statements before the [try]. *)
Definition startBatch (a : App) : App :=
  setProcessed []
    (setProgress 0 (length (photos a)) (setIsProcessing true (setErrorMsg "" a))).

(** The rest of the [try] block once rasterization is over, its [catch] and
    its [finally]; [r] is [inl] unless rasterization threw. *)
Definition concludeBatch (msg : Messages) (env : Environment) (r : Run + Run) : Run :=
  let r' :=
    match r with
    | inl r =>
        if signedIn env && (0 <? length (results r))%nat && addDocFails env
        then withApp (setErrorMsg (processFailed msg)) r
        else r
    | inr r => withApp (setErrorMsg (processFailed msg)) r
    end in
  withApp (setIsProcessing false) r'.

Definition processPhotos (msg : Messages) (settingsForRender : WorkerSettings)
  (env : Environment) (a : App) : status :=
  if (length (photos a) =? 0)%nat || isProcessing a then Finished a
  else
    let drafts := photos a in
    let r0 := effectCleanup (initRun (startBatch a)) in
    if canUseWorker env then
      let '(r, late) := awaitSettled msg (events env) r0 in
      if settled r then
        let rasterized :=
          if shouldFallbackToMainThread r
          then processInMainThread (mainPlatform env) settingsForRender drafts r
          else inl r in
        Finished (app (handleAll msg late (concludeBatch msg env rasterized)))
      else Waiting r
    else
      Finished (app (concludeBatch msg env
                       (processInMainThread (mainPlatform env) settingsForRender drafts
                          (directRun (startBatch a))))).

(** ** Colours, style settings and what the page derives from its state *)

Module MoreNum.

(** [Math.min(a, b)] *)
Definition min (a b : number) : number :=
  match a, b with
  | NaN, _ | _, NaN => NaN
  | _, _ => if Num.ltb b a then b else a
  end.

(** [a / b]; a zero divisor is the positive zero. *)
Definition div (a b : number) : number :=
  match a, b with
  | NaN, _ | _, NaN => NaN
  | PInf, Fin q => match Num.sgn q with Lt => NInf | _ => PInf end
  | NInf, Fin q => match Num.sgn q with Lt => PInf | _ => NInf end
  | Fin _, PInf | Fin _, NInf => Num.zero
  | Fin p, Fin q =>
      match Num.sgn q with
      | Eq => match Num.sgn p with Eq => NaN | Gt => PInf | Lt => NInf end
      | _ => Fin (p / q)
      end
  | _, _ => NaN
  end.

(** [ToInt32]: the operand of [>>] and [&] as a 32-bit two's complement
    integer. *)
Definition toInt32 (x : number) : Z :=
  match x with
  | Fin q =>
      let t := if Qle_bool 0 q then Qfloor q else Qceiling q in
      ((t + 2 ^ 31) mod 2 ^ 32 - 2 ^ 31)%Z
  | _ => 0%Z
  end.

End MoreNum.

(** [hex.replace("#", "")]: the first [#] of the string is removed. *)
Fixpoint removeFirstHash (s : string) : string :=
  match s with
  | EmptyString => EmptyString
  | String c s' => if Ascii.eqb c "#" then s' else String c (removeFirstHash s')
  end.

(** [s.split("").map((c) => c + c).join("")] *)
Fixpoint doubleChars (s : string) : string :=
  match s with
  | EmptyString => EmptyString
  | String c s' => String c (String c (doubleChars s'))
  end.

(** The value of a radix-16 digit. *)
Definition hexDigitValue (c : ascii) : option Z :=
  let n := Z.of_nat (nat_of_ascii c) in
  if ((48 <=? n) && (n <=? 57))%Z then Some (n - 48)%Z
  else if ((97 <=? n) && (n <=? 102))%Z then Some (n - 87)%Z
  else if ((65 <=? n) && (n <=? 70))%Z then Some (n - 55)%Z
  else None.

(** The value of the longest prefix of radix-16 digits; [None] when the
    string does not start with a digit ([seen] tells that one was read). *)
Fixpoint hexPrefix (s : string) (acc : Z) (seen : bool) : option Z :=
  match s with
  | EmptyString => if seen then Some acc else None
  | String c s' =>
      match hexDigitValue c with
      | Some v => hexPrefix s' (16 * acc + v)%Z true
      | None => if seen then Some acc else None
      end
  end.

(** [Number.parseInt(s, 16)]: leading white space, a sign and a [0x] prefix
    are skipped, then the longest prefix of digits is read; NaN without a
    digit.  The value is exact (JavaScript rounds it from 2^53 on). *)
Definition parseInt16 (s : string) : number :=
  let s1 := JsString.trimStart s in
  let negative := match s1 with String c _ => Ascii.eqb c "-" | _ => false end in
  let s2 :=
    match s1 with
    | String c rest => if Ascii.eqb c "-" || Ascii.eqb c "+" then rest else s1
    | _ => s1
    end in
  let s3 :=
    match s2 with
    | String c1 (String c2 rest) =>
        if Ascii.eqb c1 "0" && (Ascii.eqb c2 "x" || Ascii.eqb c2 "X") then rest else s2
    | _ => s2
    end in
  match hexPrefix s3 0 false with
  | Some z => Num.ofZ (if negative then - z else z)
  | None => NaN
  end.

Module Rgb.
Record t : Type := { r : Z; g : Z; b : Z }.
End Rgb.

Definition hexToRgb (hex : string) : Rgb.t :=
  let normalized := removeFirstHash hex in
  let parsed :=
    if (String.length normalized =? 3)%nat then doubleChars normalized else normalized in
  let n := parseInt16 parsed in
  {| Rgb.r := Z.land (Z.shiftr (MoreNum.toInt32 n) 16) 255;
     Rgb.g := Z.land (Z.shiftr (MoreNum.toInt32 n) 8) 255;
     Rgb.b := Z.land (MoreNum.toInt32 n) 255 |}.

(** [FontFamilyKey] and [fontFamilies] of the fonts module. *)
Inductive FontFamilyKey : Type := sans | serif | mono | roboto | playfair | jetbrains.

Definition fontFamilies (key : FontFamilyKey) : string :=
  match key with
  | sans => "ui-sans-serif, system-ui, -apple-system, BlinkMacSystemFont, 'Segoe UI', Roboto, Helvetica, Arial"
  | serif => "ui-serif, Georgia, Cambria, 'Times New Roman', Times, serif"
  | mono => "ui-monospace, SFMono-Regular, Menlo, Monaco, Consolas, 'Liberation Mono', 'Courier New', monospace"
  | roboto => "var(--font-roboto)"
  | playfair => "var(--font-playfair)"
  | jetbrains => "var(--font-jetbrains)"
  end.

Module WatermarkStyle.
Record t : Type := {
  fontFamilyKey : FontFamilyKey;
  fontSize : number;
  color : string;
  opacity : number;
  showLocation : bool
}.
End WatermarkStyle.

(** The [useMemo] that builds [settingsForRender]. *)
Definition settingsForRender (msg : Messages) (style : WatermarkStyle.t) : WorkerSettings :=
  let rgb := hexToRgb (WatermarkStyle.color style) in
  {| fontFamily := fontFamilies (WatermarkStyle.fontFamilyKey style);
     fontSize := WatermarkStyle.fontSize style;
     textColor := (Num.ofZ (Rgb.r rgb), Num.ofZ (Rgb.g rgb), Num.ofZ (Rgb.b rgb),
                   WatermarkStyle.opacity style);
     showLocation := WatermarkStyle.showLocation style;
     unknownLocationText := unknownLocation msg |}.

(** The state setters of [clearAll]. *)
Definition clearAll (a : App) : App :=
  setErrorMsg "" (setProgress 0 0 (setProcessed [] (setPhotos (fun _ => []) a))).

(** The [useMemo] that builds [percentage]. *)
Definition percentage (progress : nat * nat) : number :=
  let '(done, total) := progress in
  if (total =? 0)%nat then Num.zero
  else Num.round (Num.mul (MoreNum.div (Num.ofNat done) (Num.ofNat total)) (Num.ofZ 100)).

(** [photos.some((p) => p.isGeocoding)] *)
Definition anyGeocoding (a : App) : bool :=
  existsb (fun p => match PhotoDraft.isGeocoding p with Some true => true | _ => false end)
    (photos a).

(** ** The live preview *)

Module PreviewPhoto.
Record t : Type := {
  id : string;
  name : string;
  sourceUrl : string;
  shotAt : string;
  locationText : string;
  dateLabel : string;
  locationLabel : string
}.
End PreviewPhoto.

(** [photos.find((p) => p.id === selectedPhotoId) ?? null] *)
Definition selectedPhoto (photos : list PhotoDraft.t) (selectedPhotoId : option string)
  : option PhotoDraft.t :=
  match selectedPhotoId with
  | Some i => List.find (fun p => JsString.strictEq (PhotoDraft.id p) i) photos
  | None => None
  end.

(** [selectedPreviewPhoto] for the draft variant. *)
Definition previewOfDraft (p : PhotoDraft.t) : PreviewPhoto.t :=
  {| PreviewPhoto.id := PhotoDraft.id p; PreviewPhoto.name := PhotoDraft.name p;
     PreviewPhoto.sourceUrl := PhotoDraft.sourceUrl p;
     PreviewPhoto.shotAt := PhotoDraft.shotAt p;
     PreviewPhoto.locationText := PhotoDraft.locationText p;
     PreviewPhoto.dateLabel := ""; PreviewPhoto.locationLabel := "" |}.

(** What [img.onload] of [PhotoPreviewModal] computes: the size of the
    canvas and the overlay drawn on it. *)
Record Preview : Type := {
  scale : number;
  canvasWidth : number;
  canvasHeight : number;
  drawn : Overlay
}.

Definition previewOverlay (measureText : number -> string -> string -> number)
  (photo : PreviewPhoto.t) (showLocation : bool) (unknownLocationText : string)
  (fontFamilyKey : FontFamilyKey) (fontSize : number) (imgWidth imgHeight : nat) : Preview :=
  let maxW := Num.ofZ 1200 in
  let scale := MoreNum.min (Num.ofZ 1) (MoreNum.div maxW (Num.ofNat imgWidth)) in
  let w := Num.round (Num.mul (Num.ofNat imgWidth) scale) in
  let h := Num.round (Num.mul (Num.ofNat imgHeight) scale) in
  let lines0 := List.filter JsString.truthy [PreviewPhoto.shotAt photo] in
  let unknown := isUnknownLocationText (PreviewPhoto.locationText photo) unknownLocationText in
  let lines :=
    if showLocation && negb unknown
    then lines0 ++ [PreviewPhoto.locationText photo] else lines0 in
  let appliedFontSize := Num.max (Num.ofZ 10) (Num.round (Num.mul fontSize scale)) in
  let lineHeight := Num.round (Num.mul appliedFontSize lit_1_4) in
  let padX := Num.round (Num.mul appliedFontSize lit_0_7) in
  let padY := Num.round (Num.mul appliedFontSize lit_0_5) in
  let margin := Num.max (Num.ofZ 12) (Num.round (Num.mul w lit_0_01)) in
  let fontFamily := fontFamilies fontFamilyKey in
  let maxWidth :=
    fold_left (fun m text => Num.max m (measureText appliedFontSize fontFamily text))
      lines Num.zero in
  let boxWidth := Num.round (Num.add maxWidth (Num.mul padX (Num.ofZ 2))) in
  let boxHeight :=
    Num.round (Num.add (Num.mul (Num.ofNat (length lines)) lineHeight)
                       (Num.mul padY (Num.ofZ 2))) in
  let x := Num.max Num.zero (Num.sub (Num.sub w boxWidth) margin) in
  let y := Num.max Num.zero (Num.sub (Num.sub h boxHeight) margin) in
  {| scale := scale; canvasWidth := w; canvasHeight := h;
     drawn :=
       {| lines := lines; appliedFontSize := appliedFontSize; lineHeight := lineHeight;
          padX := padX; padY := padY; margin := margin;
          boxWidth := boxWidth; boxHeight := boxHeight; x := x; y := y;
          texts :=
            imap (fun i line =>
                    (line, Num.add x padX,
                     Num.add (Num.add y padY)
                             (Num.mul lineHeight (Num.add (Num.ofNat i) lit_0_82))))
                 lines |} |}.

(** ** Locales *)

Definition locales : list string :=
  ["en"; "zh"; "es"; "hi"; "fr"; "ar"; "bn"; "pt"; "ru"; "ja"].

Definition defaultLocale : string := "en".

Definition rtlLocales : list string := ["ar"].

(** [hasLocale(locales, locale) ? locale : defaultLocale], for a locale that
    may be missing from the request. *)
Definition resolveLocale (locale : option string) : string :=
  match locale with
  | Some l => if existsb (JsString.strictEq l) locales then l else defaultLocale
  | None => defaultLocale
  end.

(** [dir] of [LocaleLayout]. *)
Definition direction (locale : option string) : string :=
  if existsb (JsString.strictEq (resolveLocale locale)) rtlLocales then "rtl" else "ltr".

(** ** Definitions used to state the properties *)

(** The part both rasterization routines share once the lines are chosen. *)
Definition overlayOf (measureText : number -> string -> string -> number)
  (lines : list string) (settings : WorkerSettings) (width height : nat) : Overlay :=
  let fontSize := Num.max (Num.ofZ 10) (Num.round (fontSize settings)) in
  let lineHeight := Num.round (Num.mul fontSize lit_1_4) in
  let padX := Num.round (Num.mul fontSize lit_0_7) in
  let padY := Num.round (Num.mul fontSize lit_0_5) in
  let margin := Num.max (Num.ofZ 16) (Num.round (Num.mul (Num.ofNat width) lit_0_01)) in
  let maxWidth :=
    fold_left (fun m text => Num.max m (measureText fontSize (fontFamily settings) text))
      lines Num.zero in
  let boxWidth := Num.round (Num.add maxWidth (Num.mul padX (Num.ofZ 2))) in
  let boxHeight :=
    Num.round (Num.add (Num.mul (Num.ofNat (length lines)) lineHeight)
                       (Num.mul padY (Num.ofZ 2))) in
  let x := Num.max Num.zero (Num.sub (Num.sub (Num.ofNat width) boxWidth) margin) in
  let y := Num.max Num.zero (Num.sub (Num.sub (Num.ofNat height) boxHeight) margin) in
  {| lines := lines; appliedFontSize := fontSize; lineHeight := lineHeight;
     padX := padX; padY := padY; margin := margin;
     boxWidth := boxWidth; boxHeight := boxHeight; x := x; y := y;
     texts :=
       imap (fun i line =>
               (line, Num.add x padX,
                Num.add (Num.add y padY)
                        (Num.mul lineHeight (Num.add (Num.ofNat i) lit_0_82))))
            lines |}.

(** The settings with the location line switched off. *)
Definition hideLocation (settings : WorkerSettings) : WorkerSettings :=
  {| fontFamily := fontFamily settings; fontSize := fontSize settings;
     textColor := textColor settings; showLocation := false;
     unknownLocationText := unknownLocationText settings |}.

(** The condition for the location line with every test made on the text as
    it is stored, without trimming. *)
Definition locationShownUntrimmed (settings : WorkerSettings) (text : string) : bool :=
  showLocation settings && JsString.truthy text
  && negb (JsString.strictEq text (unknownLocationText settings))
  && negb (Regex.test Regex.numericPair text).

(** The condition [processInMainThread] applies: the same tests on the
    trimmed text. *)
Definition locationShown (settings : WorkerSettings) (text : string) : bool :=
  showLocation settings && JsString.truthy (JsString.trim text)
  && negb (JsString.strictEq (JsString.trim text) (unknownLocationText settings))
  && negb (Regex.test Regex.numericPair (JsString.trim text)).

(** The first value of a [??] chain that is neither [undefined] nor [null];
    [undefined] when there is none. *)
Fixpoint firstPresent (vs : list value) : value :=
  match vs with
  | [] => VUndefined
  | v :: rest =>
      match v with
      | VUndefined | VNull => firstPresent rest
      | _ => v
      end
  end.

(** The three timestamp descriptions in the order [onDrop] reads them. *)
Definition timestampDescriptions (tags : Tags) : list value :=
  [ optChain (DateTimeOriginal tags) description;
    optChain (DateTimeDigitized tags) description;
    optChain (DateTime tags) description ].

(** A description that counts as present when empty and white-space-only
    strings count as absent. *)
Definition nonBlankText (v : value) : option string :=
  match v with
  | VStr s => if (String.length (JsString.trim s) =? 0)%nat then None else Some s
  | _ => None
  end.

(** The displayed timestamp if a blank description fell through to the next
    tag: the normalization of the first non-blank description of the chain,
    the sentinel when there is none. *)
Definition timestampSkippingBlanks (tags : Tags) (unknownDate : string) : string :=
  match omap nonBlankText (timestampDescriptions tags) with
  | s :: _ => replaceDateSeparators (JsString.trim s)
  | [] => unknownDate
  end.

(** The place name a settled request contributes: the string
    [reverseGeocode] returned, when it returned one and it is not empty. *)
Definition placeName (gps : GpsCoord) (net : fetchOutcome) : option string :=
  match reverseGeocode (lat gps) (lon gps) net with
  | Return (Some text) => if JsString.truthy text then Some text else None
  | _ => None
  end.

(** The parsed body is an object whose [display_name] is the string [s]:
    the key is bound to it and is not bound again further on. *)
Definition hasDisplayName (body : json) (s : string) : Prop :=
  exists pre post,
    body = JObject (pre ++ ("display_name", JString s) :: post)
    /\ Forall (fun kv => fst kv <> "display_name") post.

(** The request was answered with a success status and a body that holds
    the non-empty place name [text]. *)
Definition answered (net : fetchOutcome) (text : string) : Prop :=
  exists body, net = Response true (Some body) /\ hasDisplayName body text /\ text <> "".

(** The location texts of the pending list, in order. *)
Definition locationTexts (a : App) : list string :=
  map PhotoDraft.locationText (photos a).

(** The state a completed call left; the given state when it threw. *)
Definition stateAfter (c : completion App) (a : App) : App :=
  match c with
  | Return a' => a'
  | Throw => a
  end.

(** Two resolutions of one coordinate for one entry, one after the other. *)
Definition resolveTwice (photoId : string) (gps : GpsCoord) (net1 net2 : fetchOutcome)
  (a : App) : App :=
  let a1 := stateAfter (triggerReverseGeocode photoId gps net1 a) a in
  stateAfter (triggerReverseGeocode photoId gps net2 a1) a1.

(** The number a GPS magnitude stands for: the value itself when it is a
    number, its first element when it is a sequence that starts with a
    number. *)
Inductive magnitude : value -> number -> Prop :=
| magnitude_number (x : number) : magnitude (VNum x) x
| magnitude_first (x : number) (rest : list value) : magnitude (VArr (VNum x :: rest)) x.

(** The tag is in the block and its value stands for the number [x]. *)
Definition tagMagnitude (tag : option Tag) (x : number) : Prop :=
  exists t, tag = Some t /\ magnitude (tvalue t) x.

(** The tag is in the block and its description is the given letter. *)
Definition tagReference (tag : option Tag) (letter : string) : Prop :=
  exists t, tag = Some t /\ description t = VStr letter.

(** A place at 33.9 S 18.4 E, the latitude given as a sequence. *)
Definition southernTags : Tags :=
  {| DateTimeOriginal := None; DateTimeDigitized := None; DateTime := None;
     GPSLatitude := Some {| tvalue := VArr [VNum (Fin (339 # 10)); VNum (Num.ofZ 0)];
                            description := VStr "33.9" |};
     GPSLongitude := Some {| tvalue := VNum (Fin (184 # 10)); description := VStr "18.4" |};
     GPSLatitudeRef := Some {| tvalue := VArr [VStr "S"]; description := VStr "S" |};
     GPSLongitudeRef := Some {| tvalue := VArr [VStr "E"]; description := VStr "E" |} |}.


(** What a batch run has no business with: the pending drafts, the geocode
    cache and the log of requests. *)
Definition frame (a : App) : list PhotoDraft.t * gmap string string * list (number * number) :=
  (photos a, geocodeCache a, requests a).

(** No character of the string is a dash. *)
Fixpoint dashFree (s : string) : Prop :=
  match s with
  | EmptyString => True
  | String c s' => c <> "-"%char /\ dashFree s'
  end.

(** Sample inputs. *)
Definition sampleMessages : Messages :=
  {| unknownDate := "Unknown date"; unknownLocation := "Unknown location";
     processFailed := "Processing failed" |}.

Definition sampleTag (v : value) (d : string) : option Tag :=
  Some {| tvalue := v; description := VStr d |}.

Definition sampleTags : Tags :=
  {| DateTimeOriginal := sampleTag (VStr "2023:05:01 10:20:30") "2023:05:01 10:20:30";
     DateTimeDigitized := None;
     DateTime := None;
     GPSLatitude := sampleTag (VNum (Fin (75 # 2))) "37.5";
     GPSLongitude := sampleTag (VNum (Num.ofZ 127)) "127";
     GPSLatitudeRef := sampleTag (VArr [VStr "N"]) "N";
     GPSLongitudeRef := sampleTag (VArr [VStr "E"]) "E" |}.

Definition sampleFile : File :=
  {| fileName := "IMG_0001.jpg"; lastModified := 1682936430000;
     fileData := 1; exifTags := Some sampleTags |}.

Definition sampleDraft : PhotoDraft.t := parseFile sampleMessages 0 sampleFile.

(** A text measure: every character is 16 pixels wide. *)
Definition sampleMeasure (size : number) (family text : string) : number :=
  Num.ofNat (16 * String.length text).

Definition sampleSettings : WorkerSettings :=
  {| fontFamily := "ui-sans-serif"; fontSize := Num.ofZ 32;
     textColor := (Num.ofZ 255, Num.ofZ 255, Num.ofZ 255, Fin (95 # 100));
     showLocation := true; unknownLocationText := "Unknown location" |}.

(** Tags whose original-capture description is blank while the digitized
    one holds a date. *)
Definition blankOriginalTags : Tags :=
  {| DateTimeOriginal := sampleTag (VStr "   ") "   ";
     DateTimeDigitized := sampleTag (VStr "2023:05:01 10:20:30") "2023:05:01 10:20:30";
     DateTime := None;
     GPSLatitude := None; GPSLongitude := None;
     GPSLatitudeRef := None; GPSLongitudeRef := None |}.

Definition sampleCoord : GpsCoord := {| lat := Fin (75 # 2); lon := Num.ofZ 127 |}.

(** A coordinate that differs from the sample one after the sixth decimal. *)
Definition nearbyCoord : GpsCoord :=
  {| lat := Fin (375000001 # 10000000); lon := Num.ofZ 127 |}.

(** A successful response naming a place. *)
Definition seoulResponse : fetchOutcome :=
  Response true (Some (JObject [("lat", JString "37.5"); ("display_name", JString "Seoul")])).

(** The page after the sample file was dropped: one draft, one request in
    flight. *)
Definition sampleApp : App := onDrop sampleMessages [sampleFile] emptyApp.

(** A platform that rasterizes every file: bitmaps of 4000 by 3000, and an
    encoded image that depends on the file and on the lines drawn. *)
Definition rasterizes : Platform :=
  {| createImageBitmap := fun _ => Resolved (4000, 3000)%nat;
     getContext2d := true;
     measureTextWidth := sampleMeasure;
     exportCanvas := fun f o => Resolved (100 * fileData f + length (lines o))%nat |}.

(** Three files dropped together. *)
Definition threeFiles : list File :=
  [ sampleFile;
    {| fileName := "IMG_0002.jpg"; lastModified := 1682936431000; fileData := 2;
       exifTags := None |};
    {| fileName := "IMG_0003.jpg"; lastModified := 1682936432000; fileData := 3;
       exifTags := Some blankOriginalTags |} ].

Definition threeApp : App := onDrop sampleMessages threeFiles emptyApp.

(** A run whose worker posts nothing before the startup timer fires; the
    60 s timer fires after the fallback is over. *)
Definition stalledEnvironment : Environment :=
  {| canUseWorker := true;
     events := [StartupTimeout; OverallTimeout];
     mainPlatform := rasterizes;
     signedIn := false;
     addDocFails := false |}.

(** The sample draft after a resolution that gave a blank place name. *)
Definition blankLocationDraft : PhotoDraft.t := PhotoDraft.withLocation " " false sampleDraft.

(** Every place name in the geocode cache is a non-empty string. *)
Definition cacheValuesNonEmpty (a : App) : Prop :=
  forall key text, geocodeCache a !! key = Some text -> text <> "".

(** The requests an ingestion sends: one for every parsed draft, in order,
    that has a coordinate whose key has no non-empty entry in the cache. *)
Definition missedRequests (cache : gmap string string) (parsed : list PhotoDraft.t)
  : list (number * number) :=
  flat_map
    (fun d =>
       match PhotoDraft.gps d with
       | Some g =>
           match cache !! geocodeKey g with
           | Some cached => if JsString.truthy cached then [] else [(lat g, lon g)]
           | None => [(lat g, lon g)]
           end
       | None => []
       end)
    parsed.

(** Two drafts differ at most in their location text and geocoding flag. *)
Definition sameButLocation (p p' : PhotoDraft.t) : Prop :=
  PhotoDraft.id p' = PhotoDraft.id p /\ PhotoDraft.file p' = PhotoDraft.file p
  /\ PhotoDraft.name p' = PhotoDraft.name p /\ PhotoDraft.shotAt p' = PhotoDraft.shotAt p
  /\ PhotoDraft.sourceUrl p' = PhotoDraft.sourceUrl p
  /\ PhotoDraft.dateLabel p' = PhotoDraft.dateLabel p
  /\ PhotoDraft.locationLabel p' = PhotoDraft.locationLabel p
  /\ PhotoDraft.gps p' = PhotoDraft.gps p.

(** The page after the sample photo was resolved to a place name. *)
Definition resolvedApp : App :=
  stateAfter (triggerSettle (PhotoDraft.id sampleDraft) sampleCoord seoulResponse sampleApp)
    sampleApp.

(** The result entry [processInMainThread] hands to [onResult] for a draft
    and the image exported for it. *)
Definition resultOfDraft (item : PhotoDraft.t) (blob : Blob) : ProcessedPhoto.t :=
  {| ProcessedPhoto.id := PhotoDraft.id item;
     ProcessedPhoto.name := PhotoDraft.name item;
     ProcessedPhoto.outputUrl := createObjectURL blob;
     ProcessedPhoto.shotAt := PhotoDraft.shotAt item;
     ProcessedPhoto.locationText := PhotoDraft.locationText item |}.

(** The [progress] and [result] messages for the given results, the first
    of which has index [i]. *)
Fixpoint resultMessages (total i : nat) (ress : list WorkerResult.t) : list WorkerMsg :=
  match ress with
  | [] => []
  | res :: rest => Progress (i + 1) total :: Result res :: resultMessages total (S i) rest
  end.


(** A browser with workers in which the worker would post an [error]
    message and no [complete]; then the startup timer fires. *)
Definition erroringEnvironment : Environment :=
  {| canUseWorker := true;
     events := [OnMessage (Error "The source image could not be decoded."); StartupTimeout];
     mainPlatform := rasterizes;
     signedIn := false;
     addDocFails := false |}.

(** The environment of a browser that cannot build the worker. *)
Definition withoutWorker (env : Environment) : Environment :=
  {| canUseWorker := false; events := events env; mainPlatform := mainPlatform env;
     signedIn := signedIn env; addDocFails := addDocFails env |}.

(** A platform on which the export of the canvas fails for the file with
    the given handle and [createImageBitmap] gives 4000 by 3000. *)
Definition failsOn (handle : Blob) : Platform :=
  {| createImageBitmap := fun _ => Resolved (4000, 3000)%nat;
     getContext2d := true;
     measureTextWidth := sampleMeasure;
     exportCanvas := fun f o =>
       if (fileData f =? handle)%nat then Rejected None
       else Resolved (100 * fileData f + length (lines o))%nat |}.

(** A browser without workers, signed out. *)
Definition directEnvironment (pf : Platform) : Environment :=
  {| canUseWorker := false; events := []; mainPlatform := pf;
     signedIn := false; addDocFails := false |}.

(** The variables of a call once the startup timer has fired with no
    message received: the worker is terminated, the fallback is chosen, the
    promise is resolved, and the 60 s timer is still pending. *)
Definition stalledRun (a : App) : Run :=
  {| app := a; results := []; settled := true; gotAnyMessage := false;
     shouldFallbackToMainThread := true;
     startupTimeoutId := false; timeoutId := true; workerAlive := false |}.

(** Every character of the string is a decimal digit. *)
Fixpoint allDigits (s : string) : bool :=
  match s with
  | EmptyString => true
  | String c s' => JsString.isDigit c && allDigits s'
  end.

(** A finite number of magnitude below 1e21: the range in which [toFixed]
    prints plain digits and no exponent. *)
Definition plainRange (x : number) : Prop :=
  match x with
  | Fin q => (Qabs q < inject_Z (10 ^ 21))%Q
  | _ => False
  end.

(** The characters a pattern can consume: those of its classes. *)
Fixpoint consumes (r : Regex.regex) (c : ascii) : bool :=
  match r with
  | Regex.Fail | Regex.Eps => false
  | Regex.Class p => p c
  | Regex.Cat r1 r2 | Regex.Alt r1 r2 => consumes r1 c || consumes r2 c
  | Regex.Star r1 => consumes r1 c
  end.

(** The string contains the character. *)
Fixpoint occurs (c : ascii) (s : string) : bool :=
  match s with
  | EmptyString => false
  | String x s' => bool_decide (x = c) || occurs c s'
  end.

(** The characters a coordinate pair is written with: digits, white space,
    the minus sign, the point and the comma. *)
Definition coordinateChar (c : ascii) : bool :=
  JsString.isDigit c || JsString.isWhiteSpace c
  || bool_decide (c = "-"%char) || bool_decide (c = "."%char) || bool_decide (c = ","%char).

(** A draft whose place name has been resolved. *)
Definition seoulDraft : PhotoDraft.t :=
  PhotoDraft.withLocation "Seoul, South Korea" false sampleDraft.

(** The preview the page opens for a draft under the current style: the
    props [WatermarkApp] passes to [PhotoPreviewModal]. *)
Definition previewOf (measureText : number -> string -> string -> number)
  (msg : Messages) (style : WatermarkStyle.t) (item : PhotoDraft.t)
  (imgWidth imgHeight : nat) : Preview :=
  previewOverlay measureText (previewOfDraft item) (WatermarkStyle.showLocation style)
    (unknownLocationText (settingsForRender msg style))
    (WatermarkStyle.fontFamilyKey style) (WatermarkStyle.fontSize style)
    imgWidth imgHeight.

(** A style with the defaults of the page. *)
Definition sampleStyle : WatermarkStyle.t :=
  {| WatermarkStyle.fontFamilyKey := sans; WatermarkStyle.fontSize := Num.ofZ 32;
     WatermarkStyle.color := "#ffffff"; WatermarkStyle.opacity := Fin (95 # 100);
     WatermarkStyle.showLocation := true |}.

(** * Properties *)

Example toFixed6_examples :
  Num.toFixed6 (Fin (75 # 2)) = "37.500000" /\ Num.toFixed6 (Num.ofZ 127) = "127.000000"
  /\ Num.toFixed6 (Fin (-1 # 3)) = "-0.333333" /\ Num.toFixed6 (Fin (2 # 3)) = "0.666667"
  /\ Num.toFixed6 (Fin (-1 # 10000000)) = "-0.000000"
  /\ Num.toFixed6 (Fin (0 # 1)) = "0.000000".
Proof. repeat split; vm_compute; reflexivity. Qed.

Example round_examples :
  Num.round (Fin (5 # 2)) = Num.ofZ 3 /\ Num.round (Fin (-5 # 2)) = Num.ofZ (-2)
  /\ Num.round (Num.mul (Num.ofZ 32) lit_1_4) = Num.ofZ 45
  /\ Num.round (Num.mul (Num.ofZ 15) lit_0_7) = Num.ofZ 11.
Proof. repeat split; vm_compute; reflexivity. Qed.

(** ** Numbers *)

Lemma isFinite_Fin (a : number) : Num.isFinite a = true -> exists q, a = Fin q.
Proof. destruct a; simpl; intros H; try discriminate; eauto. Qed.

Lemma isFinite_round (a : number) : Num.isFinite a = true -> Num.isFinite (Num.round a) = true.
Proof. destruct a; simpl; congruence. Qed.

Lemma isFinite_add (a b : number) :
  Num.isFinite a = true -> Num.isFinite b = true -> Num.isFinite (Num.add a b) = true.
Proof. destruct a, b; simpl; congruence. Qed.

Lemma isFinite_sub (a b : number) :
  Num.isFinite a = true -> Num.isFinite b = true -> Num.isFinite (Num.sub a b) = true.
Proof. destruct a, b; simpl; congruence. Qed.

Lemma isFinite_mul (a b : number) :
  Num.isFinite a = true -> Num.isFinite b = true -> Num.isFinite (Num.mul a b) = true.
Proof. destruct a, b; simpl; congruence. Qed.

Lemma isFinite_max (a b : number) :
  Num.isFinite a = true -> Num.isFinite b = true -> Num.isFinite (Num.max a b) = true.
Proof.
  destruct a, b; simpl; try congruence.
  intros _ _. destruct (negb _); reflexivity.
Qed.

Lemma isFinite_ofZ (z : Z) : Num.isFinite (Num.ofZ z) = true.
Proof. reflexivity. Qed.

Lemma isFinite_ofNat (n : nat) : Num.isFinite (Num.ofNat n) = true.
Proof. reflexivity. Qed.

Create HintDb finite.
#[local] Hint Resolve isFinite_round isFinite_add isFinite_sub isFinite_mul
  isFinite_max isFinite_ofZ isFinite_ofNat : finite.

(** [Math.max(0, v)] is at least 0 as soon as [v] is not NaN. *)
Lemma max_zero_nonneg (v : number) :
  Num.isNaN v = false -> Num.leb Num.zero (Num.max Num.zero v) = true.
Proof.
  destruct v as [| | |q]; simpl; try congruence; try reflexivity.
  intros _. destruct (Qle_bool q (inject_Z 0)) eqn:E; simpl.
  - reflexivity.
  - destruct (Qle_bool (inject_Z 0) q) eqn:E'; [reflexivity|].
    exfalso.
    assert (~ (q <= inject_Z 0)%Q) as H1 by (rewrite <- Qle_bool_iff; congruence).
    assert (~ (inject_Z 0 <= q)%Q) as H2 by (rewrite <- Qle_bool_iff; congruence).
    apply H1. apply Qlt_le_weak. apply Qnot_le_lt. exact H2.
Qed.

Lemma mul_two_round (a : number) :
  Num.mul (Num.round a) (Num.ofZ 2) = Num.mul (Num.ofZ 2) (Num.round a).
Proof.
  destruct a as [| | |q]; try reflexivity.
  simpl. unfold Qmult, inject_Z; simpl. f_equal. f_equal. apply Z.mul_comm.
Qed.

Lemma fold_max_map {A : Type} (f : A -> number) (l : list A) (z : number) :
  fold_left (fun m t => Num.max m (f t)) l z = fold_left Num.max (map f l) z.
Proof. revert z. induction l as [|a l IH]; intros z; simpl; [reflexivity | apply IH]. Qed.

Lemma isFinite_fold_max (ws : list number) (z : number) :
  Num.isFinite z = true ->
  Forall (fun w => Num.isFinite w = true) ws ->
  Num.isFinite (fold_left Num.max ws z) = true.
Proof.
  intros Hz Hws. revert z Hz.
  induction Hws as [|w ws Hw _ IH]; intros z Hz; simpl; [exact Hz|].
  apply IH. auto with finite.
Qed.

Lemma isFinite_not_NaN (a : number) : Num.isFinite a = true -> Num.isNaN a = false.
Proof. destruct a; simpl; congruence. Qed.

(** ** Metadata extraction *)

Lemma magnitude_toNumber (v : value) (x : number) :
  magnitude v x <-> toNumber v = Some x.
Proof.
  split.
  - intros [y|y rest]; reflexivity.
  - destruct v as [| | |y| |[|[| | |y| |] rest]]; cbn; try discriminate;
      intros [= <-]; constructor.
Qed.

Lemma tagMagnitude_toNumber (tag : option Tag) (x : number) :
  tagMagnitude tag x <-> toNumber (optChain tag tvalue) = Some x.
Proof.
  unfold tagMagnitude. rewrite <- magnitude_toNumber. split.
  - intros (t & -> & H). exact H.
  - destruct tag as [t|]; cbn [optChain]; [eauto|inversion 1].
Qed.

Lemma tagReference_isString (tag : option Tag) (letter : string) :
  (tagReference tag letter -> isString (optChain tag description) letter = true)
  /\ (~ tagReference tag letter -> isString (optChain tag description) letter = false).
Proof.
  unfold tagReference, JsString.strictEq. split.
  - intros (t & -> & H). cbn [optChain]. rewrite H. cbn [isString].
    apply bool_decide_eq_true_2. reflexivity.
  - intros H. destruct tag as [t|]; cbn [optChain]; [|reflexivity].
    destruct (description t) eqn:E; cbn [isString]; try reflexivity.
    apply bool_decide_eq_false_2. intros ->. apply H. eauto.
Qed.

(** C3. When both GPS magnitude tags are present and stand for finite
    numbers (a sequence counting for its first element), [parseExifGps]
    yields a coordinate: with the latitude reference [S] the latitude is
    the opposite of the magnitude's absolute value, hence at most 0, and
    with any other or a missing reference it is the magnitude unchanged;
    likewise for the longitude and [W].  When a magnitude is missing (no
    tag, or a value that is neither a number nor a sequence starting with
    one) or not finite, no coordinate is produced. *)
Theorem parseExifGps_hemisphere_sign (tags : Tags) :
  (forall p q,
      tagMagnitude (GPSLatitude tags) (Fin p) ->
      tagMagnitude (GPSLongitude tags) (Fin q) ->
      exists c,
        parseExifGps tags = Some c
        /\ (tagReference (GPSLatitudeRef tags) "S" ->
            lat c = Fin (- Qabs p) /\ (- Qabs p <= 0)%Q)
        /\ (~ tagReference (GPSLatitudeRef tags) "S" -> lat c = Fin p)
        /\ (tagReference (GPSLongitudeRef tags) "W" ->
            lon c = Fin (- Qabs q) /\ (- Qabs q <= 0)%Q)
        /\ (~ tagReference (GPSLongitudeRef tags) "W" -> lon c = Fin q))
  /\ ((forall x, ~ tagMagnitude (GPSLatitude tags) x)
      \/ (forall y, ~ tagMagnitude (GPSLongitude tags) y) ->
      parseExifGps tags = None)
  /\ (forall x y,
        tagMagnitude (GPSLatitude tags) x -> tagMagnitude (GPSLongitude tags) y ->
        (forall p, x <> Fin p) \/ (forall q, y <> Fin q) ->
        parseExifGps tags = None).
Proof.
  destruct (tagReference_isString (GPSLatitudeRef tags) "S") as [HS HS'].
  destruct (tagReference_isString (GPSLongitudeRef tags) "W") as [HW HW'].
  split; [|split].
  - intros p q Hp Hq.
    apply tagMagnitude_toNumber in Hp. apply tagMagnitude_toNumber in Hq.
    unfold parseExifGps. rewrite Hp, Hq.
    assert (Hneg : forall r : Q, (- Qabs r <= 0)%Q).
    { intros r. pose proof (Qabs_nonneg r). lra. }
    destruct (isString (optChain (GPSLatitudeRef tags) description) "S") eqn:E1,
      (isString (optChain (GPSLongitudeRef tags) description) "W") eqn:E2;
      cbn [Num.neg Num.abs Num.isFinite negb orb]; eexists; (split; [reflexivity|]);
      cbn [lat lon];
      (split; [intros Href|split; [intros Href|split; [intros Href|intros Href]]]);
      try (apply HS in Href); try (apply HS' in Href);
      try (apply HW in Href); try (apply HW' in Href);
      first [congruence | split; [reflexivity | apply Hneg]].
  - intros Hmissing. unfold parseExifGps.
    destruct (toNumber (optChain (GPSLatitude tags) tvalue)) as [x|] eqn:Ex;
      [|reflexivity].
    destruct (toNumber (optChain (GPSLongitude tags) tvalue)) as [y|] eqn:Ey;
      [|reflexivity].
    apply tagMagnitude_toNumber in Ex. apply tagMagnitude_toNumber in Ey.
    destruct Hmissing as [H|H]; [destruct (H x Ex) | destruct (H y Ey)].
  - intros x y Hx Hy Hinf.
    apply tagMagnitude_toNumber in Hx. apply tagMagnitude_toNumber in Hy.
    unfold parseExifGps. rewrite Hx, Hy.
    destruct Hinf as [H|H].
    + destruct x as [| | |p]; [| | |destruct (H p eq_refl)];
        destruct (isString (optChain (GPSLatitudeRef tags) description) "S");
        reflexivity.
    + destruct y as [| | |q]; [| | |destruct (H q eq_refl)];
        destruct (isString (optChain (GPSLatitudeRef tags) description) "S"),
          (isString (optChain (GPSLongitudeRef tags) description) "W"),
          x; reflexivity.
Qed.

(** A place in the southern hemisphere whose latitude is a sequence: the
    first element is taken and negated; the longitude, east, is kept. *)
Lemma parseExifGps_hemisphere_sign_witness :
  exists c,
    parseExifGps southernTags = Some c
    /\ lat c = Fin (- Qabs (339 # 10)) /\ (- Qabs (339 # 10) <= 0)%Q
    /\ lon c = Fin (184 # 10).
Proof.
  destruct (parseExifGps_hemisphere_sign southernTags) as [H _].
  destruct (H (339 # 10) (184 # 10)) as (c & Hc & HS & _ & _ & HE).
  - eexists. split; [reflexivity | constructor].
  - eexists. split; [reflexivity | constructor].
  - exists c. split; [exact Hc|].
    destruct HS as [Hlat Hle]; [eexists; split; reflexivity|].
    split; [exact Hlat|]. split; [exact Hle|].
    apply HE. intros (t & Ht & Hd). injection Ht as <-. discriminate Hd.
Defined.

(** A sequence whose first element is a number stands for that number. *)
Example toNumber_sequence :
  toNumber (VArr [VNum (Fin (75 # 2)); VNum (Num.ofZ 30)]) = Some (Fin (75 # 2))
  /\ toNumber (VArr []) = None
  /\ toNumber (VArr [VArr [VNum (Num.ofZ 37); VNum (Num.ofZ 1)]]) = None
  /\ toNumber (VStr "37.5") = None.
Proof. repeat split; reflexivity. Qed.

(** ** Layout *)

Section LayoutFacts.

Variable measureText : number -> string -> string -> number.

(** Both routines compute the geometry the layout function gives for
    their lines, the widths measured for them, the bitmap's dimensions and
    the applied font size. *)
Lemma mainThreadOverlay_layout (item : PhotoDraft.t) (settings : WorkerSettings)
  (width height : nat) :
  let o := mainThreadOverlay measureText item settings width height in
  geometryOf o
  = layout (lines o)
      (map (measureText (appliedFontSize o) (fontFamily settings)) (lines o))
      width height (appliedFontSize o).
Proof.
  unfold mainThreadOverlay, geometryOf, layout.
  cbn [lines appliedFontSize lineHeight padX padY margin boxWidth boxHeight x y].
  rewrite (fold_max_map (measureText _ (fontFamily settings))).
  rewrite 2!mul_two_round. reflexivity.
Qed.

Lemma workerOverlay_layout (item : WorkerInputPhoto.t) (settings : WorkerSettings)
  (width height : nat) :
  let o := workerOverlay measureText item settings width height in
  geometryOf o
  = layout (lines o)
      (map (measureText (appliedFontSize o) (fontFamily settings)) (lines o))
      width height (appliedFontSize o).
Proof.
  unfold workerOverlay, geometryOf, layout.
  cbn [lines appliedFontSize lineHeight padX padY margin boxWidth boxHeight x y].
  rewrite (fold_max_map (measureText _ (fontFamily settings))).
  rewrite 2!mul_two_round. reflexivity.
Qed.

(** The anchored position of the layout function is never below 0 when
    the font size and the widths are finite. *)
Lemma layout_clamped (ls : list string) (ws : list number) (w h : nat) (fs : number) :
  Num.isFinite fs = true ->
  Forall (fun v => Num.isFinite v = true) ws ->
  Num.leb Num.zero (boxX (layout ls ws w h fs)) = true
  /\ Num.leb Num.zero (boxY (layout ls ws w h fs)) = true.
Proof.
  intros Hfs Hws. unfold layout. cbn [boxX boxY].
  pose proof (isFinite_fold_max ws Num.zero eq_refl Hws) as Hmax.
  split; apply max_zero_nonneg, isFinite_not_NaN; auto 10 with finite.
Qed.

End LayoutFacts.

(** C7. The geometry drawn by either routine is the value of one function,
    [layout], of the lines, their measured widths, the bitmap's dimensions
    and the applied font size, so equal inputs give equal geometry; and for
    a finite font size and finite measured widths the anchored position has
    [x >= 0] and [y >= 0], whatever the size of the box. *)
Theorem layout_pure_and_clamped
  (measureText : number -> string -> string -> number)
  (item : PhotoDraft.t) (settings : WorkerSettings) (width height : nat)
  (Hfont : Num.isFinite (fontSize settings) = true)
  (Hwidths : forall size family text, Num.isFinite (measureText size family text) = true) :
  let m := mainThreadOverlay measureText item settings width height in
  let w := workerOverlay measureText (toWorkerPhoto item) settings width height in
  geometryOf m
  = layout (lines m) (map (measureText (appliedFontSize m) (fontFamily settings)) (lines m))
      width height (appliedFontSize m)
  /\ geometryOf w
     = layout (lines w) (map (measureText (appliedFontSize w) (fontFamily settings)) (lines w))
         width height (appliedFontSize w)
  /\ Num.leb Num.zero (x m) = true /\ Num.leb Num.zero (y m) = true
  /\ Num.leb Num.zero (x w) = true /\ Num.leb Num.zero (y w) = true.
Proof.
  intros m w.
  pose proof (mainThreadOverlay_layout measureText item settings width height) as Hm.
  pose proof (workerOverlay_layout measureText (toWorkerPhoto item) settings width height) as Hw.
  cbv zeta in Hm, Hw. fold m in Hm. fold w in Hw.
  assert (Hfs : forall o, appliedFontSize o
                          = Num.max (Num.ofZ 10) (Num.round (fontSize settings)) ->
                          Num.isFinite (appliedFontSize o) = true).
  { intros o ->. auto with finite. }
  assert (Hall : forall fs fam ls,
             Forall (fun v => Num.isFinite v = true) (map (measureText fs fam) ls)).
  { intros fs fam ls. apply Forall_forall. intros v Hv.
    apply list_elem_of_In, in_map_iff in Hv. destruct Hv as [t [<- _]]. apply Hwidths. }
  split; [exact Hm|]. split; [exact Hw|].
  change (x m) with (boxX (geometryOf m)). change (y m) with (boxY (geometryOf m)).
  change (x w) with (boxX (geometryOf w)). change (y w) with (boxY (geometryOf w)).
  rewrite Hm, Hw.
  destruct (layout_clamped (lines m) _ width height (appliedFontSize m)
              (Hfs m eq_refl)
              (Hall (appliedFontSize m) (fontFamily settings) (lines m))) as [Hmx Hmy].
  destruct (layout_clamped (lines w) _ width height (appliedFontSize w)
              (Hfs w eq_refl)
              (Hall (appliedFontSize w) (fontFamily settings) (lines w))) as [Hwx Hwy].
  auto.
Qed.

(** The round trip of the specification: the sample file gives the dashed
    timestamp, the coordinate, and the six-decimal location text. *)
Example sampleDraft_fields :
  PhotoDraft.shotAt sampleDraft = "2023-05-01 10:20:30"
  /\ PhotoDraft.gps sampleDraft = Some {| lat := Fin (75 # 2); lon := Num.ofZ 127 |}
  /\ PhotoDraft.locationText sampleDraft = "37.500000, 127.000000"
  /\ PhotoDraft.id sampleDraft = "IMG_0001.jpg-0-1682936430000".
Proof. repeat split; vm_compute; reflexivity. Qed.

(** The sample photo with a 32 pixel font meets the conditions of
    [layout_pure_and_clamped]. *)
Lemma layout_pure_and_clamped_witness :
  let m := mainThreadOverlay sampleMeasure sampleDraft sampleSettings 4000 3000 in
  let w := workerOverlay sampleMeasure (toWorkerPhoto sampleDraft) sampleSettings 4000 3000 in
  geometryOf m
  = layout (lines m) (map (sampleMeasure (appliedFontSize m) (fontFamily sampleSettings)) (lines m))
      4000 3000 (appliedFontSize m)
  /\ geometryOf w
     = layout (lines w) (map (sampleMeasure (appliedFontSize w) (fontFamily sampleSettings)) (lines w))
         4000 3000 (appliedFontSize w)
  /\ Num.leb Num.zero (x m) = true /\ Num.leb Num.zero (y m) = true
  /\ Num.leb Num.zero (x w) = true /\ Num.leb Num.zero (y w) = true.
Proof.
  apply (layout_pure_and_clamped sampleMeasure sampleDraft sampleSettings 4000 3000).
  - reflexivity.
  - intros size family text. reflexivity.
Defined.

(** A box larger than the canvas is anchored at 0, not at a negative
    position. *)
Example layout_clamps_small_canvas :
  let m := mainThreadOverlay sampleMeasure sampleDraft sampleSettings 10 10 in
  boxWidth m = Num.ofZ 348 /\ boxHeight m = Num.ofZ 77
  /\ x m = Num.zero /\ y m = Num.zero.
Proof. repeat split; vm_compute; reflexivity. Qed.

(** On the sample photo: font size 32, line height 45, paddings 22 and 16,
    margin 40, and the box anchored at the bottom right corner. *)
Example layout_sample :
  let m := mainThreadOverlay sampleMeasure sampleDraft sampleSettings 4000 3000 in
  lines m = ["2023-05-01 10:20:30"]
  /\ appliedFontSize m = Num.ofZ 32 /\ lineHeight m = Num.ofZ 45
  /\ padX m = Num.ofZ 22 /\ padY m = Num.ofZ 16 /\ margin m = Num.ofZ 40
  /\ boxWidth m = Num.ofZ 348 /\ boxHeight m = Num.ofZ 77
  /\ x m = Num.ofZ 3612 /\ y m = Num.ofZ 2883.
Proof. repeat split; vm_compute; reflexivity. Qed.

(** ** The two rasterization routines *)

Section RoutinesCompared.

Variable measureText : number -> string -> string -> number.

Lemma mainThreadOverlay_overlayOf (item : PhotoDraft.t) (settings : WorkerSettings)
  (width height : nat) :
  mainThreadOverlay measureText item settings width height
  = overlayOf measureText
      (List.filter JsString.truthy [PhotoDraft.shotAt item]
       ++ (if locationShown settings (PhotoDraft.locationText item)
           then [PhotoDraft.locationText item] else []))
      settings width height.
Proof.
  unfold mainThreadOverlay, locationShown, isUnknownLocationText.
  set (loc := PhotoDraft.locationText item).
  set (l0 := List.filter JsString.truthy [PhotoDraft.shotAt item]).
  destruct (showLocation settings); simpl andb.
  - destruct (JsString.truthy (JsString.trim loc)); simpl negb; simpl andb.
    + destruct (JsString.strictEq (JsString.trim loc) (unknownLocationText settings));
        simpl negb; simpl andb.
      * rewrite app_nil_r. reflexivity.
      * destruct (Regex.test Regex.numericPair (JsString.trim loc)); simpl negb.
        -- rewrite app_nil_r. reflexivity.
        -- reflexivity.
    + rewrite app_nil_r. reflexivity.
  - rewrite app_nil_r. reflexivity.
Qed.

Lemma workerOverlay_overlayOf (item : WorkerInputPhoto.t) (settings : WorkerSettings)
  (width height : nat) :
  workerOverlay measureText item settings width height
  = overlayOf measureText
      (List.filter JsString.truthy
         [ WorkerInputPhoto.shotAt item;
           if showLocation settings
              && negb (JsString.strictEq (WorkerInputPhoto.locationText item)
                         (unknownLocationText settings)
                       || Regex.test Regex.numericPair
                            (JsString.trim (WorkerInputPhoto.locationText item)))
           then WorkerInputPhoto.locationText item else "" ])
      settings width height.
Proof. reflexivity. Qed.

(** The two routines choose the same lines, and so draw the same overlay,
    for a location text that has no white space around it. *)
Lemma overlays_agree_on_trimmed_location (item : PhotoDraft.t)
  (settings : WorkerSettings) (width height : nat) :
  JsString.trim (PhotoDraft.locationText item) = PhotoDraft.locationText item ->
  workerOverlay measureText (toWorkerPhoto item) settings width height
  = mainThreadOverlay measureText item settings width height.
Proof.
  intros Htrim.
  rewrite workerOverlay_overlayOf, mainThreadOverlay_overlayOf.
  f_equal. unfold locationShown.
  cbn [toWorkerPhoto WorkerInputPhoto.shotAt WorkerInputPhoto.locationText].
  rewrite Htrim. clear Htrim.
  generalize (PhotoDraft.locationText item) as loc. intros loc.
  destruct (showLocation settings),
    (JsString.strictEq loc (unknownLocationText settings)),
    (Regex.test Regex.numericPair loc); simpl;
    destruct (JsString.truthy (PhotoDraft.shotAt item));
    destruct loc; simpl; reflexivity.
Qed.

End RoutinesCompared.

(** C1. On a draft whose location text is one blank, with the location line
    switched on, the worker routine draws two lines (the blank one included)
    in a box 122 pixels high at y = 2838, while the main-thread routine draws
    the date line alone in a box 77 pixels high at y = 2883: the two routines
    are not equivalent on this input, although they are given the same
    dimensions, fields, settings and text measure.  The font size, line
    height, paddings, margin, box width and x agree. *)
Theorem worker_and_main_thread_differ_on_blank_location :
  let w := workerOverlay sampleMeasure (toWorkerPhoto blankLocationDraft) sampleSettings 4000 3000 in
  let m := mainThreadOverlay sampleMeasure blankLocationDraft sampleSettings 4000 3000 in
  lines w = ["2023-05-01 10:20:30"; " "]
  /\ lines m = ["2023-05-01 10:20:30"]
  /\ boxHeight w = Num.ofZ 122 /\ boxHeight m = Num.ofZ 77
  /\ y w = Num.ofZ 2838 /\ y m = Num.ofZ 2883
  /\ appliedFontSize w = appliedFontSize m /\ lineHeight w = lineHeight m
  /\ padX w = padX m /\ padY w = padY m /\ margin w = margin m
  /\ boxWidth w = boxWidth m /\ x w = x m.
Proof. repeat split; vm_compute; reflexivity. Qed.

(** C4 (as stated, with the tests made on the stored text) fails on the
    main-thread routine: a location text of one blank is non-empty, is not
    the sentinel and is not a numeric pair, yet it is not drawn. *)
Lemma location_line_untrimmed_counterexample :
  ~ (In (PhotoDraft.locationText blankLocationDraft)
        (lines (mainThreadOverlay sampleMeasure blankLocationDraft sampleSettings 4000 3000))
     <-> locationShownUntrimmed sampleSettings (PhotoDraft.locationText blankLocationDraft) = true).
Proof.
  intros [_ H]. specialize (H eq_refl). vm_compute in H.
  destruct H as [H|[]]. discriminate H.
Qed.

(** C4, amended.  The main-thread routine draws the date line when it is
    non-empty, followed by the location text exactly when [showLocation] is
    set and the trimmed text is non-empty, differs from the unknown-location
    sentinel and is not a bare numeric pair.  With [showLocation] off,
    neither routine draws a location line, and the box height is that of
    the date line alone: one line, or none when the date text is empty. *)
Theorem location_line_shown
  (measureText : number -> string -> string -> number)
  (item : PhotoDraft.t) (settings : WorkerSettings) (width height : nat) :
  let dateLines := List.filter JsString.truthy [PhotoDraft.shotAt item] in
  let m := mainThreadOverlay measureText item settings width height in
  let m0 := mainThreadOverlay measureText item (hideLocation settings) width height in
  let w0 := workerOverlay measureText (toWorkerPhoto item) (hideLocation settings) width height in
  lines m = dateLines ++ (if locationShown settings (PhotoDraft.locationText item)
                          then [PhotoDraft.locationText item] else [])
  /\ lines m0 = dateLines /\ lines w0 = dateLines
  /\ length dateLines = (if JsString.truthy (PhotoDraft.shotAt item) then 1 else 0)%nat
  /\ boxHeight m0
     = Num.round (Num.add (Num.mul (Num.ofNat (length dateLines)) (lineHeight m0))
                          (Num.mul (padY m0) (Num.ofZ 2)))
  /\ boxHeight w0 = boxHeight m0.
Proof.
  intros dateLines m m0 w0.
  assert (Hm : lines m = dateLines ++ (if locationShown settings (PhotoDraft.locationText item)
                                       then [PhotoDraft.locationText item] else [])).
  { unfold m. rewrite mainThreadOverlay_overlayOf. reflexivity. }
  assert (Hm0 : m0 = overlayOf measureText dateLines (hideLocation settings) width height).
  { unfold m0. rewrite mainThreadOverlay_overlayOf.
    unfold locationShown. cbn [hideLocation showLocation andb]. rewrite app_nil_r. reflexivity. }
  assert (Hw0 : w0 = overlayOf measureText dateLines (hideLocation settings) width height).
  { unfold w0. rewrite workerOverlay_overlayOf.
    cbn [hideLocation showLocation andb toWorkerPhoto WorkerInputPhoto.shotAt].
    unfold dateLines. simpl. destruct (JsString.truthy (PhotoDraft.shotAt item)); reflexivity. }
  split; [exact Hm|].
  rewrite Hw0, Hm0. repeat split.
  unfold dateLines. simpl. destruct (JsString.truthy (PhotoDraft.shotAt item)); reflexivity.
Qed.

(** ** Timestamps *)

Lemma isDigit_not_space (c : ascii) :
  JsString.isDigit c = true -> JsString.isWhiteSpace c = false.
Proof. destruct c as [[] [] [] [] [] [] [] []]; vm_compute; congruence. Qed.

Lemma trimEnd_cons (c : ascii) (s : string) :
  JsString.isWhiteSpace c = false ->
  JsString.trimEnd (String c s) = String c (JsString.trimEnd s).
Proof.
  intros H. cbn [JsString.trimEnd]. destruct (JsString.trimEnd s); [rewrite H|]; reflexivity.
Qed.

Lemma rawTimestamp_firstPresent (tags : Tags) (fallback : string) :
  formatExifDate (rawTimestamp tags) fallback
  = formatExifDate (firstPresent (timestampDescriptions tags)) fallback.
Proof.
  unfold rawTimestamp, timestampDescriptions, nullish, firstPresent.
  destruct (optChain (DateTimeOriginal tags) description);
    destruct (optChain (DateTimeDigitized tags) description);
    destruct (optChain (DateTime tags) description); reflexivity.
Qed.

(** C2 (as stated) fails: with a blank original-capture description and a
    digitized description holding a date, the displayed timestamp is the
    sentinel, not the normalized digitized date. *)
Lemma blank_timestamp_does_not_fall_through :
  shotAtOf blankOriginalTags (unknownDate sampleMessages) = "Unknown date"
  /\ timestampSkippingBlanks blankOriginalTags (unknownDate sampleMessages)
     = "2023-05-01 10:20:30"
  /\ shotAtOf blankOriginalTags (unknownDate sampleMessages)
     <> timestampSkippingBlanks blankOriginalTags (unknownDate sampleMessages).
Proof. repeat split; vm_compute; congruence. Qed.

(** C2, amended.  The displayed timestamp is decided by the first of the
    descriptions original-capture, digitized, modify that is neither
    [undefined] nor [null]: the sentinel when there is none, when it is not
    a string or when it is blank; otherwise its trimmed text with the two
    colons of a leading [dddd:dd:dd] turned into dashes.  On a value
    [YYYY:MM:DD] followed by any text, the result is [YYYY-MM-DD] followed
    by that text, which is changed by the trimming of trailing white space
    only. *)
Theorem shotAt_first_present_description
  (tags : Tags) (fallback : string)
  (y1 y2 y3 y4 m1 m2 d1 d2 : ascii) (rest : string)
  (Hdigits : forallb JsString.isDigit [y1; y2; y3; y4; m1; m2; d1; d2] = true) :
  shotAtOf tags fallback
  = match firstPresent (timestampDescriptions tags) with
    | VStr s =>
        if (String.length (JsString.trim s) =? 0)%nat then fallback
        else replaceDateSeparators (JsString.trim s)
    | _ => fallback
    end
  /\ formatExifDate
       (VStr (String y1 (String y2 (String y3 (String y4 (String ":"
               (String m1 (String m2 (String ":" (String d1 (String d2 rest)))))))))))
       fallback
     = String y1 (String y2 (String y3 (String y4 (String "-"
         (String m1 (String m2 (String "-" (String d1 (String d2
            (JsString.trimEnd rest)))))))))).
Proof.
  split.
  - unfold shotAtOf. rewrite rawTimestamp_firstPresent. reflexivity.
  - pose proof Hdigits as Hd. cbn [forallb] in Hd.
    repeat (apply andb_prop in Hd; destruct Hd as [? Hd]).
    assert (Hcolon : JsString.isWhiteSpace ":" = false) by reflexivity.
    unfold formatExifDate, JsString.trim. cbn [JsString.trimStart].
    rewrite (isDigit_not_space y1) by assumption.
    rewrite !trimEnd_cons by (assumption || (apply isDigit_not_space; assumption)).
    cbn [String.length Nat.eqb replaceDateSeparators].
    rewrite Hdigits. reflexivity.
Qed.

(** The sample tags and the date [2023:05:01 10:20:30]. *)
Lemma shotAt_first_present_description_witness :
  shotAtOf sampleTags "Unknown date"
  = match firstPresent (timestampDescriptions sampleTags) with
    | VStr s =>
        if (String.length (JsString.trim s) =? 0)%nat then "Unknown date"
        else replaceDateSeparators (JsString.trim s)
    | _ => "Unknown date"
    end
  /\ formatExifDate (VStr "2023:05:01 10:20:30") "Unknown date" = "2023-05-01 10:20:30".
Proof.
  apply (shotAt_first_present_description sampleTags "Unknown date"
           "2" "0" "2" "3" "0" "5" "0" "1" " 10:20:30").
  reflexivity.
Defined.

(** With none of the three tags the sentinel is displayed. *)
Example shotAt_without_tags :
  shotAtOf {| DateTimeOriginal := None; DateTimeDigitized := None; DateTime := None;
              GPSLatitude := None; GPSLongitude := None;
              GPSLatitudeRef := None; GPSLongitudeRef := None |} "Unknown date"
  = "Unknown date".
Proof. reflexivity. Qed.

(** ** Reverse geocoding *)

Lemma updatePhoto_id (photoId : string) (f : PhotoDraft.t -> PhotoDraft.t)
  (l : list PhotoDraft.t) :
  (forall p, PhotoDraft.id (f p) = PhotoDraft.id p) ->
  map PhotoDraft.id (updatePhoto photoId f l) = map PhotoDraft.id l.
Proof.
  intros Hf. unfold updatePhoto. induction l as [|p l IH]; simpl; [reflexivity|].
  rewrite IH. destruct (JsString.strictEq (PhotoDraft.id p) photoId); [rewrite Hf|]; reflexivity.
Qed.

Lemma updatePhoto_withGeocoding_locationText (photoId : string) (flag : bool)
  (l : list PhotoDraft.t) :
  map PhotoDraft.locationText (updatePhoto photoId (PhotoDraft.withGeocoding flag) l)
  = map PhotoDraft.locationText l.
Proof.
  unfold updatePhoto. induction l as [|p l IH]; simpl; [reflexivity|].
  rewrite IH. destruct (JsString.strictEq (PhotoDraft.id p) photoId); reflexivity.
Qed.

Lemma updatePhoto_withLocation (photoId text : string) (flag : bool) (l : list PhotoDraft.t) :
  Forall (fun p => PhotoDraft.id p = photoId -> PhotoDraft.locationText p = text)
    (updatePhoto photoId (PhotoDraft.withLocation text flag) l).
Proof.
  unfold updatePhoto. induction l as [|p l IH]; simpl; constructor; try exact IH.
  unfold JsString.strictEq. case_bool_decide as Hid; [reflexivity | intros; contradiction].
Qed.

(** C6 (as stated) fails for [reverseGeocode]: when the request itself fails
    the function throws; it does not return [null]. *)
Lemma reverseGeocode_throws_on_network_error :
  ~ (exists r, reverseGeocode (lat sampleCoord) (lon sampleCoord) FetchRejects = Return r).
Proof. intros [r H]. discriminate H. Qed.

Lemma field_unbound (key : string) (fields : list (string * json)) :
  Forall (fun kv => fst kv <> key) fields -> field key fields = None.
Proof.
  induction 1 as [|[k v] rest Hk _ IH]; [reflexivity|].
  cbn [field]. rewrite IH. unfold JsString.strictEq.
  rewrite bool_decide_eq_false_2 by exact Hk. reflexivity.
Qed.

(** [field] gives the last binding of the key. *)
Lemma field_last (key : string) (v : json) (fields : list (string * json)) :
  field key fields = Some v
  <-> exists pre post,
        fields = pre ++ (key, v) :: post /\ Forall (fun kv => fst kv <> key) post.
Proof.
  split.
  - induction fields as [|[k w] rest IH]; [discriminate|].
    cbn [field]. destruct (field key rest) as [later|] eqn:E.
    + intros [= ->]. destruct (IH eq_refl) as (pre & post & -> & Hpost).
      exists ((k, w) :: pre), post. split; [reflexivity | exact Hpost].
    + unfold JsString.strictEq. case_bool_decide as Hk; [|discriminate].
      intros [= ->]. subst k. exists [], rest. split; [reflexivity|].
      clear IH. induction rest as [|[k' w'] rest IH]; constructor.
      * cbn [field] in E. destruct (field key rest); [discriminate|].
        unfold JsString.strictEq in E. case_bool_decide; [discriminate | assumption].
      * apply IH. cbn [field] in E. destruct (field key rest); [discriminate | reflexivity].
  - intros (pre & post & -> & Hpost).
    induction pre as [|[k w] pre IH].
    + cbn [Datatypes.app field]. rewrite (field_unbound key post Hpost).
      unfold JsString.strictEq. rewrite bool_decide_eq_true_2 by reflexivity. reflexivity.
    + cbn [Datatypes.app field]. rewrite IH. reflexivity.
Qed.

(** The answer of [reverseGeocode] to a successful response whose body is
    parsed JSON. *)
Lemma reverseGeocode_display_name (x y : number) (body : json) (s : string) :
  hasDisplayName body s
  <-> reverseGeocode x y (Response true (Some body)) = Return (Some s).
Proof.
  unfold hasDisplayName. split.
  - intros (pre & post & -> & Hpost). cbn [reverseGeocode negb].
    assert (H : field "display_name" (pre ++ ("display_name", JString s) :: post)
                = Some (JString s)) by (apply field_last; eauto).
    rewrite H. reflexivity.
  - destruct body as [| | | | |fields]; cbn [reverseGeocode negb]; try discriminate.
    destruct (field "display_name" fields) as [[| | |t| |]|] eqn:E; try discriminate.
    intros [= ->]. apply field_last in E as (pre & post & -> & Hpost). eauto.
Qed.

Lemma placeName_answered (gps : GpsCoord) (net : fetchOutcome) (text : string) :
  answered net text <-> placeName gps net = Some text.
Proof.
  unfold answered, placeName. split.
  - intros (body & -> & Hname & Hne).
    apply (reverseGeocode_display_name (lat gps) (lon gps)) in Hname. rewrite Hname.
    destruct text; [contradiction | reflexivity].
  - destruct (reverseGeocode (lat gps) (lon gps) net) as [[t|]|] eqn:E; try discriminate.
    destruct (JsString.truthy t) eqn:Ht; [|discriminate]. intros [= ->].
    destruct net as [|[] [body|]]; try discriminate E.
    exists body. split; [reflexivity|]. split.
    + apply (reverseGeocode_display_name (lat gps) (lon gps)), E.
    + intros ->. discriminate Ht.
Qed.

(** C6, amended.  [reverseGeocode] returns [null] for every response whose
    status is not a success and for every successful response whose body is
    JSON other than [null] without a string [display_name]; it returns the
    place name when the body has one; it throws exactly when the request is
    rejected or the body of a successful response is not JSON or is [null].
    [triggerReverseGeocode] catches that exception: settling a request
    always returns, and unless a non-empty place name came back the
    location text of every entry and the cache are as before. *)
Theorem geocoding_failure_is_contained
  (photoId : string) (gps : GpsCoord) (net : fetchOutcome) (a : App) :
  (forall body, reverseGeocode (lat gps) (lon gps) (Response false body) = Return None)
  /\ (forall body s,
        hasDisplayName body s ->
        reverseGeocode (lat gps) (lon gps) (Response true (Some body)) = Return (Some s))
  /\ (forall body,
        body <> JNull -> (forall s, ~ hasDisplayName body s) ->
        reverseGeocode (lat gps) (lon gps) (Response true (Some body)) = Return None)
  /\ (reverseGeocode (lat gps) (lon gps) net = Throw
      <-> net = FetchRejects \/ net = Response true None \/ net = Response true (Some JNull))
  /\ exists a',
       triggerSettle photoId gps net a = Return a'
       /\ ((forall text, ~ answered net text) ->
           locationTexts a' = locationTexts a /\ geocodeCache a' = geocodeCache a)
       /\ (forall text,
             answered net text ->
             geocodeCache a' = <[geocodeKey gps := text]> (geocodeCache a)
             /\ Forall (fun p => PhotoDraft.id p = photoId -> PhotoDraft.locationText p = text)
                  (photos a')).
Proof.
  split; [reflexivity|]. split; [|split; [|split]].
  - intros body s H. apply reverseGeocode_display_name, H.
  - intros body Hnull Hnone.
    destruct (reverseGeocode (lat gps) (lon gps) (Response true (Some body)))
      as [[s|]|] eqn:E; [|reflexivity|].
    + apply reverseGeocode_display_name in E. destruct (Hnone s E).
    + destruct body as [| | | | |fields]; cbn in E; try discriminate; try contradiction.
      destruct (field "display_name" fields) as [[]|]; discriminate.
  - split.
    + destruct net as [|[] [[]|]]; simpl; try discriminate; auto.
      destruct (field "display_name" fields) as [[]|]; discriminate.
    + intros [->|[->| ->]]; reflexivity.
  - assert (Hplace : exists a',
               triggerSettle photoId gps net a = Return a'
               /\ match placeName gps net with
                  | None => locationTexts a' = locationTexts a
                            /\ geocodeCache a' = geocodeCache a
                  | Some text =>
                      geocodeCache a' = <[geocodeKey gps := text]> (geocodeCache a)
                      /\ Forall (fun p => PhotoDraft.id p = photoId ->
                                          PhotoDraft.locationText p = text) (photos a')
                  end).
    { unfold triggerSettle, placeName, locationTexts.
      destruct (reverseGeocode (lat gps) (lon gps) net) as [[text|]|].
      + destruct (JsString.truthy text); eexists; (split; [reflexivity|]);
          cbn [photos geocodeCache setPhotos cacheSet].
        * split; [reflexivity | apply updatePhoto_withLocation].
        * split; [apply updatePhoto_withGeocoding_locationText | reflexivity].
      + eexists; (split; [reflexivity|]); cbn [photos geocodeCache setPhotos].
        split; [apply updatePhoto_withGeocoding_locationText | reflexivity].
      + eexists; (split; [reflexivity|]); cbn [photos geocodeCache setPhotos].
        split; [apply updatePhoto_withGeocoding_locationText | reflexivity]. }
    destruct Hplace as (a' & Hsettle & Hplace). exists a'. split; [exact Hsettle|]. split.
    + intros Hnone. destruct (placeName gps net) as [text|] eqn:E; [|exact Hplace].
      apply placeName_answered in E. destruct (Hnone text E).
    + intros text Hanswered. apply (placeName_answered gps) in Hanswered.
      rewrite Hanswered in Hplace. exact Hplace.
Qed.

(** A successful response whose body has no [display_name]: the sample
    entry keeps its numeric text and nothing is cached. *)
Lemma geocoding_failure_is_contained_witness :
  reverseGeocode (lat sampleCoord) (lon sampleCoord)
    (Response true (Some (JObject [("error", JString "Unable to geocode")]))) = Return None
  /\ exists a',
       triggerSettle (PhotoDraft.id sampleDraft) sampleCoord
         (Response true (Some (JObject [("error", JString "Unable to geocode")]))) sampleApp
       = Return a'
       /\ locationTexts a' = locationTexts sampleApp
       /\ geocodeCache a' = geocodeCache sampleApp.
Proof.
  assert (Hnone : forall s,
             ~ hasDisplayName (JObject [("error", JString "Unable to geocode")]) s).
  { intros s (pre & post & E & _). injection E as E.
    destruct pre as [|kv [|kv' pre]]; discriminate E. }
  destruct (geocoding_failure_is_contained (PhotoDraft.id sampleDraft) sampleCoord
              (Response true (Some (JObject [("error", JString "Unable to geocode")])))
              sampleApp) as (_ & _ & Hnull & _ & a' & Hsettle & Hkeep & _).
  split.
  - apply Hnull; [discriminate | exact Hnone].
  - exists a'. split; [exact Hsettle|]. apply Hkeep.
    intros text (body & E & Hname & _). injection E as <-. exact (Hnone text Hname).
Defined.

(** After a failed request the sample entry keeps its numeric location text
    and is no longer marked as resolving. *)
Example failed_request_keeps_fallback :
  let a := stateAfter (triggerSettle (PhotoDraft.id sampleDraft) sampleCoord FetchRejects sampleApp)
             emptyApp in
  locationTexts sampleApp = ["37.500000, 127.000000"]
  /\ map PhotoDraft.isGeocoding (photos sampleApp) = [Some true]
  /\ locationTexts a = ["37.500000, 127.000000"]
  /\ map PhotoDraft.isGeocoding (photos a) = [Some false].
Proof. repeat split; vm_compute; reflexivity. Qed.

(** The cache key is the pair of six-decimal renderings, so coordinates that
    agree after rounding share a key. *)
Example geocodeKey_rounds :
  geocodeKey sampleCoord = "37.500000,127.000000"
  /\ geocodeKey nearbyCoord = geocodeKey sampleCoord
  /\ nearbyCoord <> sampleCoord.
Proof. repeat split; try (vm_compute; reflexivity). discriminate. Qed.

(** C8 (as stated) fails: a resolution whose request failed caches nothing,
    so resolving the same coordinate again sends a second request. *)
Lemma failed_resolution_requests_again :
  ~ (length (requests (resolveTwice "IMG_0001.jpg-0-1682936430000" sampleCoord
                         FetchRejects seoulResponse emptyApp)) <= 1)%nat.
Proof. vm_compute. lia. Qed.

(** Two entries with the same coordinate dropped together both miss the
    cache, since neither request has settled: two requests are sent. *)
Example same_coordinate_dropped_together :
  requests (onDrop sampleMessages [sampleFile; sampleFile] emptyApp)
  = [(lat sampleCoord, lon sampleCoord); (lat sampleCoord, lon sampleCoord)].
Proof. vm_compute. reflexivity. Qed.

(** C8, amended.  The cache key is the string of the two six-decimal
    renderings with a comma between them.  A resolution of a coordinate
    whose key is not cached sends one request.  When it brings back a
    non-empty place name, the name is stored under the key, and a later
    resolution of any coordinate with the same six-decimal renderings sends
    no request, whatever the network would answer, gives its entry the
    cached name and leaves the cache as it is.  When it fails or brings
    nothing back, the cache is left as it was and the later resolution
    sends another request. *)
Theorem cached_place_name_short_circuits
  (photoId1 photoId2 : string) (gps1 gps2 : GpsCoord) (net1 net2 : fetchOutcome) (a : App)
  (Hmiss : geocodeCache a !! geocodeKey gps1 = None)
  (Hlat : Num.toFixed6 (lat gps2) = Num.toFixed6 (lat gps1))
  (Hlon : Num.toFixed6 (lon gps2) = Num.toFixed6 (lon gps1)) :
  geocodeKey gps1 = Num.toFixed6 (lat gps1) +:+ "," +:+ Num.toFixed6 (lon gps1)
  /\ geocodeKey gps2 = geocodeKey gps1
  /\ exists a1,
       triggerReverseGeocode photoId1 gps1 net1 a = Return a1
       /\ requests a1 = requests a ++ [(lat gps1, lon gps1)]
       /\ (forall text,
             answered net1 text ->
             geocodeCache a1 !! geocodeKey gps1 = Some text
             /\ exists a2,
                  triggerReverseGeocode photoId2 gps2 net2 a1 = Return a2
                  /\ requests a2 = requests a1
                  /\ geocodeCache a2 = geocodeCache a1
                  /\ Forall (fun p => PhotoDraft.id p = photoId2 ->
                                      PhotoDraft.locationText p = text) (photos a2))
       /\ ((forall text, ~ answered net1 text) ->
           geocodeCache a1 = geocodeCache a
           /\ exists a2,
                triggerReverseGeocode photoId2 gps2 net2 a1 = Return a2
                /\ requests a2 = requests a1 ++ [(lat gps2, lon gps2)]).
Proof.
  assert (Hkey : geocodeKey gps2 = geocodeKey gps1)
    by (unfold geocodeKey; rewrite Hlat, Hlon; reflexivity).
  split; [reflexivity|]. split; [exact Hkey|].
  unfold triggerReverseGeocode at 1. unfold triggerBegin. rewrite Hmiss.
  unfold triggerSettle.
  pose proof (placeName_answered gps1 net1) as Hplace. unfold placeName in Hplace.
  destruct (reverseGeocode (lat gps1) (lon gps1) net1) as [[t|]|];
    [destruct (JsString.truthy t) eqn:Ht|..];
    eexists; (split; [reflexivity|]);
    cbn [requests geocodeCache setPhotos cacheSet sendRequest];
    (split; [reflexivity|]); split.
  - intros text Hanswered. apply Hplace in Hanswered. injection Hanswered as ->.
    split; [apply lookup_insert_eq|].
    unfold triggerReverseGeocode, triggerBegin.
    cbn [requests geocodeCache setPhotos cacheSet sendRequest].
    rewrite Hkey, lookup_insert_eq, Ht.
    eexists. split; [reflexivity|]. cbn [requests geocodeCache photos setPhotos].
    repeat split. apply updatePhoto_withLocation.
  - intros Hnone. destruct (Hnone t). apply Hplace. reflexivity.
  - intros text Hanswered. apply Hplace in Hanswered. discriminate.
  - intros _. split; [reflexivity|].
    unfold triggerReverseGeocode, triggerBegin.
    cbn [requests geocodeCache setPhotos cacheSet sendRequest]. rewrite Hkey, Hmiss.
    unfold triggerSettle.
    destruct (reverseGeocode (lat gps2) (lon gps2) net2) as [[t2|]|];
      [destruct (JsString.truthy t2)|..]; eexists; split; reflexivity.
  - intros text Hanswered. apply Hplace in Hanswered. discriminate.
  - intros _. split; [reflexivity|].
    unfold triggerReverseGeocode, triggerBegin.
    cbn [requests geocodeCache setPhotos cacheSet sendRequest]. rewrite Hkey, Hmiss.
    unfold triggerSettle.
    destruct (reverseGeocode (lat gps2) (lon gps2) net2) as [[t2|]|];
      [destruct (JsString.truthy t2)|..]; eexists; split; reflexivity.
  - intros text Hanswered. apply Hplace in Hanswered. discriminate.
  - intros _. split; [reflexivity|].
    unfold triggerReverseGeocode, triggerBegin.
    cbn [requests geocodeCache setPhotos cacheSet sendRequest]. rewrite Hkey, Hmiss.
    unfold triggerSettle.
    destruct (reverseGeocode (lat gps2) (lon gps2) net2) as [[t2|]|];
      [destruct (JsString.truthy t2)|..]; eexists; split; reflexivity.
Qed.

(** The sample coordinate resolved to a place name, then a coordinate that
    rounds to the same six decimals resolved for another entry while the
    network is down: no second request, and the entry gets the name. *)
Lemma cached_place_name_short_circuits_witness :
  geocodeKey nearbyCoord = geocodeKey sampleCoord
  /\ exists a1 a2,
       triggerReverseGeocode "a" sampleCoord seoulResponse emptyApp = Return a1
       /\ requests a1 = requests emptyApp ++ [(lat sampleCoord, lon sampleCoord)]
       /\ geocodeCache a1 !! geocodeKey sampleCoord = Some "Seoul"
       /\ triggerReverseGeocode "b" nearbyCoord FetchRejects a1 = Return a2
       /\ requests a2 = requests a1
       /\ geocodeCache a2 = geocodeCache a1
       /\ Forall (fun p => PhotoDraft.id p = "b" -> PhotoDraft.locationText p = "Seoul")
            (photos a2).
Proof.
  destruct (cached_place_name_short_circuits "a" "b" sampleCoord nearbyCoord
              seoulResponse FetchRejects emptyApp)
    as (_ & Hkey & a1 & Hfirst & Hreq & Hhit & _).
  - reflexivity.
  - vm_compute. reflexivity.
  - reflexivity.
  - split; [exact Hkey|].
    destruct (Hhit "Seoul") as (Hcached & a2 & Hsecond & Hreq2 & Hcache2 & Htext).
    + exists (JObject [("lat", JString "37.5"); ("display_name", JString "Seoul")]).
      split; [reflexivity|]. split; [|discriminate].
      exists [("lat", JString "37.5")], []. split; [reflexivity | constructor].
    + exists a1, a2. repeat split; assumption.
Defined.

(** ** Identifiers of the drafts *)

Lemma append_cons (x : ascii) (a b : string) : String x a +:+ b = String x (a +:+ b).
Proof. reflexivity. Qed.

Lemma append_nil (b : string) : "" +:+ b = b.
Proof. reflexivity. Qed.

Lemma append_assoc (a b c : string) : (a +:+ b) +:+ c = a +:+ (b +:+ c).
Proof.
  induction a as [|x a IH]; [reflexivity|].
  rewrite !append_cons, IH. reflexivity.
Qed.

Lemma dashFree_no_dash (a d : string) : ~ dashFree (a +:+ String "-" d).
Proof.
  induction a as [|x a IH]; rewrite ?append_cons, ?append_nil; simpl;
    intros [H1 H2]; [congruence | auto].
Qed.

(** A string is cut in one way only at its last dash. *)
Lemma last_dash_unique (a b d1 d2 : string) :
  dashFree d1 -> dashFree d2 ->
  a +:+ String "-" d1 = b +:+ String "-" d2 -> a = b /\ d1 = d2.
Proof.
  intros H1 H2. revert b. induction a as [|x a IH]; intros [|y b] H;
    rewrite ?append_cons, ?append_nil in H.
  - injection H as ->. split; reflexivity.
  - injection H as <- ->. exfalso. exact (dashFree_no_dash _ _ H1).
  - injection H as -> <-. exfalso. exact (dashFree_no_dash _ _ H2).
  - injection H as -> H. destruct (IH b H) as [-> ->]. split; reflexivity.
Qed.

Lemma string_of_uint_dashFree (d : Decimal.uint) : dashFree (NilEmpty.string_of_uint d).
Proof. induction d; simpl; (exact I || (split; [discriminate | assumption])). Qed.

Lemma string_of_uint_inj (d d' : Decimal.uint) :
  NilEmpty.string_of_uint d = NilEmpty.string_of_uint d' -> d = d'.
Proof.
  intros H. apply (f_equal NilEmpty.uint_of_string) in H.
  rewrite !NilEmpty.usu in H. congruence.
Qed.

Lemma ofNat_dashFree (n : nat) : dashFree (JsString.ofNat n).
Proof. apply string_of_uint_dashFree. Qed.

Lemma ofNat_inj (n n' : nat) : JsString.ofNat n = JsString.ofNat n' -> n = n'.
Proof. intros H. apply DecimalNat.Unsigned.to_uint_inj, string_of_uint_inj, H. Qed.

Lemma ofNat_nonempty (n : nat) : JsString.ofNat n <> "".
Proof.
  unfold JsString.ofNat. intros H.
  assert (Hn : Nat.to_uint n = Decimal.Nil).
  { destruct (Nat.to_uint n); simpl in H; (reflexivity || discriminate). }
  pose proof (DecimalNat.Unsigned.to_of (Nat.to_uint n)) as Hu.
  rewrite DecimalNat.Unsigned.of_to, Hn in Hu.
  exact (DecimalFacts.unorm_nonnil _ (eq_sym Hu)).
Qed.

(** The rendering of an integer is a dash-free string of digits, preceded
    by a dash when the integer is negative. *)
Lemma ofZ_shape (z : Z) :
  exists d, dashFree d /\ (JsString.ofZ z = d \/ JsString.ofZ z = String "-" d).
Proof.
  unfold JsString.ofZ. destruct z as [|p|p].
  - exists "0". split; [split; [discriminate | exact I] | left; reflexivity].
  - exists (NilEmpty.string_of_uint (Pos.to_uint p)).
    split; [apply string_of_uint_dashFree | left; reflexivity].
  - exists (NilEmpty.string_of_uint (Pos.to_uint p)).
    split; [apply string_of_uint_dashFree | right; reflexivity].
Qed.

(** The index can be read off the identifier
    [name + "-" + index + "-" + lastModified]. *)
Lemma draft_id_index (name1 name2 : string) (i1 i2 : nat) (z1 z2 : Z) :
  name1 +:+ "-" +:+ JsString.ofNat i1 +:+ "-" +:+ JsString.ofZ z1
  = name2 +:+ "-" +:+ JsString.ofNat i2 +:+ "-" +:+ JsString.ofZ z2 ->
  i1 = i2.
Proof.
  intros H. apply ofNat_inj.
  destruct (ofZ_shape z1) as [d1 [Hd1 Hz1]], (ofZ_shape z2) as [d2 [Hd2 Hz2]].
  pose proof (ofNat_dashFree i1) as Hi1. pose proof (ofNat_dashFree i2) as Hi2.
  pose proof (ofNat_nonempty i1) as Hn1. pose proof (ofNat_nonempty i2) as Hn2.
  assert (Hsplit : forall n I L, n +:+ "-" +:+ I +:+ "-" +:+ L
                                 = (n +:+ String "-" I) +:+ String "-" L).
  { intros n I L. rewrite append_assoc, append_cons. reflexivity. }
  assert (Hsplit' : forall n I L, n +:+ "-" +:+ I +:+ "-" +:+ String "-" L
                                  = ((n +:+ String "-" I) +:+ String "-" "")
                                    +:+ String "-" L).
  { intros n I L. rewrite !append_assoc, !append_cons, append_nil. reflexivity. }
  destruct Hz1 as [Hz1|Hz1], Hz2 as [Hz2|Hz2]; rewrite Hz1, Hz2 in H.
  - rewrite (Hsplit name1 _ d1), (Hsplit name2 _ d2) in H.
    apply last_dash_unique in H as [H _]; [|assumption..].
    apply last_dash_unique in H as [_ H]; assumption.
  - rewrite (Hsplit name1 _ d1), (Hsplit' name2 _ d2) in H.
    apply last_dash_unique in H as [H _]; [|assumption..].
    apply last_dash_unique in H as [_ H]; [|assumption|exact I].
    contradiction.
  - rewrite (Hsplit' name1 _ d1), (Hsplit name2 _ d2) in H.
    apply last_dash_unique in H as [H _]; [|assumption..].
    apply last_dash_unique in H as [_ H]; [|exact I|assumption].
    symmetry in H. contradiction.
  - rewrite (Hsplit' name1 _ d1), (Hsplit' name2 _ d2) in H.
    apply last_dash_unique in H as [H _]; [|assumption..].
    apply last_dash_unique in H as [H _]; [|exact I..].
    apply last_dash_unique in H as [_ H]; assumption.
Qed.

Lemma parseFile_id (msg : Messages) (index : nat) (f : File) :
  PhotoDraft.id (parseFile msg index f)
  = fileName f +:+ "-" +:+ JsString.ofNat index +:+ "-" +:+ JsString.ofZ (lastModified f).
Proof. unfold parseFile. destruct (exifTags f); reflexivity. Qed.

(** The identifiers given from index [k] on carry an index of at least [k]. *)
Lemma parseFiles_from_index (msg : Messages) (files : list File) (k : nat) (x : string) :
  In x (map PhotoDraft.id (imap (fun i => parseFile msg (k + i)) files)) ->
  exists (f : File) (i : nat),
    (k <= i)%nat
    /\ x = fileName f +:+ "-" +:+ JsString.ofNat i +:+ "-" +:+ JsString.ofZ (lastModified f).
Proof.
  revert k. induction files as [|f files IH]; intros k Hx; simpl in Hx; [contradiction|].
  destruct Hx as [<-|Hx].
  - exists f, (k + 0)%nat. split; [lia | apply parseFile_id].
  - rewrite (imap_ext _ (fun i => parseFile msg (S k + i))) in Hx
      by (intros i y _; simpl; f_equal; lia).
    destruct (IH (S k) Hx) as [f' [i [Hi ->]]]. exists f', i. split; [lia | reflexivity].
Qed.

Lemma parseFiles_from_NoDup (msg : Messages) (files : list File) (k : nat) :
  NoDup (map PhotoDraft.id (imap (fun i => parseFile msg (k + i)) files)).
Proof.
  revert k. induction files as [|f files IH]; intros k; simpl; [constructor|].
  rewrite (imap_ext _ (fun i => parseFile msg (S k + i)))
    by (intros i y _; simpl; f_equal; lia).
  constructor; [|apply IH].
  intros Hin. apply list_elem_of_In, parseFiles_from_index in Hin.
  destruct Hin as [f' [i [Hi Heq]]].
  rewrite parseFile_id in Heq. apply draft_id_index in Heq. lia.
Qed.

Lemma triggerBegin_ids (photoId : string) (g : GpsCoord) (a : App) :
  map PhotoDraft.id (photos (fst (triggerBegin photoId g a))) = map PhotoDraft.id (photos a).
Proof.
  unfold triggerBegin.
  destruct (geocodeCache a !! geocodeKey g) as [cached|];
    [destruct (JsString.truthy cached)|];
    cbn [fst photos setPhotos sendRequest]; apply updatePhoto_id; reflexivity.
Qed.

Lemma startResolutions_ids (parsed : list PhotoDraft.t) (a : App) :
  map PhotoDraft.id (photos (startResolutions parsed a)) = map PhotoDraft.id (photos a).
Proof.
  unfold startResolutions. revert a.
  induction parsed as [|item parsed IH]; intros a; simpl; [reflexivity|].
  rewrite IH. destruct (PhotoDraft.gps item); [apply triggerBegin_ids | reflexivity].
Qed.

(** The drafts built by one ingestion have pairwise distinct identifiers,
    whatever the names and time stamps of the files, because their indexes
    differ; an ingestion appends their identifiers to those of the pending
    list and changes none of the identifiers already there. *)
Lemma ids_distinct_within_one_drop (msg : Messages) (acceptedFiles : list File) (a : App) :
  NoDup (map PhotoDraft.id (parseFiles msg acceptedFiles))
  /\ map PhotoDraft.id (photos (onDrop msg acceptedFiles a))
     = map PhotoDraft.id (photos a) ++ map PhotoDraft.id (parseFiles msg acceptedFiles).
Proof.
  split.
  - apply (parseFiles_from_NoDup msg acceptedFiles 0).
  - unfold onDrop. rewrite startResolutions_ids.
    cbn [photos setPhotos setErrorMsg]. apply map_app.
Qed.

(** C9.  The index in an identifier is the position of the file in the
    drop at hand and restarts at 0 with every drop.  A file dropped in two
    ingestions therefore gets the same identifier twice in the pending
    list, whatever the file and whatever the list held before; for the
    sample file the list holds [IMG_0001.jpg-0-1682936430000] twice, a
    lookup by that identifier finds the first entry only, and settling the
    request of one entry rewrites both. *)
Theorem same_file_dropped_twice_shares_id :
  (forall (msg : Messages) (file : File) (a : App),
      ~ NoDup (map PhotoDraft.id (photos (onDrop msg [file] (onDrop msg [file] a)))))
  /\ (let a := onDrop sampleMessages [sampleFile]
                 (onDrop sampleMessages [sampleFile] emptyApp) in
      map PhotoDraft.id (photos a)
      = ["IMG_0001.jpg-0-1682936430000"; "IMG_0001.jpg-0-1682936430000"]
      /\ selectedPhoto (photos a) (Some "IMG_0001.jpg-0-1682936430000") = head (photos a)
      /\ locationTexts
           (stateAfter (triggerSettle "IMG_0001.jpg-0-1682936430000" sampleCoord
                          seoulResponse a) a)
         = ["Seoul"; "Seoul"]).
Proof.
  split.
  - intros msg file a H.
    destruct (ids_distinct_within_one_drop msg [file] (onDrop msg [file] a)) as [_ E2].
    destruct (ids_distinct_within_one_drop msg [file] a) as [_ E1].
    rewrite E2, E1, <- app_assoc in H. apply NoDup_app in H as (_ & _ & H).
    cbn [parseFiles imap map Datatypes.app] in H.
    apply NoDup_cons in H as [H _]. apply H. left.
  - cbv zeta. repeat split; vm_compute; reflexivity.
Qed.

(** Two files of one drop with the same name and time stamp are told apart
    by their index. *)
Example same_named_files_in_one_drop :
  map PhotoDraft.id (parseFiles sampleMessages [sampleFile; sampleFile])
  = ["IMG_0001.jpg-0-1682936430000"; "IMG_0001.jpg-1-1682936430000"].
Proof. vm_compute. reflexivity. Qed.

(** ** The coordinator *)


(** ** The frame of a batch run *)

Lemma frame_finish (r : Run) : app (finish r) = app r.
Proof. unfold finish. destruct (settled r); reflexivity. Qed.

Lemma frame_handle (msg : Messages) (e : event) (r : Run) :
  frame (app (handle msg e r)) = frame (app r).
Proof.
  unfold handle. destruct (negb (enabled e r)); [reflexivity|].
  destruct e as [[d t|res| |m]| | | |];
    unfold onMessage, onWorkerError, onStartupTimeout, onOverallTimeout;
    cbn [clearStartupTimeoutId gotAnyMessage];
    try (destruct (gotAnyMessage r));
    rewrite ?frame_finish; reflexivity.
Qed.

Lemma frame_handleAll (msg : Messages) (es : list event) (r : Run) :
  frame (app (handleAll msg es r)) = frame (app r).
Proof.
  revert r. induction es as [|e es IH]; intros r; [reflexivity|].
  cbn [handleAll fold_left]. fold (handleAll msg es (handle msg e r)).
  rewrite IH. apply frame_handle.
Qed.

Lemma frame_awaitSettled (msg : Messages) (es : list event) (r : Run) :
  frame (app (fst (awaitSettled msg es r))) = frame (app r).
Proof.
  revert r. induction es as [|e es IH]; intros r; [reflexivity|].
  cbn [awaitSettled]. destruct (settled (handle msg e r)).
  - apply frame_handle.
  - rewrite IH. apply frame_handle.
Qed.

Lemma frame_mainThreadLoop (pf : Platform) (settings : WorkerSettings) (total index : nat)
  (drafts : list PhotoDraft.t) (r : Run) :
  match mainThreadLoop pf settings total index drafts r with
  | inl r' | inr r' => frame (app r') = frame (app r)
  end.
Proof.
  revert index r. induction drafts as [|item drafts IH]; intros index r; [reflexivity|].
  cbn [mainThreadLoop]. destruct (rasterizeInMainThread pf settings item); [|reflexivity].
  match goal with |- context [mainThreadLoop _ _ _ _ _ ?r1] => specialize (IH (S index) r1) end.
  destruct (mainThreadLoop pf settings total (S index) drafts _); rewrite IH; reflexivity.
Qed.

Lemma frame_concludeBatch (msg : Messages) (env : Environment) (r : Run + Run) :
  frame (app (concludeBatch msg env r))
  = frame (app (match r with inl r' | inr r' => r' end)).
Proof.
  unfold concludeBatch. destruct r as [r|r]; [|reflexivity].
  destruct (signedIn env && (0 <? length (results r))%nat && addDocFails env); reflexivity.
Qed.

Lemma isProcessing_handle (msg : Messages) (e : event) (r : Run) :
  isProcessing (app (handle msg e r)) = isProcessing (app r).
Proof.
  unfold handle. destruct (negb (enabled e r)); [reflexivity|].
  destruct e as [[d t|res| |m]| | | |];
    unfold onMessage, onWorkerError, onStartupTimeout, onOverallTimeout;
    cbn [clearStartupTimeoutId gotAnyMessage];
    try (destruct (gotAnyMessage r));
    rewrite ?frame_finish; reflexivity.
Qed.

Lemma isProcessing_handleAll (msg : Messages) (es : list event) (r : Run) :
  isProcessing (app (handleAll msg es r)) = isProcessing (app r).
Proof.
  revert r. induction es as [|e es IH]; intros r; [reflexivity|].
  cbn [handleAll fold_left]. fold (handleAll msg es (handle msg e r)).
  rewrite IH. apply isProcessing_handle.
Qed.

Lemma isProcessing_awaitSettled (msg : Messages) (es : list event) (r : Run) :
  isProcessing (app (fst (awaitSettled msg es r))) = isProcessing (app r).
Proof.
  revert r. induction es as [|e es IH]; intros r; [reflexivity|].
  cbn [awaitSettled]. destruct (settled (handle msg e r)).
  - apply isProcessing_handle.
  - rewrite IH. apply isProcessing_handle.
Qed.

Lemma isProcessing_concludeBatch (msg : Messages) (env : Environment) (r : Run + Run) :
  isProcessing (app (concludeBatch msg env r)) = false.
Proof.
  unfold concludeBatch. destruct r as [r|r]; [|reflexivity].
  destruct (signedIn env && (0 <? length (results r))%nat && addDocFails env); reflexivity.
Qed.

(** C10.  Whatever the environment does, a [processPhotos] call leaves the
    pending list as it was -- the same drafts with the same [id], [name],
    [shotAt], [locationText] and [sourceUrl] -- and the geocode cache and the
    request log with it: only [processed], [progress], [isProcessing] and
    [errorMsg] may differ.  A call that ran to its end leaves [isProcessing]
    as it found it, so the drafts can be processed again; a call that still
    waits holds it at true. *)
Theorem processPhotos_keeps_drafts (msg : Messages) (settingsForRender : WorkerSettings)
  (env : Environment) (a : App) :
  let a' := appOf (processPhotos msg settingsForRender env a) in
  photos a' = photos a
  /\ map PhotoDraft.id (photos a') = map PhotoDraft.id (photos a)
  /\ map PhotoDraft.name (photos a') = map PhotoDraft.name (photos a)
  /\ map PhotoDraft.shotAt (photos a') = map PhotoDraft.shotAt (photos a)
  /\ map PhotoDraft.locationText (photos a') = map PhotoDraft.locationText (photos a)
  /\ map PhotoDraft.sourceUrl (photos a') = map PhotoDraft.sourceUrl (photos a)
  /\ a' = {| photos := photos a; processed := processed a'; progress := progress a';
             isProcessing := isProcessing a'; errorMsg := errorMsg a';
             geocodeCache := geocodeCache a; requests := requests a |}
  /\ match processPhotos msg settingsForRender env a with
     | Finished a'' => isProcessing a'' = isProcessing a
     | Waiting r => isProcessing (app r) = true
     end.
Proof.
  intros a'.
  assert (Hframe : frame a' = frame a).
  { unfold a', processPhotos.
    destruct ((length (photos a) =? 0)%nat || isProcessing a); [reflexivity|].
    destruct (canUseWorker env).
    - pose proof (frame_awaitSettled msg (events env)
                    (effectCleanup (initRun (startBatch a)))) as Hw.
      destruct (awaitSettled msg (events env) (effectCleanup (initRun (startBatch a))))
        as [r late].
      cbn [fst] in Hw. destruct (settled r); [|exact Hw].
      cbn [appOf]. rewrite frame_handleAll, frame_concludeBatch.
      destruct (shouldFallbackToMainThread r); [|exact Hw].
      unfold processInMainThread.
      pose proof (frame_mainThreadLoop (mainPlatform env) settingsForRender
                    (length (photos a)) 0 (photos a) r) as Hl.
      destruct (mainThreadLoop _ _ _ _ _ r); rewrite Hl; exact Hw.
    - cbn [appOf]. rewrite frame_concludeBatch. unfold processInMainThread.
      pose proof (frame_mainThreadLoop (mainPlatform env) settingsForRender
                    (length (photos a)) 0 (photos a) (directRun (startBatch a))) as Hl.
      destruct (mainThreadLoop _ _ _ _ _ _); rewrite Hl; reflexivity. }
  unfold frame in Hframe. injection Hframe as Hp Hc Hr.
  rewrite Hp. repeat split.
  - destruct a'; cbn in *; subst; reflexivity.
  - unfold processPhotos.
    destruct ((length (photos a) =? 0)%nat || isProcessing a) eqn:Hguard; [reflexivity|].
    apply orb_false_elim in Hguard as [_ Hproc]. rewrite Hproc.
    destruct (canUseWorker env).
    + pose proof (isProcessing_awaitSettled msg (events env)
                    (effectCleanup (initRun (startBatch a)))) as Hw.
      destruct (awaitSettled msg (events env) (effectCleanup (initRun (startBatch a))))
        as [r late].
      cbn [fst] in Hw. destruct (settled r); [|exact Hw].
      rewrite isProcessing_handleAll. apply isProcessing_concludeBatch.
    + apply isProcessing_concludeBatch.
Qed.

(** ** Sample runs *)

(** A worker that would post an [error] message and no [complete]: the
    message is not delivered, the startup timer falls back and the photo is
    rasterized in the main thread. *)
Example erroring_worker_run :
  exists a',
    processPhotos sampleMessages sampleSettings erroringEnvironment sampleApp = Finished a'
    /\ map ProcessedPhoto.id (processed a') = ["IMG_0001.jpg-0-1682936430000"]
    /\ progress a' = (1, 1)%nat /\ isProcessing a' = false /\ errorMsg a' = "".
Proof. eexists. split; [vm_compute; reflexivity|]. repeat split. Qed.

(** The worker stalls at startup: the coordinator falls back, the three
    results appear in order; the 60 s timer, which the fallback does not
    clear, later records the failure message. *)
Example stalled_worker_run :
  exists a',
    processPhotos sampleMessages sampleSettings stalledEnvironment threeApp = Finished a'
    /\ map ProcessedPhoto.id (processed a')
       = ["IMG_0001.jpg-0-1682936430000"; "IMG_0002.jpg-1-1682936431000";
          "IMG_0003.jpg-2-1682936432000"]
    /\ progress a' = (3, 3)%nat /\ isProcessing a' = false
    /\ errorMsg a' = "Processing failed".
Proof. eexists. split; [vm_compute; reflexivity|]. repeat split. Qed.

(** A second call while a run is in progress, and a call on an empty list,
    do nothing. *)
Example processPhotos_guard :
  processPhotos sampleMessages sampleSettings stalledEnvironment (setIsProcessing true threeApp)
  = Finished (setIsProcessing true threeApp)
  /\ processPhotos sampleMessages sampleSettings stalledEnvironment emptyApp
     = Finished emptyApp.
Proof. split; reflexivity. Qed.

(** ** Colours *)

Lemma land_255_range (z : Z) : (0 <= Z.land z 255 <= 255)%Z.
Proof.
  change 255%Z with (Z.ones 8). rewrite Z.land_ones by lia.
  pose proof (Z.mod_pos_bound z (2 ^ 8) eq_refl) as H. change (2 ^ 8)%Z with 256%Z in *.
  change (Z.ones 8) with 255%Z. lia.
Qed.

(** X1. Whatever the colour string, every channel [hexToRgb] returns is an
    integer from 0 to 255. *)
Theorem hexToRgb_channels_in_range (hex : string) :
  (0 <= Rgb.r (hexToRgb hex) <= 255)%Z
  /\ (0 <= Rgb.g (hexToRgb hex) <= 255)%Z
  /\ (0 <= Rgb.b (hexToRgb hex) <= 255)%Z.
Proof. unfold hexToRgb. cbn [Rgb.r Rgb.g Rgb.b]. repeat split; apply land_255_range. Qed.

Lemma hexDigitValue_facts (c : ascii) (v : Z) :
  hexDigitValue c = Some v ->
  (0 <= v <= 15)%Z /\ JsString.isWhiteSpace c = false
  /\ Ascii.eqb c "-" = false /\ Ascii.eqb c "+" = false /\ Ascii.eqb c "#" = false
  /\ Ascii.eqb c "x" = false /\ Ascii.eqb c "X" = false.
Proof.
  destruct c as [[] [] [] [] [] [] [] []]; vm_compute; intros H;
    try discriminate H; injection H as <-; repeat split; discriminate.
Qed.

Lemma toInt32_small (z : Z) :
  (0 <= z < 2 ^ 31)%Z -> MoreNum.toInt32 (Num.ofZ z) = z.
Proof.
  intros Hz. unfold MoreNum.toInt32, Num.ofZ.
  assert (Hle : Qle_bool 0 (inject_Z z) = true).
  { apply Qle_bool_iff. change 0%Q with (inject_Z 0). rewrite <- Zle_Qle. lia. }
  rewrite Hle, Qfloor_Z.
  rewrite Z.mod_small; lia.
Qed.

Lemma parseInt16_six_digits (h1 h2 h3 h4 h5 h6 : ascii) (v1 v2 v3 v4 v5 v6 : Z) :
  hexDigitValue h1 = Some v1 -> hexDigitValue h2 = Some v2 ->
  hexDigitValue h3 = Some v3 -> hexDigitValue h4 = Some v4 ->
  hexDigitValue h5 = Some v5 -> hexDigitValue h6 = Some v6 ->
  parseInt16 (String h1 (String h2 (String h3 (String h4 (String h5 (String h6 ""))))))
  = Num.ofZ (16 * (16 * (16 * (16 * (16 * (16 * 0 + v1) + v2) + v3) + v4) + v5) + v6).
Proof.
  intros H1 H2 H3 H4 H5 H6.
  destruct (hexDigitValue_facts _ _ H1) as (_ & W1 & M1 & P1 & _ & _ & _).
  destruct (hexDigitValue_facts _ _ H2) as (_ & _ & _ & _ & _ & X2 & X2').
  unfold parseInt16. cbn [JsString.trimStart]. rewrite W1, M1, P1.
  cbn [orb]. rewrite X2, X2'. cbn [orb]. rewrite Bool.andb_false_r.
  cbn [hexPrefix]. rewrite H1, H2, H3, H4, H5, H6. reflexivity.
Qed.

(** The three bytes [(n >> 16) & 255], [(n >> 8) & 255] and [n & 255] of a
    number written with six radix-16 digits. *)
Lemma channels_of_six_digits (v1 v2 v3 v4 v5 v6 : Z) :
  (0 <= v1 <= 15)%Z -> (0 <= v2 <= 15)%Z -> (0 <= v3 <= 15)%Z ->
  (0 <= v4 <= 15)%Z -> (0 <= v5 <= 15)%Z -> (0 <= v6 <= 15)%Z ->
  let n := MoreNum.toInt32
             (Num.ofZ (16 * (16 * (16 * (16 * (16 * (16 * 0 + v1) + v2) + v3) + v4) + v5)
                       + v6)) in
  Z.land (Z.shiftr n 16) 255 = (16 * v1 + v2)%Z
  /\ Z.land (Z.shiftr n 8) 255 = (16 * v3 + v4)%Z
  /\ Z.land n 255 = (16 * v5 + v6)%Z.
Proof.
  intros B1 B2 B3 B4 B5 B6. cbv zeta.
  set (n := (16 * (16 * (16 * (16 * (16 * (16 * 0 + v1) + v2) + v3) + v4) + v5) + v6)%Z).
  assert (Hn : (0 <= n < 2 ^ 24)%Z) by (unfold n; change (2 ^ 24)%Z with 16777216%Z; lia).
  rewrite toInt32_small by (change (2 ^ 31)%Z with 2147483648%Z;
                            change (2 ^ 24)%Z with 16777216%Z in Hn; lia).
  change 255%Z with (Z.ones 8). rewrite !Z.land_ones, !Z.shiftr_div_pow2 by lia.
  change (2 ^ 8)%Z with 256%Z. change (2 ^ 16)%Z with 65536%Z.
  change (2 ^ 24)%Z with 16777216%Z in Hn.
  split; [|split].
  - assert (n / 65536 = 16 * v1 + v2)%Z as ->
      by (symmetry;
          apply Z.div_unique with (r := (256 * (16 * v3 + v4) + (16 * v5 + v6))%Z);
          unfold n; lia).
    apply Z.mod_small. lia.
  - assert (n / 256 = 256 * (16 * v1 + v2) + (16 * v3 + v4))%Z as ->
      by (symmetry; apply Z.div_unique with (r := (16 * v5 + v6)%Z); unfold n; lia).
    symmetry. apply Z.mod_unique with (q := (16 * v1 + v2)%Z); lia.
  - symmetry. apply Z.mod_unique with (q := (256 * (16 * v1 + v2) + (16 * v3 + v4))%Z);
      unfold n; lia.
Qed.

(** X2. For six radix-16 digits after the [#], [hexToRgb] returns the value
    of the first pair as red, of the second as green and of the third as
    blue. *)
Theorem hexToRgb_six_digits (h1 h2 h3 h4 h5 h6 : ascii) (v1 v2 v3 v4 v5 v6 : Z)
  (H1 : hexDigitValue h1 = Some v1) (H2 : hexDigitValue h2 = Some v2)
  (H3 : hexDigitValue h3 = Some v3) (H4 : hexDigitValue h4 = Some v4)
  (H5 : hexDigitValue h5 = Some v5) (H6 : hexDigitValue h6 = Some v6) :
  hexToRgb (String "#" (String h1 (String h2 (String h3 (String h4 (String h5
              (String h6 "")))))))
  = {| Rgb.r := 16 * v1 + v2; Rgb.g := 16 * v3 + v4; Rgb.b := 16 * v5 + v6 |}.
Proof.
  destruct (hexDigitValue_facts _ _ H1) as (B1 & _).
  destruct (hexDigitValue_facts _ _ H2) as (B2 & _).
  destruct (hexDigitValue_facts _ _ H3) as (B3 & _).
  destruct (hexDigitValue_facts _ _ H4) as (B4 & _).
  destruct (hexDigitValue_facts _ _ H5) as (B5 & _).
  destruct (hexDigitValue_facts _ _ H6) as (B6 & _).
  unfold hexToRgb. cbn [removeFirstHash Ascii.eqb Bool.eqb String.length Nat.eqb].
  rewrite (parseInt16_six_digits h1 h2 h3 h4 h5 h6 v1 v2 v3 v4 v5 v6) by assumption.
  destruct (channels_of_six_digits v1 v2 v3 v4 v5 v6 B1 B2 B3 B4 B5 B6) as (-> & -> & ->).
  reflexivity.
Qed.

(** The colour [#3a7Fc0]. *)
Lemma hexToRgb_six_digits_witness :
  hexToRgb "#3a7Fc0" = {| Rgb.r := 16 * 3 + 10; Rgb.g := 16 * 7 + 15; Rgb.b := 16 * 12 + 0 |}.
Proof.
  apply (hexToRgb_six_digits "3" "a" "7" "F" "c" "0" 3 10 7 15 12 0); reflexivity.
Defined.

(** X3. In the three-digit shorthand every digit stands for itself doubled:
    a channel written with the digit of value [v] is [17 * v], so that
    [#fff] is white and [#000] black. *)
Theorem hexToRgb_shorthand (h1 h2 h3 : ascii) (v1 v2 v3 : Z)
  (H1 : hexDigitValue h1 = Some v1) (H2 : hexDigitValue h2 = Some v2)
  (H3 : hexDigitValue h3 = Some v3) :
  hexToRgb (String "#" (String h1 (String h2 (String h3 ""))))
  = {| Rgb.r := 17 * v1; Rgb.g := 17 * v2; Rgb.b := 17 * v3 |}.
Proof.
  destruct (hexDigitValue_facts _ _ H1) as (B1 & _).
  destruct (hexDigitValue_facts _ _ H2) as (B2 & _).
  destruct (hexDigitValue_facts _ _ H3) as (B3 & _).
  unfold hexToRgb.
  cbn [removeFirstHash Ascii.eqb Bool.eqb String.length Nat.eqb doubleChars].
  rewrite (parseInt16_six_digits h1 h1 h2 h2 h3 h3 v1 v1 v2 v2 v3 v3) by assumption.
  destruct (channels_of_six_digits v1 v1 v2 v2 v3 v3 B1 B1 B2 B2 B3 B3) as (-> & -> & ->).
  f_equal; lia.
Qed.

(** The colour [#f80]. *)
Lemma hexToRgb_shorthand_witness :
  hexToRgb "#f80" = {| Rgb.r := 17 * 15; Rgb.g := 17 * 8; Rgb.b := 17 * 0 |}.
Proof.
  apply (hexToRgb_shorthand "f" "8" "0" 15 8 0); reflexivity.
Defined.

(** ** Progress *)

Lemma ofNat_div_succ (done total : nat) :
  MoreNum.div (Num.ofNat done) (Num.ofNat (S total))
  = Fin (inject_Z (Z.of_nat done) / inject_Z (Z.of_nat (S total))).
Proof. reflexivity. Qed.

Lemma ratio_bounds (done total : nat) :
  (done <= S total)%nat ->
  (0 <= inject_Z (Z.of_nat done) / inject_Z (Z.of_nat (S total)) <= 1)%Q.
Proof.
  intros Hle.
  assert (Hpos : (0 < inject_Z (Z.of_nat (S total)))%Q).
  { change 0%Q with (inject_Z 0). rewrite <- Zlt_Qlt. lia. }
  split.
  - apply Qle_shift_div_l; [exact Hpos|]. rewrite Qmult_0_l.
    change 0%Q with (inject_Z 0). rewrite <- Zle_Qle. lia.
  - apply Qle_shift_div_r; [exact Hpos|]. rewrite Qmult_1_l.
    rewrite <- Zle_Qle. lia.
Qed.

(** X4. The displayed percentage is 0 for an empty batch (no division by
    zero), lies between 0 and 100 while [done] does not exceed [total], and
    is 100 once every photo is done. *)
Theorem percentage_bounds (done total : nat) (Hle : (done <= total)%nat) :
  percentage (done, 0)%nat = Num.zero
  /\ Num.leb Num.zero (percentage (done, total)) = true
  /\ Num.leb (percentage (done, total)) (Num.ofZ 100) = true
  /\ percentage (S total, S total) = Num.ofZ 100.
Proof.
  split; [reflexivity|].
  assert (Hfull : percentage (S total, S total) = Num.ofZ 100).
  { unfold percentage. cbn [Nat.eqb]. rewrite ofNat_div_succ.
    cbn [Num.mul Num.ofZ Num.round].
    assert (Hne : ~ inject_Z (Z.of_nat (S total)) == 0).
    { change 0%Q with (inject_Z 0). rewrite inject_Z_injective. lia. }
    rewrite (Qfloor_comp _ (201 # 2)); [reflexivity|].
    field. exact Hne. }
  destruct total as [|total].
  - split; [reflexivity|]. split; [reflexivity | exact Hfull].
  - unfold percentage at 1 2. cbn [Nat.eqb]. rewrite ofNat_div_succ.
    cbn [Num.mul Num.ofZ Num.round Num.leb Num.zero].
    pose proof (ratio_bounds done total Hle) as [Hlo Hhi].
    set (x := (inject_Z (Z.of_nat done) / inject_Z (Z.of_nat (S total)))%Q) in *.
    split; [|split; [|exact Hfull]]; apply Qle_bool_iff; rewrite <- Zle_Qle.
    + change 0%Z with (Qfloor 0). apply Qfloor_resp_le.
      change (inject_Z 100) with (100 # 1). lra.
    + change 100%Z with (Qfloor (201 # 2)) at 2. apply Qfloor_resp_le.
      change (inject_Z 100) with (100 # 1). lra.
Qed.

(** One photo of three done. *)
Lemma percentage_bounds_witness :
  percentage (1, 0)%nat = Num.zero
  /\ Num.leb Num.zero (percentage (1, 3)%nat) = true
  /\ Num.leb (percentage (1, 3)%nat) (Num.ofZ 100) = true
  /\ percentage (4, 4)%nat = Num.ofZ 100.
Proof. apply (percentage_bounds 1 3). lia. Defined.

(** The rounding reaches 100 before the batch is complete when it has more
    than 200 photos. *)
Example percentage_rounds_up :
  percentage (200, 201)%nat = Num.ofZ 100 /\ percentage (1, 3)%nat = Num.ofZ 33.
Proof. split; vm_compute; reflexivity. Qed.

(** ** Geocoding: what a resolution touches *)

(** X5. Settling a request always clears the geocoding flag of the entries
    with the given id, changes nothing but the location text and that flag
    in them, leaves every other entry as it is, and touches neither the
    results, the progress, the processing flag, the error message nor the
    request log. *)
Theorem triggerSettle_touches_only_its_entry
  (photoId : string) (gps : GpsCoord) (net : fetchOutcome) (a : App) :
  exists a',
    triggerSettle photoId gps net a = Return a'
    /\ Forall2
         (fun p p' =>
            if JsString.strictEq (PhotoDraft.id p) photoId
            then sameButLocation p p' /\ PhotoDraft.isGeocoding p' = Some false
            else p' = p)
         (photos a) (photos a')
    /\ processed a' = processed a /\ progress a' = progress a
    /\ isProcessing a' = isProcessing a /\ errorMsg a' = errorMsg a
    /\ requests a' = requests a.
Proof.
  assert (Hupd : forall text l,
             Forall2
               (fun p p' =>
                  if JsString.strictEq (PhotoDraft.id p) photoId
                  then sameButLocation p p' /\ PhotoDraft.isGeocoding p' = Some false
                  else p' = p)
               l (updatePhoto photoId
                    (fun p => PhotoDraft.withLocation (text p) false p) l)).
  { intros text l. unfold updatePhoto. induction l as [|p l IH]; simpl; constructor; auto.
    destruct (JsString.strictEq (PhotoDraft.id p) photoId); [|reflexivity].
    unfold sameButLocation. simpl. repeat split. }
  unfold triggerSettle.
  destruct (reverseGeocode (lat gps) (lon gps) net) as [[text|]|];
    [destruct (JsString.truthy text)| |];
    eexists; (split; [reflexivity|]);
    cbn [photos processed progress isProcessing errorMsg requests setPhotos cacheSet];
    (split; [|repeat split]).
  - apply (Hupd (fun _ => text)).
  - apply (Hupd PhotoDraft.locationText).
  - apply (Hupd PhotoDraft.locationText).
  - apply (Hupd PhotoDraft.locationText).
Qed.

Lemma anyGeocoding_after_updates (photoId : string) (f g : PhotoDraft.t -> PhotoDraft.t)
  (l : list PhotoDraft.t) :
  (forall p, PhotoDraft.id (g p) = PhotoDraft.id p) ->
  (forall p, PhotoDraft.isGeocoding (f p) = Some false) ->
  existsb (fun p => match PhotoDraft.isGeocoding p with Some true => true | _ => false end) l
  = false ->
  existsb (fun p => match PhotoDraft.isGeocoding p with Some true => true | _ => false end)
    (updatePhoto photoId f (updatePhoto photoId g l)) = false.
Proof.
  intros Hg Hf. unfold updatePhoto. induction l as [|p l IH]; simpl; [reflexivity|].
  intros H. apply orb_false_elim in H as [Hp Hl]. rewrite (IH Hl), orb_false_r.
  destruct (JsString.strictEq (PhotoDraft.id p) photoId) eqn:E.
  - rewrite Hg, E, Hf. reflexivity.
  - rewrite E. exact Hp.
Qed.

Lemma anyGeocoding_after_update (photoId : string) (f : PhotoDraft.t -> PhotoDraft.t)
  (l : list PhotoDraft.t) :
  (forall p, PhotoDraft.isGeocoding (f p) = Some false) ->
  existsb (fun p => match PhotoDraft.isGeocoding p with Some true => true | _ => false end) l
  = false ->
  existsb (fun p => match PhotoDraft.isGeocoding p with Some true => true | _ => false end)
    (updatePhoto photoId f l) = false.
Proof.
  intros Hf. unfold updatePhoto. induction l as [|p l IH]; simpl; [reflexivity|].
  intros H. apply orb_false_elim in H as [Hp Hl]. rewrite (IH Hl), orb_false_r.
  destruct (JsString.strictEq (PhotoDraft.id p) photoId); [rewrite Hf; reflexivity | exact Hp].
Qed.

(** X6. A resolution that runs from its cache lookup to its settlement never
    leaves an entry marked as geocoding: if no entry was marked before, none
    is marked afterwards, whether the cache answered, a place name came
    back, nothing came back or the request failed. *)
Theorem resolution_clears_geocoding_flag
  (photoId : string) (gps : GpsCoord) (net : fetchOutcome) (a : App)
  (Hidle : anyGeocoding a = false) :
  exists a',
    triggerReverseGeocode photoId gps net a = Return a' /\ anyGeocoding a' = false.
Proof.
  unfold anyGeocoding in *. unfold triggerReverseGeocode, triggerBegin.
  assert (Hmiss : exists a',
             triggerSettle photoId gps net
               (sendRequest (lat gps) (lon gps)
                  (setPhotos (updatePhoto photoId (PhotoDraft.withGeocoding true)) a))
             = Return a'
             /\ existsb (fun p => match PhotoDraft.isGeocoding p with
                                  | Some true => true | _ => false end) (photos a') = false).
  { unfold triggerSettle.
    destruct (reverseGeocode (lat gps) (lon gps) net) as [[text|]|];
      [destruct (JsString.truthy text)| |];
      eexists; (split; [reflexivity|]);
      cbn [photos setPhotos cacheSet sendRequest];
      apply anyGeocoding_after_updates; auto. }
  destruct (geocodeCache a !! geocodeKey gps) as [cached|]; [|exact Hmiss].
  destruct (JsString.truthy cached); [|exact Hmiss].
  eexists. split; [reflexivity|]. cbn [photos setPhotos].
  apply anyGeocoding_after_update; auto.
Qed.

(** The sample photo, resolved while the network is down. *)
Lemma resolution_clears_geocoding_flag_witness :
  exists a',
    triggerReverseGeocode (PhotoDraft.id sampleDraft) sampleCoord FetchRejects
      (setPhotos (fun _ => [sampleDraft]) emptyApp) = Return a'
    /\ anyGeocoding a' = false.
Proof.
  apply (resolution_clears_geocoding_flag (PhotoDraft.id sampleDraft) sampleCoord FetchRejects
           (setPhotos (fun _ => [sampleDraft]) emptyApp)).
  reflexivity.
Defined.

(** While the request of a dropped photo is in flight the page shows the
    geocoding indicator. *)
Example geocoding_in_flight : anyGeocoding sampleApp = true.
Proof. reflexivity. Qed.

(** ** Geocoding: the cache and the requests *)

Lemma triggerBegin_cache (photoId : string) (g : GpsCoord) (a : App) :
  geocodeCache (fst (triggerBegin photoId g a)) = geocodeCache a.
Proof.
  unfold triggerBegin.
  destruct (geocodeCache a !! geocodeKey g) as [cached|];
    [destruct (JsString.truthy cached)|]; reflexivity.
Qed.

Lemma startResolutions_cache (parsed : list PhotoDraft.t) (a : App) :
  geocodeCache (startResolutions parsed a) = geocodeCache a.
Proof.
  unfold startResolutions. revert a.
  induction parsed as [|item parsed IH]; intros a; simpl; [reflexivity|].
  rewrite IH. destruct (PhotoDraft.gps item); [apply triggerBegin_cache | reflexivity].
Qed.

Lemma truthy_nonempty (text : string) : JsString.truthy text = true -> text <> "".
Proof. destruct text; [discriminate | intros _; discriminate]. Qed.

(** X7. The geocode cache only ever holds non-empty place names: a
    resolution keeps that invariant whatever the network answers, and
    neither an ingestion nor [clearAll] writes to the cache.  So a cached
    key is always a hit. *)
Theorem cache_holds_only_place_names
  (photoId : string) (gps : GpsCoord) (net : fetchOutcome)
  (msg : Messages) (acceptedFiles : list File) (a : App)
  (Hinv : cacheValuesNonEmpty a) :
  cacheValuesNonEmpty (stateAfter (triggerReverseGeocode photoId gps net a) a)
  /\ geocodeCache (onDrop msg acceptedFiles a) = geocodeCache a
  /\ geocodeCache (clearAll a) = geocodeCache a.
Proof.
  split; [|split; [|reflexivity]].
  - unfold triggerReverseGeocode.
    pose proof (triggerBegin_cache photoId gps a) as Hb.
    destruct (triggerBegin photoId gps a) as [a1 inFlight]. cbn [fst] in Hb.
    assert (Hinv1 : cacheValuesNonEmpty a1).
    { unfold cacheValuesNonEmpty. rewrite Hb. exact Hinv. }
    destruct inFlight; [|exact Hinv1].
    unfold triggerSettle.
    destruct (reverseGeocode (lat gps) (lon gps) net) as [[text|]|];
      [destruct (JsString.truthy text) eqn:Ht| |]; cbn [stateAfter]; try exact Hinv1.
    intros key v. cbn [geocodeCache setPhotos cacheSet].
    rewrite lookup_insert. case_decide as Hk.
    + intros [= <-]. apply truthy_nonempty, Ht.
    + apply Hinv1.
  - unfold onDrop. rewrite startResolutions_cache. reflexivity.
Qed.

(** The empty page, on which the sample photo is resolved. *)
Lemma cache_holds_only_place_names_witness :
  cacheValuesNonEmpty
    (stateAfter (triggerReverseGeocode "a" sampleCoord seoulResponse emptyApp) emptyApp)
  /\ geocodeCache (onDrop sampleMessages [sampleFile] emptyApp) = geocodeCache emptyApp
  /\ geocodeCache (clearAll emptyApp) = geocodeCache emptyApp.
Proof.
  apply (cache_holds_only_place_names "a" sampleCoord seoulResponse sampleMessages
           [sampleFile] emptyApp).
  intros key text H. cbn [geocodeCache emptyApp] in H.
  rewrite lookup_empty in H. discriminate H.
Defined.

Lemma triggerBegin_requests (photoId : string) (g : GpsCoord) (a : App) :
  requests (fst (triggerBegin photoId g a))
  = requests a
    ++ match geocodeCache a !! geocodeKey g with
       | Some cached => if JsString.truthy cached then [] else [(lat g, lon g)]
       | None => [(lat g, lon g)]
       end.
Proof.
  unfold triggerBegin.
  destruct (geocodeCache a !! geocodeKey g) as [cached|];
    [destruct (JsString.truthy cached)|]; cbn [fst requests setPhotos sendRequest];
    rewrite ?app_nil_r; reflexivity.
Qed.

Lemma startResolutions_requests (parsed : list PhotoDraft.t) (a : App) :
  requests (startResolutions parsed a)
  = requests a ++ missedRequests (geocodeCache a) parsed.
Proof.
  unfold startResolutions, missedRequests. revert a.
  induction parsed as [|item parsed IH]; intros a; cbn [fold_left flat_map].
  - rewrite app_nil_r. reflexivity.
  - rewrite IH. destruct (PhotoDraft.gps item) as [g|].
    + rewrite triggerBegin_requests, triggerBegin_cache, <- app_assoc. reflexivity.
    + reflexivity.
Qed.

(** X8. An ingestion sends exactly one reverse-geocoding request for every
    dropped photo, in order, that has a coordinate whose six-decimal key has
    no place name in the cache, and none for a photo without a coordinate
    or with a cached one; the earlier requests stay in the log. *)
Theorem onDrop_requests (msg : Messages) (acceptedFiles : list File) (a : App) :
  requests (onDrop msg acceptedFiles a)
  = requests a ++ missedRequests (geocodeCache a) (parseFiles msg acceptedFiles).
Proof. unfold onDrop. rewrite startResolutions_requests. reflexivity. Qed.

(** Of the three sample files only the first has a coordinate. *)
Example onDrop_requests_sample :
  requests threeApp = [(lat sampleCoord, lon sampleCoord)].
Proof. vm_compute. reflexivity. Qed.

(** X9. [clearAll] empties the lists and the counters but keeps the geocode
    cache: a photo dropped after it whose coordinate was resolved before
    gets the cached place name at once, is not marked as geocoding, and no
    request is sent. *)
Theorem clearAll_keeps_resolved_places
  (msg : Messages) (file : File) (tags : Tags) (g : GpsCoord) (text : string) (a : App)
  (Htags : exifTags file = Some tags)
  (Hgps : parseExifGps tags = Some g)
  (Hcached : geocodeCache a !! geocodeKey g = Some text)
  (Htext : text <> "") :
  let a' := onDrop msg [file] (clearAll a) in
  photos a' = [PhotoDraft.withLocation text false (parseFile msg 0 file)]
  /\ requests a' = requests a
  /\ processed a' = [] /\ progress a' = (0, 0)%nat /\ errorMsg a' = "".
Proof.
  intros a'. unfold a', onDrop, parseFiles, startResolutions.
  cbn [imap fold_left].
  assert (Hg : PhotoDraft.gps (parseFile msg 0 file) = Some g).
  { unfold parseFile. rewrite Htags, Hgps. reflexivity. }
  rewrite Hg. unfold triggerBegin.
  cbn [geocodeCache clearAll setPhotos setErrorMsg setProgress setProcessed].
  rewrite Hcached.
  assert (Ht : JsString.truthy text = true) by (destruct text; [contradiction | reflexivity]).
  rewrite Ht.
  cbn [fst photos requests processed progress errorMsg setPhotos setErrorMsg
       setProgress setProcessed app].
  unfold clearAll.
  cbn [photos requests processed progress errorMsg setPhotos setErrorMsg
       setProgress setProcessed Datatypes.app].
  unfold updatePhoto. cbn [map]. unfold JsString.strictEq.
  rewrite bool_decide_eq_true_2 by reflexivity.
  repeat split.
Qed.

(** The sample photo, dropped again after [clearAll] once it was resolved. *)
Lemma clearAll_keeps_resolved_places_witness :
  let a' := onDrop sampleMessages [sampleFile] (clearAll resolvedApp) in
  photos a' = [PhotoDraft.withLocation "Seoul" false (parseFile sampleMessages 0 sampleFile)]
  /\ requests a' = requests resolvedApp
  /\ processed a' = [] /\ progress a' = (0, 0)%nat /\ errorMsg a' = "".
Proof.
  apply (clearAll_keeps_resolved_places sampleMessages sampleFile sampleTags sampleCoord
           "Seoul" resolvedApp).
  - reflexivity.
  - reflexivity.
  - vm_compute. reflexivity.
  - discriminate.
Defined.

(** ** Batches in the main thread *)

Lemma mainThreadLoop_prefix (pf : Platform) (settings : WorkerSettings) (total : nat)
  (pre : list PhotoDraft.t) (blobs : list Blob) (rest : list PhotoDraft.t)
  (index : nat) (r : Run) :
  Forall2 (fun d b => rasterizeInMainThread pf settings d = Resolved b) pre blobs ->
  exists r1,
    mainThreadLoop pf settings total index (pre ++ rest) r
    = mainThreadLoop pf settings total (index + length pre) rest r1
    /\ results r1 = results r ++ zip_with resultOfDraft pre blobs
    /\ errorMsg (app r1) = errorMsg (app r)
    /\ isProcessing (app r1) = isProcessing (app r)
    /\ (pre = [] /\ r1 = r
        \/ pre <> [] /\ processed (app r1) = results r1
           /\ progress (app r1) = (index + length pre, total)%nat).
Proof.
  intros Hok. revert index r.
  induction Hok as [|d b pre blobs Hd Hok IH]; intros index r.
  - exists r. rewrite Nat.add_0_r, app_nil_r. repeat split. left. split; reflexivity.
  - cbn [Datatypes.app mainThreadLoop]. rewrite Hd.
    match goal with |- context [mainThreadLoop _ _ _ _ (pre ++ rest) ?r2] =>
      destruct (IH (S index) r2) as (r1 & Hloop & Hres & Herr & Hproc & Hcase) end.
    exists r1. rewrite Hloop. cbn [length].
    replace (index + S (length pre))%nat with (S index + length pre)%nat by lia.
    split; [reflexivity|].
    cbn [results app errorMsg isProcessing withApp pushResult setProgress setProcessed]
      in Hres, Herr, Hproc.
    split; [rewrite Hres; cbn [zip_with]; rewrite <- app_assoc; reflexivity|].
    split; [exact Herr|]. split; [exact Hproc|].
    right. split; [discriminate|].
    destruct Hcase as [[-> ->]|(_ & Hp & Hg)].
    + cbn [results app processed progress withApp pushResult setProgress setProcessed length
           zip_with].
      rewrite Nat.add_0_r. split; [reflexivity|]. f_equal. lia.
    + split; [exact Hp | exact Hg].
Qed.

Lemma guard_open (a : App) :
  photos a <> [] -> isProcessing a = false ->
  (length (photos a) =? 0)%nat || isProcessing a = false.
Proof.
  intros Hsome ->. rewrite orb_false_r. apply Nat.eqb_neq.
  destruct (photos a); [contradiction | discriminate].
Qed.

(** X10. In a browser without workers, when every photo rasterizes, a batch
    runs to its end: the results are one entry per draft, in the order of
    the drafts, each with the draft's id, name, date and location text; the
    progress ends at total of total; no error is shown and the processing
    flag is cleared. *)
Theorem main_thread_batch_succeeds
  (msg : Messages) (settings : WorkerSettings) (env : Environment) (a : App)
  (blobs : list Blob)
  (Hdirect : canUseWorker env = false)
  (Hidle : isProcessing a = false)
  (Hsome : photos a <> [])
  (Hok : Forall2 (fun d b => rasterizeInMainThread (mainPlatform env) settings d = Resolved b)
           (photos a) blobs)
  (Hhistory : signedIn env && addDocFails env = false) :
  exists a',
    processPhotos msg settings env a = Finished a'
    /\ processed a' = zip_with resultOfDraft (photos a) blobs
    /\ progress a' = (length (photos a), length (photos a))
    /\ errorMsg a' = "" /\ isProcessing a' = false.
Proof.
  unfold processPhotos. rewrite (guard_open a Hsome Hidle), Hdirect.
  unfold processInMainThread.
  destruct (mainThreadLoop_prefix (mainPlatform env) settings (length (photos a))
              (photos a) blobs [] 0 (directRun (startBatch a)) Hok)
    as (r1 & Hloop & Hres & Herr & _ & Hcase).
  rewrite app_nil_r in Hloop. rewrite Hloop. cbn [mainThreadLoop].
  destruct Hcase as [[Hnil _]|(_ & Hp & Hg)]; [contradiction|].
  eexists. split; [reflexivity|].
  unfold concludeBatch.
  assert (Hno : signedIn env && (0 <? length (results r1))%nat && addDocFails env = false).
  { destruct (signedIn env), (addDocFails env); try discriminate Hhistory;
      rewrite ?andb_false_r; reflexivity. }
  rewrite Hno.
  cbn [app withApp processed progress errorMsg isProcessing setIsProcessing].
  rewrite Hp, Hres, Hg, Herr. repeat split.
Qed.

(** The three sample photos on a platform that rasterizes every file. *)
Lemma main_thread_batch_succeeds_witness :
  exists a',
    processPhotos sampleMessages sampleSettings (directEnvironment rasterizes) threeApp
    = Finished a'
    /\ processed a' = zip_with resultOfDraft (photos threeApp) [101; 201; 301]%nat
    /\ progress a' = (length (photos threeApp), length (photos threeApp))
    /\ errorMsg a' = "" /\ isProcessing a' = false.
Proof.
  apply (main_thread_batch_succeeds sampleMessages sampleSettings
           (directEnvironment rasterizes) threeApp [101; 201; 301]%nat).
  - reflexivity.
  - reflexivity.
  - discriminate.
  - repeat constructor.
  - reflexivity.
Defined.

(** X11. In the main thread a batch stops at the first photo that cannot be
    rasterized: the results are those of the photos before it, the photos
    after it are not processed, the progress stays at the number of photos
    done, the failure message is shown and the processing flag is
    cleared. *)
Theorem main_thread_batch_stops_at_first_failure
  (msg : Messages) (settings : WorkerSettings) (env : Environment) (a : App)
  (pre : list PhotoDraft.t) (blobs : list Blob) (bad : PhotoDraft.t)
  (post : list PhotoDraft.t) (reason : option string)
  (Hdirect : canUseWorker env = false)
  (Hidle : isProcessing a = false)
  (Hphotos : photos a = pre ++ bad :: post)
  (Hok : Forall2 (fun d b => rasterizeInMainThread (mainPlatform env) settings d = Resolved b)
           pre blobs)
  (Hbad : rasterizeInMainThread (mainPlatform env) settings bad = Rejected reason) :
  exists a',
    processPhotos msg settings env a = Finished a'
    /\ processed a' = zip_with resultOfDraft pre blobs
    /\ progress a' = (length pre, length (photos a))
    /\ errorMsg a' = processFailed msg /\ isProcessing a' = false.
Proof.
  assert (Hsome : photos a <> []) by (rewrite Hphotos; destruct pre; discriminate).
  unfold processPhotos. rewrite (guard_open a Hsome Hidle), Hdirect.
  unfold processInMainThread.
  destruct (mainThreadLoop_prefix (mainPlatform env) settings (length (photos a))
              pre blobs (bad :: post) 0 (directRun (startBatch a)) Hok)
    as (r1 & Hloop & Hres & Herr & _ & Hcase).
  rewrite <- Hphotos in Hloop. rewrite Hloop. cbn [mainThreadLoop]. rewrite Hbad.
  eexists. split; [reflexivity|].
  unfold concludeBatch.
  cbn [app withApp processed progress errorMsg isProcessing setIsProcessing setErrorMsg].
  destruct Hcase as [[-> ->]|(_ & Hp & Hg)].
  - repeat split.
  - rewrite Hp, Hres, Hg. repeat split.
Qed.

(** The three sample photos on a platform that cannot export the second. *)
Lemma main_thread_batch_stops_at_first_failure_witness :
  exists a',
    processPhotos sampleMessages sampleSettings (directEnvironment (failsOn 2)) threeApp
    = Finished a'
    /\ processed a' = zip_with resultOfDraft (firstn 1 (photos threeApp)) [101]%nat
    /\ progress a' = (length (firstn 1 (photos threeApp)), length (photos threeApp))
    /\ errorMsg a' = processFailed sampleMessages /\ isProcessing a' = false.
Proof.
  apply (main_thread_batch_stops_at_first_failure sampleMessages sampleSettings
           (directEnvironment (failsOn 2)) threeApp
           (firstn 1 (photos threeApp)) [101]%nat
           (nth 1 (photos threeApp) sampleDraft) (skipn 2 (photos threeApp))
           (Some "Image export failed")).
  - reflexivity.
  - reflexivity.
  - reflexivity.
  - repeat constructor.
  - reflexivity.
Defined.

(** ** The worker and the coordinator *)

Lemma workerLoop_prefix (pf : Platform) (settings : WorkerSettings) (total : nat)
  (pre : list WorkerInputPhoto.t) (ress : list WorkerResult.t)
  (rest : list WorkerInputPhoto.t) (i : nat) :
  Forall2 (fun item res => processOne pf settings item = Resolved res) pre ress ->
  workerLoop pf settings total i (pre ++ rest)
  = resultMessages total i ress ++ workerLoop pf settings total (i + length pre) rest.
Proof.
  intros Hok. revert i. induction Hok as [|item res pre ress Hitem Hok IH]; intros i.
  - rewrite Nat.add_0_r. reflexivity.
  - cbn [Datatypes.app workerLoop resultMessages length]. rewrite Hitem, (IH (S i)).
    replace (S i + length pre)%nat with (i + S (length pre))%nat by lia. reflexivity.
Qed.

(** X12. The worker answers with a [progress] and a [result] message for
    every photo up to the first one it cannot process, then with exactly
    one closing message: [complete] when there is no such photo, otherwise
    an [error] carrying the reason's message (or "Processing failed") and
    nothing for the photos after it -- never a [complete] after an
    [error]. *)
Theorem workerMessages_shape
  (pf : Platform) (settings : WorkerSettings)
  (pre : list WorkerInputPhoto.t) (ress : list WorkerResult.t)
  (bad : WorkerInputPhoto.t) (post : list WorkerInputPhoto.t) (reason : option string)
  (Hok : Forall2 (fun item res => processOne pf settings item = Resolved res) pre ress)
  (Hbad : processOne pf settings bad = Rejected reason) :
  workerMessages pf settings pre = resultMessages (length pre) 0 ress ++ [Complete]
  /\ workerMessages pf settings (pre ++ bad :: post)
     = resultMessages (length (pre ++ bad :: post)) 0 ress
       ++ [Error (default "Processing failed" reason)].
Proof.
  unfold workerMessages. split.
  - rewrite <- (app_nil_r pre) at 2.
    rewrite (workerLoop_prefix pf settings (length pre) pre ress [] 0 Hok). reflexivity.
  - rewrite (workerLoop_prefix pf settings _ pre ress (bad :: post) 0 Hok).
    cbn [workerLoop]. rewrite Hbad. reflexivity.
Qed.

(** The first sample photo rasterizes and the second cannot be exported. *)
Lemma workerMessages_shape_witness :
  workerMessages (failsOn 2) sampleSettings (map toWorkerPhoto (firstn 1 (photos threeApp)))
  = resultMessages 1 0
      [{| WorkerResult.id := "IMG_0001.jpg-0-1682936430000";
          WorkerResult.name := "IMG_0001.jpg";
          WorkerResult.shotAt := "2023-05-01 10:20:30";
          WorkerResult.locationText := "37.500000, 127.000000";
          WorkerResult.blob := 101 |}] ++ [Complete]
  /\ workerMessages (failsOn 2) sampleSettings (map toWorkerPhoto (photos threeApp))
     = resultMessages 3 0
         [{| WorkerResult.id := "IMG_0001.jpg-0-1682936430000";
             WorkerResult.name := "IMG_0001.jpg";
             WorkerResult.shotAt := "2023-05-01 10:20:30";
             WorkerResult.locationText := "37.500000, 127.000000";
             WorkerResult.blob := 101 |}]
       ++ [Error (default "Processing failed" None)].
Proof.
  apply (workerMessages_shape (failsOn 2) sampleSettings
           (map toWorkerPhoto (firstn 1 (photos threeApp))) _
           (toWorkerPhoto (nth 1 (photos threeApp) sampleDraft))
           (map toWorkerPhoto (skipn 2 (photos threeApp))) None).
  - repeat constructor.
  - reflexivity.
Defined.

Lemma finish_fields (r : Run) :
  app (finish r) = app r /\ results (finish r) = results r
  /\ shouldFallbackToMainThread (finish r) = shouldFallbackToMainThread r
  /\ timeoutId (finish r) = timeoutId r /\ workerAlive (finish r) = workerAlive r.
Proof. unfold finish. destruct (settled r); repeat split. Qed.

(** The main-thread loop reads and writes only the page state and the
    results; the locals of the promise do not matter to it. *)
Lemma mainThreadLoop_simulation (pf : Platform) (settings : WorkerSettings) (total : nat)
  (drafts : list PhotoDraft.t) (index : nat) (r r' : Run) :
  app r = app r' -> results r = results r' ->
  timeoutId r = true ->
  match mainThreadLoop pf settings total index drafts r,
        mainThreadLoop pf settings total index drafts r' with
  | inl x, inl y | inr x, inr y =>
      app x = app y /\ results x = results y /\ timeoutId x = true
      /\ workerAlive x = workerAlive r
  | _, _ => False
  end.
Proof.
  revert index r r'. induction drafts as [|d drafts IH]; intros index r r' Ha Hr Ht.
  - cbn. auto.
  - cbn [mainThreadLoop]. destruct (rasterizeInMainThread pf settings d); [|auto].
    match goal with
    | |- match mainThreadLoop _ _ _ _ _ ?x with _ => _ end =>
        match goal with
        | |- context [match mainThreadLoop _ _ _ _ _ ?y with inl _ => _ | inr _ => False end] =>
            idtac
        end
    end.
    set (x := withApp _ (pushResult _ r)). set (y := withApp _ (pushResult _ r')).
    assert (Hx : app x = app y /\ results x = results y /\ timeoutId x = true
                 /\ workerAlive x = workerAlive r).
    { unfold x, y. cbn [app results timeoutId workerAlive withApp pushResult].
      rewrite Ha, Hr. auto. }
    destruct Hx as (Hxa & Hxr & Hxt & Hxw).
    specialize (IH (S index) x y Hxa Hxr Hxt).
    destruct (mainThreadLoop pf settings total (S index) drafts x),
      (mainThreadLoop pf settings total (S index) drafts y); try contradiction;
      destruct IH as (? & ? & ? & Hw); rewrite Hw, Hxw; auto.
Qed.

Lemma concludeBatch_app (msg : Messages) (env env' : Environment) (x y : Run + Run) :
  signedIn env' = signedIn env -> addDocFails env' = addDocFails env ->
  match x, y with
  | inl r, inl r' | inr r, inr r' => app r = app r' /\ results r = results r'
  | _, _ => False
  end ->
  app (concludeBatch msg env x) = app (concludeBatch msg env' y).
Proof.
  intros Hs Hf. unfold concludeBatch. rewrite Hs, Hf.
  destruct x as [r|r], y as [r'|r']; try contradiction; intros [Ha Hr].
  - rewrite Hr. destruct (signedIn env && _ && addDocFails env);
      cbn [app withApp]; rewrite Ha; reflexivity.
  - cbn [app withApp]. rewrite Ha. reflexivity.
Qed.

Lemma startup_stall (msg : Messages) (late : list event) (a : App) :
  awaitSettled msg (StartupTimeout :: late) (effectCleanup (initRun a)) = (stalledRun a, late).
Proof. reflexivity. Qed.

(** X14. When nothing arrives from the worker before the startup timer
    fires, [processPhotos] terminates the worker and rasterizes in the main
    thread; with no later event the page ends in exactly the state that a
    browser without workers reaches on the same photos. *)
Theorem startup_fallback_equals_direct_run
  (msg : Messages) (settings : WorkerSettings) (env : Environment) (a : App)
  (Hworker : canUseWorker env = true)
  (Hevents : events env = [StartupTimeout]) :
  exists a',
    processPhotos msg settings env a = Finished a'
    /\ processPhotos msg settings (withoutWorker env) a = Finished a'.
Proof.
  unfold processPhotos.
  destruct ((length (photos a) =? 0)%nat || isProcessing a); [eexists; split; reflexivity|].
  rewrite Hworker, Hevents. cbn [canUseWorker withoutWorker mainPlatform].
  rewrite startup_stall.
  cbn [settled shouldFallbackToMainThread stalledRun handleAll fold_left].
  unfold processInMainThread.
  eexists. split; [reflexivity|]. f_equal.
  symmetry. apply concludeBatch_app; [reflexivity | reflexivity|].
  pose proof (mainThreadLoop_simulation (mainPlatform env) settings
                (length (photos a)) (photos a) 0
                (stalledRun (startBatch a)) (directRun (startBatch a))
                eq_refl eq_refl eq_refl) as Hsim'.
  destruct (mainThreadLoop _ _ _ _ _ (directRun _)),
    (mainThreadLoop _ _ _ _ _ (stalledRun _)); try contradiction;
    destruct Hsim' as (Ha & Hr & _); auto.
Qed.

(** The three sample photos with a worker that never answers. *)
Lemma startup_fallback_equals_direct_run_witness :
  exists a',
    processPhotos sampleMessages sampleSettings
      {| canUseWorker := true; events := [StartupTimeout]; mainPlatform := rasterizes;
         signedIn := false; addDocFails := false |} threeApp = Finished a'
    /\ processPhotos sampleMessages sampleSettings
         (withoutWorker
            {| canUseWorker := true; events := [StartupTimeout]; mainPlatform := rasterizes;
               signedIn := false; addDocFails := false |}) threeApp = Finished a'.
Proof.
  apply (startup_fallback_equals_direct_run sampleMessages sampleSettings
           {| canUseWorker := true; events := [StartupTimeout]; mainPlatform := rasterizes;
              signedIn := false; addDocFails := false |} threeApp); reflexivity.
Defined.

Lemma concludeBatch_flags (msg : Messages) (env : Environment) (x : Run + Run) :
  timeoutId (concludeBatch msg env x) = timeoutId (match x with inl r | inr r => r end)
  /\ isProcessing (app (concludeBatch msg env x)) = false
  /\ processed (app (concludeBatch msg env x))
     = processed (app (match x with inl r | inr r => r end))
  /\ progress (app (concludeBatch msg env x))
     = progress (app (match x with inl r | inr r => r end)).
Proof.
  unfold concludeBatch. destruct x as [r|r]; [|repeat split].
  destruct (signedIn env && _ && addDocFails env); repeat split.
Qed.

(** X15. The startup fallback does not clear the 60 s timer.  When that
    timer fires after a fallback batch, the failure message is shown
    although the batch was rasterized in the main thread: the results, the
    progress and the processing flag are those of the run in a browser
    without workers, and the error message is the failure text. *)
Theorem fallback_leaves_overall_timer_pending
  (msg : Messages) (settings : WorkerSettings) (env : Environment) (a : App)
  (Hworker : canUseWorker env = true)
  (Hidle : isProcessing a = false)
  (Hsome : photos a <> [])
  (Hevents : events env = [StartupTimeout; OverallTimeout]) :
  exists a' a0,
    processPhotos msg settings env a = Finished a'
    /\ processPhotos msg settings (withoutWorker env) a = Finished a0
    /\ processed a' = processed a0 /\ progress a' = progress a0
    /\ isProcessing a' = false
    /\ errorMsg a' = processFailed msg.
Proof.
  unfold processPhotos. rewrite (guard_open a Hsome Hidle), Hworker, Hevents.
  cbn [canUseWorker withoutWorker mainPlatform].
  rewrite startup_stall.
  cbn [settled shouldFallbackToMainThread stalledRun].
  unfold processInMainThread.
  pose proof (mainThreadLoop_simulation (mainPlatform env) settings
                (length (photos a)) (photos a) 0
                (stalledRun (startBatch a)) (directRun (startBatch a))
                eq_refl eq_refl eq_refl) as Hsim.
  set (x := mainThreadLoop _ _ _ _ _ (stalledRun _)) in *.
  set (y := mainThreadLoop _ _ _ _ _ (directRun _)) in *.
  destruct (concludeBatch_flags msg env x) as (Ht & Hp & Hpr & Hpg).
  destruct (concludeBatch_flags msg (withoutWorker env) y) as (_ & _ & Hpr' & Hpg').
  assert (Htimer : timeoutId (concludeBatch msg env x) = true).
  { rewrite Ht. destruct x, y; try contradiction; destruct Hsim as (_ & _ & H & _); exact H. }
  assert (Hsame : processed (app (concludeBatch msg env x))
                  = processed (app (concludeBatch msg (withoutWorker env) y))
                  /\ progress (app (concludeBatch msg env x))
                     = progress (app (concludeBatch msg (withoutWorker env) y))).
  { rewrite Hpr, Hpg, Hpr', Hpg'.
    destruct x, y; try contradiction; destruct Hsim as (Ha & _); rewrite Ha; auto. }
  destruct Hsame as (Hs1 & Hs2).
  cbn [handleAll fold_left]. unfold handle. cbn [enabled]. rewrite Htimer. cbn [negb].
  unfold onOverallTimeout.
  destruct (finish_fields
              (withApp (setErrorMsg (processFailed msg))
                 (clearTimeoutId (concludeBatch msg env x)))) as (Eapp & _).
  eexists. eexists. split; [reflexivity|]. split; [reflexivity|].
  rewrite Eapp.
  cbn [app withApp clearTimeoutId processed progress isProcessing errorMsg setErrorMsg].
  auto.
Qed.

(** The three sample photos, a worker that never answers, and the 60 s
    timer firing after the fallback. *)
Lemma fallback_leaves_overall_timer_pending_witness :
  exists a' a0,
    processPhotos sampleMessages sampleSettings stalledEnvironment threeApp = Finished a'
    /\ processPhotos sampleMessages sampleSettings (withoutWorker stalledEnvironment) threeApp
       = Finished a0
    /\ processed a' = processed a0 /\ progress a' = progress a0
    /\ isProcessing a' = false
    /\ errorMsg a' = processFailed sampleMessages.
Proof.
  apply (fallback_leaves_overall_timer_pending sampleMessages sampleSettings
           stalledEnvironment threeApp).
  - reflexivity.
  - reflexivity.
  - discriminate.
  - reflexivity.
Defined.

(** ** A terminated worker *)












(** ** The numeric-pair pattern *)

Lemma test_Fail (s : string) : Regex.test Regex.Fail s = false.
Proof. induction s; simpl; auto. Qed.

Lemma test_Eps_cons (c : ascii) (s : string) : Regex.test Regex.Eps (String c s) = false.
Proof. apply test_Fail. Qed.

Lemma test_alt_of_Alt (s : string) :
  (forall a b, Regex.test (Regex.Alt a b) s = Regex.test a s || Regex.test b s) ->
  forall a b, Regex.test (Regex.alt a b) s = Regex.test a s || Regex.test b s.
Proof.
  intros H a b. unfold Regex.alt.
  destruct a; rewrite ?test_Fail; try reflexivity;
    destruct b; rewrite ?test_Fail, ?orb_false_r; try reflexivity; apply H.
Qed.

Lemma test_Alt (s : string) (a b : Regex.regex) :
  Regex.test (Regex.Alt a b) s = Regex.test a s || Regex.test b s.
Proof.
  revert a b. induction s as [|c s IH]; intros a b; [reflexivity|].
  cbn [Regex.test Regex.deriv]. apply test_alt_of_Alt, IH.
Qed.

Lemma test_alt (s : string) (a b : Regex.regex) :
  Regex.test (Regex.alt a b) s = Regex.test a s || Regex.test b s.
Proof. apply test_alt_of_Alt. intros. apply test_Alt. Qed.

Lemma test_Cat_nil (r1 r2 : Regex.regex) (s : string) :
  Regex.nullable r1 = true -> Regex.test r2 s = true ->
  Regex.test (Regex.Cat r1 r2) s = true.
Proof.
  intros H1 H2. destruct s as [|c s]; cbn [Regex.test Regex.deriv Regex.nullable] in *.
  - rewrite H1, H2. reflexivity.
  - rewrite test_alt, H1, H2. apply orb_true_r.
Qed.

(** A string cut in two parts, the first matched by [r1] and the second by
    [r2], is matched by their concatenation. *)
Lemma test_Cat (r1 r2 : Regex.regex) (s1 s2 : string) :
  Regex.test r1 s1 = true -> Regex.test r2 s2 = true ->
  Regex.test (Regex.Cat r1 r2) (s1 +:+ s2) = true.
Proof.
  revert r1. induction s1 as [|c s1 IH]; intros r1 H1 H2.
  - apply test_Cat_nil; assumption.
  - rewrite append_cons. cbn [Regex.test Regex.deriv] in *.
    rewrite test_alt. apply orb_true_iff. left.
    assert (Hr2 : r2 <> Regex.Fail) by (intros ->; rewrite test_Fail in H2; discriminate).
    destruct (Regex.deriv c r1) eqn:Hd.
    + rewrite test_Fail in H1. discriminate.
    + destruct s1; [|rewrite test_Eps_cons in H1; discriminate].
      destruct r2; try contradiction; exact H2.
    + specialize (IH _ H1 H2). destruct r2; try contradiction; exact IH.
    + specialize (IH _ H1 H2). destruct r2; try contradiction; exact IH.
    + specialize (IH _ H1 H2). destruct r2; try contradiction; exact IH.
    + specialize (IH _ H1 H2). destruct r2; try contradiction; exact IH.
Qed.

Lemma test_Star_nil (r : Regex.regex) : Regex.test (Regex.Star r) "" = true.
Proof. reflexivity. Qed.

Lemma test_Star_cons (r : Regex.regex) (c : ascii) (s : string) :
  Regex.test r (String c "") = true -> Regex.test (Regex.Star r) s = true ->
  Regex.test (Regex.Star r) (String c s) = true.
Proof.
  intros H1 H2. cbn [Regex.test Regex.deriv] in *.
  destruct (Regex.deriv c r) eqn:Hd; try discriminate.
  - exact H2.
  - change s with ("" +:+ s). apply test_Cat; assumption.
  - change s with ("" +:+ s). apply test_Cat; assumption.
  - change s with ("" +:+ s). apply test_Cat; assumption.
Qed.

Lemma test_Class (p : ascii -> bool) (c : ascii) :
  Regex.test (Regex.Class p) (String c "") = p c.
Proof. cbn. destruct (p c); reflexivity. Qed.

Lemma test_opt_nil (r : Regex.regex) : Regex.test (Regex.opt r) "" = true.
Proof. cbn. apply orb_true_r. Qed.

Lemma test_opt (r : Regex.regex) (s : string) :
  Regex.test r s = true -> Regex.test (Regex.opt r) s = true.
Proof. intros H. unfold Regex.opt. rewrite test_Alt, H. reflexivity. Qed.

Lemma test_star_digits (s : string) :
  allDigits s = true -> Regex.test (Regex.Star Regex.digit) s = true.
Proof.
  induction s as [|c s IH]; [reflexivity|]. cbn [allDigits].
  intros [Hc Hs]%andb_true_iff. apply test_Star_cons; [|auto].
  unfold Regex.digit. rewrite test_Class. exact Hc.
Qed.

Lemma test_plus_digits (s : string) :
  allDigits s = true -> s <> "" -> Regex.test (Regex.plus Regex.digit) s = true.
Proof.
  destruct s as [|c s]; [congruence|]. cbn [allDigits].
  intros [Hc Hs]%andb_true_iff _.
  change (String c s) with (String c "" +:+ s). apply test_Cat.
  - unfold Regex.digit. rewrite test_Class. exact Hc.
  - apply test_star_digits, Hs.
Qed.

(** An optional minus sign, digits, a point and digits. *)
Lemma test_signedDecimal (sign int frac : string) :
  sign = "" \/ sign = "-" ->
  allDigits int = true -> int <> "" -> allDigits frac = true -> frac <> "" ->
  Regex.test Regex.signedDecimal (sign +:+ int +:+ "." +:+ frac) = true.
Proof.
  intros Hsign Hi Hi' Hf Hf'. unfold Regex.signedDecimal.
  apply test_Cat; [destruct Hsign as [-> | ->]; reflexivity|].
  apply test_Cat; [apply test_plus_digits; assumption|].
  apply test_opt. apply (test_Cat _ _ "." frac); [reflexivity|].
  apply test_plus_digits; assumption.
Qed.

(** ** The digits [toFixed] prints *)

Lemma allDigits_string_of_uint (d : Decimal.uint) :
  allDigits (NilEmpty.string_of_uint d) = true.
Proof. induction d; simpl; auto. Qed.

Lemma allDigits_ofZ (n : Z) : (0 <= n)%Z -> allDigits (JsString.ofZ n) = true.
Proof.
  unfold JsString.ofZ. destruct n as [|p|p]; intros H; [reflexivity | | lia].
  apply allDigits_string_of_uint.
Qed.

Lemma allDigits_append (a b : string) :
  allDigits (a +:+ b) = allDigits a && allDigits b.
Proof.
  induction a as [|c a IH]; [reflexivity|].
  rewrite append_cons. cbn [allDigits]. rewrite IH, andb_assoc. reflexivity.
Qed.

Lemma length_append (a b : string) :
  String.length (a +:+ b) = (String.length a + String.length b)%nat.
Proof.
  induction a as [|c a IH]; [reflexivity|].
  rewrite append_cons. cbn [String.length]. rewrite IH. reflexivity.
Qed.

Lemma padZeros_facts (width : nat) (digits : string) :
  allDigits digits = true ->
  allDigits (Num.padZeros width digits) = true
  /\ (width <= String.length (Num.padZeros width digits))%nat.
Proof.
  intros H. unfold Num.padZeros.
  assert (Hk : forall k, allDigits (String.concat "" (replicate k "0")) = true
                         /\ String.length (String.concat "" (replicate k "0")) = k).
  { induction k as [|k [IH1 IH2]]; [split; reflexivity|].
    destruct k as [|k]; [split; reflexivity|].
    change (replicate (S (S k)) "0") with ("0" :: replicate (S k) "0").
    cbn [String.concat]. cbn [replicate] in *.
    rewrite append_nil, append_cons, append_nil. cbn [allDigits String.length].
    rewrite IH1, IH2. split; reflexivity. }
  destruct (Hk (width - String.length digits)%nat) as [H1 H2].
  rewrite allDigits_append, H1, H, length_append, H2. split; [reflexivity | lia].
Qed.

Lemma allDigits_substring (n m : nat) (s : string) :
  allDigits s = true -> allDigits (substring n m s) = true.
Proof.
  revert n m. induction s as [|c s IH]; intros n m H.
  - destruct n, m; reflexivity.
  - cbn [allDigits] in H. apply andb_true_iff in H as [Hc Hs].
    destruct n as [|n]; [destruct m as [|m]; [reflexivity|]|]; cbn [substring allDigits].
    + rewrite Hc, IH by assumption. reflexivity.
    + apply IH, Hs.
Qed.

Lemma length_substring (n m : nat) (s : string) :
  (n + m <= String.length s)%nat -> String.length (substring n m s) = m.
Proof.
  revert n m. induction s as [|c s IH]; intros n m H; cbn [String.length] in H.
  - assert (n = 0%nat) as -> by lia. assert (m = 0%nat) as -> by lia. reflexivity.
  - destruct n as [|n]; [destruct m as [|m]; [reflexivity|]|]; cbn [substring String.length].
    + rewrite IH by lia. reflexivity.
    + apply IH. lia.
Qed.

(** [toFixed(6)] of a finite number prints an optional minus sign, at least
    one digit, a point and six digits. *)
Lemma toFixed6_shape (q : Q) :
  exists sign int frac,
    Num.toFixed6 (Fin q) = sign +:+ int +:+ "." +:+ frac
    /\ (sign = "" \/ sign = "-")
    /\ allDigits int = true /\ int <> ""
    /\ allDigits frac = true /\ String.length frac = 6%nat.
Proof.
  unfold Num.toFixed6.
  set (n := Qfloor (Qabs q * (1000000 # 1) + (1 # 2))).
  assert (Hn : (0 <= n)%Z).
  { change 0%Z with (Qfloor 0). apply Qfloor_resp_le.
    pose proof (Qabs_nonneg q). nra. }
  destruct (padZeros_facts 7 (JsString.ofZ n) (allDigits_ofZ n Hn)) as [Hd Hl].
  set (digits := Num.padZeros 7 (JsString.ofZ n)) in *.
  set (cut := (String.length digits - 6)%nat).
  exists (match Num.sgn q with Lt => "-" | _ => "" end),
    (substring 0 cut digits), (substring cut 6 digits).
  split; [destruct (Num.sgn q); reflexivity|].
  split; [destruct (Num.sgn q); auto|].
  split; [apply allDigits_substring, Hd|].
  split.
  - intros H. apply (f_equal String.length) in H.
    rewrite length_substring in H by (unfold cut; lia).
    unfold cut in H. cbn [String.length] in H. lia.
  - split; [apply allDigits_substring, Hd|].
    apply length_substring. unfold cut. lia.
Qed.

Lemma trimEnd_digits (s : string) : allDigits s = true -> JsString.trimEnd s = s.
Proof.
  induction s as [|c s IH]; [reflexivity|]. cbn [allDigits].
  intros [Hc Hs]%andb_true_iff.
  rewrite trimEnd_cons by (apply isDigit_not_space, Hc). rewrite IH by assumption.
  reflexivity.
Qed.

Lemma trimEnd_digits_suffix (a frac : string) :
  allDigits frac = true -> frac <> "" -> JsString.trimEnd (a +:+ frac) = a +:+ frac.
Proof.
  intros Hf Hne. induction a as [|x a IH]; [apply trimEnd_digits, Hf|].
  rewrite append_cons. cbn [JsString.trimEnd]. rewrite IH.
  destruct (a +:+ frac) eqn:E; [|reflexivity].
  apply (f_equal String.length) in E. rewrite length_append in E.
  destruct frac; [congruence|]. cbn [String.length] in E. lia.
Qed.

(** The text [lat.toFixed(6) + ", " + lon.toFixed(6)] has no white space
    around it and is matched by the numeric-pair pattern. *)
Lemma coordinate_text_is_numeric_pair (p q : Q) :
  let text := Num.toFixed6 (Fin p) +:+ ", " +:+ Num.toFixed6 (Fin q) in
  JsString.trim text = text /\ Regex.test Regex.numericPair text = true.
Proof.
  destruct (toFixed6_shape p) as (s1 & i1 & f1 & -> & Hs1 & Hi1 & Hn1 & Hf1 & Hl1).
  destruct (toFixed6_shape q) as (s2 & i2 & f2 & -> & Hs2 & Hi2 & Hn2 & Hf2 & Hl2).
  assert (Hf1' : f1 <> "") by (intros ->; discriminate).
  assert (Hf2' : f2 <> "") by (intros ->; discriminate).
  cbv zeta. split.
  - unfold JsString.trim.
    assert (Hstart : forall rest,
               JsString.trimStart (s1 +:+ i1 +:+ rest) = s1 +:+ i1 +:+ rest).
    { intros rest. destruct Hs1 as [-> | ->]; [|reflexivity].
      rewrite append_nil. destruct i1 as [|c i1]; [congruence|].
      cbn [allDigits] in Hi1. apply andb_true_iff in Hi1 as [Hc _].
      rewrite append_cons. cbn [JsString.trimStart].
      rewrite (isDigit_not_space c Hc). reflexivity. }
    rewrite !append_assoc, Hstart.
    rewrite <- !append_assoc. apply trimEnd_digits_suffix; assumption.
  - unfold Regex.numericPair.
    apply test_Cat; [apply test_signedDecimal; assumption|].
    change (", " +:+ s2 +:+ i2 +:+ "." +:+ f2)
      with ("" +:+ "," +:+ " " +:+ s2 +:+ i2 +:+ "." +:+ f2).
    apply test_Cat; [reflexivity|].
    apply test_Cat; [reflexivity|].
    apply test_Cat; [reflexivity|].
    apply test_signedDecimal; assumption.
Qed.



(** ** Texts the pattern cannot match *)

Lemma consumes_false_deriv (r : Regex.regex) (c : ascii) :
  consumes r c = false -> Regex.deriv c r = Regex.Fail.
Proof.
  induction r as [| |p|r1 IH1 r2 IH2|r1 IH1 r2 IH2|r IH]; cbn [consumes Regex.deriv];
    try reflexivity.
  - intros ->. reflexivity.
  - intros [H1 H2]%orb_false_iff. rewrite IH1, IH2 by assumption.
    destruct (Regex.nullable r1); reflexivity.
  - intros [H1 H2]%orb_false_iff. rewrite IH1, IH2 by assumption. reflexivity.
  - intros H. rewrite IH by assumption. reflexivity.
Qed.

Lemma consumes_cat (a b : Regex.regex) (c : ascii) :
  consumes (Regex.cat a b) c = true -> consumes a c || consumes b c = true.
Proof.
  unfold Regex.cat.
  destruct a; cbn [consumes]; try discriminate;
    destruct b; cbn [consumes]; try discriminate; rewrite ?orb_false_r; auto.
Qed.

Lemma consumes_alt (a b : Regex.regex) (c : ascii) :
  consumes (Regex.alt a b) c = true -> consumes a c || consumes b c = true.
Proof.
  unfold Regex.alt.
  destruct a; cbn [consumes]; try discriminate;
    destruct b; cbn [consumes]; try discriminate; rewrite ?orb_false_r; auto.
Qed.

(** A derivative consumes no character the pattern did not. *)
Lemma consumes_deriv (r : Regex.regex) (x c : ascii) :
  consumes (Regex.deriv x r) c = true -> consumes r c = true.
Proof.
  induction r as [| |p|r1 IH1 r2 IH2|r1 IH1 r2 IH2|r IH]; cbn [consumes Regex.deriv];
    try discriminate.
  - destruct (p x); discriminate.
  - intros H. apply consumes_alt, orb_true_iff in H as [H|H].
    + apply consumes_cat, orb_true_iff in H as [H|H];
        apply orb_true_iff; [left; apply IH1, H | right; exact H].
    + destruct (Regex.nullable r1); [|discriminate].
      apply orb_true_iff. right. apply IH2, H.
  - intros H. apply consumes_alt, orb_true_iff in H as [H|H];
      apply orb_true_iff; [left; apply IH1, H | right; apply IH2, H].
  - intros H. apply consumes_cat, orb_true_iff in H as [H|H]; [apply IH, H | exact H].
Qed.

(** Every character of a matched string is one the pattern consumes. *)
Lemma test_consumes (r : Regex.regex) (s : string) (c : ascii) :
  Regex.test r s = true -> occurs c s = true -> consumes r c = true.
Proof.
  revert r. induction s as [|x s IH]; intros r Ht Ho; [discriminate|].
  cbn [Regex.test occurs] in *. apply orb_true_iff in Ho as [Hx|Ho].
  - apply bool_decide_eq_true in Hx. subst x.
    destruct (consumes r c) eqn:E; [reflexivity|].
    rewrite (consumes_false_deriv r c E), test_Fail in Ht. discriminate.
  - apply (consumes_deriv r x c), IH; assumption.
Qed.

Lemma consumes_numericPair (c : ascii) :
  consumes Regex.numericPair c = true -> coordinateChar c = true.
Proof.
  unfold coordinateChar. cbn [consumes Regex.numericPair Regex.signedDecimal Regex.opt
                               Regex.plus Regex.chr Regex.digit Regex.space].
  destruct (JsString.isDigit c), (JsString.isWhiteSpace c), (bool_decide (c = "-"%char)),
    (bool_decide (c = "."%char)), (bool_decide (c = ","%char)); cbn; congruence.
Qed.

Lemma coordinateChar_not_space (c : ascii) :
  coordinateChar c = false -> JsString.isWhiteSpace c = false.
Proof.
  unfold coordinateChar. destruct (JsString.isWhiteSpace c); [|reflexivity].
  rewrite orb_true_r. cbn. congruence.
Qed.

Lemma occurs_trimStart (c : ascii) (s : string) :
  JsString.isWhiteSpace c = false -> occurs c s = true ->
  occurs c (JsString.trimStart s) = true.
Proof.
  intros Hc. induction s as [|x s IH]; [discriminate|].
  cbn [JsString.trimStart]. destruct (JsString.isWhiteSpace x) eqn:Hx; [|auto].
  cbn [occurs]. intros [H|H]%orb_true_iff; [|auto].
  apply bool_decide_eq_true in H. congruence.
Qed.

Lemma occurs_trimEnd (c : ascii) (s : string) :
  JsString.isWhiteSpace c = false -> occurs c s = true ->
  occurs c (JsString.trimEnd s) = true.
Proof.
  intros Hc. induction s as [|x s IH]; [discriminate|].
  cbn [JsString.trimEnd occurs]. intros [H|H]%orb_true_iff.
  - apply bool_decide_eq_true in H. subst x.
    destruct (JsString.trimEnd s); [rewrite Hc|]; cbn [occurs];
      rewrite bool_decide_eq_true_2 by reflexivity; reflexivity.
  - specialize (IH H). destruct (JsString.trimEnd s); [discriminate|].
    cbn [occurs] in *. rewrite IH. apply orb_true_r.
Qed.

(** X18. A location text that holds a character other than a digit, white
    space, a minus sign, a point or a comma, and that is not the placeholder
    (as stored or trimmed), is drawn by both rasterization routines as the
    last line, as it is stored, when the location line is switched on. *)
Theorem place_name_is_drawn
  (measureText : number -> string -> string -> number)
  (item : PhotoDraft.t) (settings : WorkerSettings) (width height : nat) (c : ascii)
  (Hshow : showLocation settings = true)
  (Hoccurs : occurs c (PhotoDraft.locationText item) = true)
  (Hchar : coordinateChar c = false)
  (Hstored : JsString.strictEq (PhotoDraft.locationText item)
               (unknownLocationText settings) = false)
  (Htrimmed : JsString.strictEq (JsString.trim (PhotoDraft.locationText item))
                (unknownLocationText settings) = false) :
  lines (mainThreadOverlay measureText item settings width height)
  = List.filter JsString.truthy [PhotoDraft.shotAt item] ++ [PhotoDraft.locationText item]
  /\ lines (workerOverlay measureText (toWorkerPhoto item) settings width height)
     = List.filter JsString.truthy [PhotoDraft.shotAt item] ++ [PhotoDraft.locationText item].
Proof.
  pose proof (coordinateChar_not_space c Hchar) as Hspace.
  assert (Hocc : occurs c (JsString.trim (PhotoDraft.locationText item)) = true)
    by (apply occurs_trimEnd, occurs_trimStart; assumption).
  assert (Htest : Regex.test Regex.numericPair
                    (JsString.trim (PhotoDraft.locationText item)) = false).
  { destruct (Regex.test _ _) eqn:E; [|reflexivity].
    pose proof (consumes_numericPair c (test_consumes _ _ c E Hocc)). congruence. }
  split.
  - unfold mainThreadOverlay, isUnknownLocationText. cbn [lines].
    rewrite Hshow, Htrimmed, Htest.
    destruct (JsString.trim (PhotoDraft.locationText item)); [discriminate|]. reflexivity.
  - unfold workerOverlay.
    cbn [lines toWorkerPhoto WorkerInputPhoto.locationText WorkerInputPhoto.shotAt].
    rewrite Hshow, Hstored, Htest. cbn [orb negb andb List.filter].
    destruct (PhotoDraft.locationText item); [discriminate|].
    cbn [JsString.truthy]. destruct (JsString.truthy (PhotoDraft.shotAt item)); reflexivity.
Qed.

(** The sample photo once its place name is resolved; the character is the
    letter S. *)
Lemma place_name_is_drawn_witness :
  lines (mainThreadOverlay sampleMeasure seoulDraft sampleSettings 4000 3000)
  = List.filter JsString.truthy [PhotoDraft.shotAt seoulDraft]
    ++ [PhotoDraft.locationText seoulDraft]
  /\ lines (workerOverlay sampleMeasure (toWorkerPhoto seoulDraft) sampleSettings 4000 3000)
     = List.filter JsString.truthy [PhotoDraft.shotAt seoulDraft]
       ++ [PhotoDraft.locationText seoulDraft].
Proof.
  apply (place_name_is_drawn sampleMeasure seoulDraft sampleSettings 4000 3000 "S"%char).
  - reflexivity.
  - reflexivity.
  - reflexivity.
  - reflexivity.
  - reflexivity.
Defined.

(** ** The timestamp line *)

Lemma replaceDateSeparators_length (s : string) :
  String.length (replaceDateSeparators s) = String.length s.
Proof.
  unfold replaceDateSeparators.
  do 10 (destruct s as [|? s]; [reflexivity|]).
  destruct (_ && _); reflexivity.
Qed.

Lemma formatExifDate_truthy (raw : value) (fallback : string) :
  JsString.truthy fallback = true -> JsString.truthy (formatExifDate raw fallback) = true.
Proof.
  intros H. unfold formatExifDate. destruct raw; try exact H.
  destruct (String.length (JsString.trim s) =? 0)%nat eqn:E; [exact H|].
  apply Nat.eqb_neq in E. rewrite <- replaceDateSeparators_length in E.
  destruct (replaceDateSeparators (JsString.trim s)); [contradiction|reflexivity].
Qed.

(** X19. When the placeholder for an unknown date is not empty, a draft
    never has an empty timestamp, whatever its metadata holds, and both
    rasterization routines draw the timestamp as the first line. *)
Theorem timestamp_line_always_drawn
  (measureText : number -> string -> string -> number)
  (msg : Messages) (index : nat) (file : File)
  (settings : WorkerSettings) (width height : nat)
  (Hdate : JsString.truthy (unknownDate msg) = true) :
  let item := parseFile msg index file in
  JsString.truthy (PhotoDraft.shotAt item) = true
  /\ head (lines (mainThreadOverlay measureText item settings width height))
     = Some (PhotoDraft.shotAt item)
  /\ head (lines (workerOverlay measureText (toWorkerPhoto item) settings width height))
     = Some (PhotoDraft.shotAt item).
Proof.
  cbv zeta.
  assert (H : JsString.truthy (PhotoDraft.shotAt (parseFile msg index file)) = true).
  { unfold parseFile. destruct (exifTags file); cbn [PhotoDraft.shotAt]; [|exact Hdate].
    apply formatExifDate_truthy, Hdate. }
  split; [exact H|]. split.
  - unfold mainThreadOverlay. cbn [lines List.filter]. rewrite H.
    destruct (_ && _); reflexivity.
  - unfold workerOverlay. cbn [lines toWorkerPhoto WorkerInputPhoto.shotAt List.filter].
    rewrite H. reflexivity.
Qed.

(** A file without readable metadata. *)
Lemma timestamp_line_always_drawn_witness :
  let item := parseFile sampleMessages 0
                {| fileName := "scan.png"; lastModified := 0; fileData := 7;
                   exifTags := None |} in
  JsString.truthy (PhotoDraft.shotAt item) = true
  /\ head (lines (mainThreadOverlay sampleMeasure item sampleSettings 800 600))
     = Some (PhotoDraft.shotAt item)
  /\ head (lines (workerOverlay sampleMeasure (toWorkerPhoto item) sampleSettings 800 600))
     = Some (PhotoDraft.shotAt item).
Proof.
  apply (timestamp_line_always_drawn sampleMeasure sampleMessages 0
           {| fileName := "scan.png"; lastModified := 0; fileData := 7;
              exifTags := None |} sampleSettings 800 600).
  reflexivity.
Defined.

(** ** The preview *)

Lemma Qfloor_unique (z : Z) (x : Q) :
  (inject_Z z <= x)%Q -> (x < inject_Z (z + 1))%Q -> Qfloor x = z.
Proof.
  intros H1 H2.
  pose proof (Qfloor_le x) as H3. pose proof (Qlt_floor x) as H4.
  assert (z < Qfloor x + 1)%Z by (rewrite Zlt_Qlt; lra).
  assert (Qfloor x < z + 1)%Z by (rewrite Zlt_Qlt; lra).
  lia.
Qed.

Lemma round_mul_one (a : number) : Num.round (Num.mul a (Num.ofZ 1)) = Num.round a.
Proof.
  destruct a as [| | |q]; try reflexivity.
  cbn [Num.mul Num.ofZ Num.round]. do 2 f_equal. apply Qfloor_comp.
  change (inject_Z 1) with 1%Q. ring.
Qed.

Lemma round_ofNat (n : nat) : Num.round (Num.ofNat n) = Num.ofNat n.
Proof.
  unfold Num.ofNat, Num.ofZ, Num.round. do 2 f_equal.
  apply Qfloor_unique; rewrite ?inject_Z_plus; change (inject_Z 1) with 1%Q; lra.
Qed.

(** The scale of the preview: 1 up to 1200 pixels of width. *)
Lemma preview_scale_small (w : nat) :
  (w <= 1200)%nat ->
  MoreNum.min (Num.ofZ 1) (MoreNum.div (Num.ofZ 1200) (Num.ofNat w)) = Num.ofZ 1.
Proof.
  intros Hw. unfold Num.ofNat, Num.ofZ, MoreNum.div, Num.sgn.
  destruct (inject_Z (Z.of_nat w) ?= 0)%Q eqn:E.
  - reflexivity.
  - apply Qlt_alt in E. change 0%Q with (inject_Z 0) in E.
    rewrite <- Zlt_Qlt in E. lia.
  - apply Qgt_alt in E.
    cbn [MoreNum.min Num.ltb].
    assert (H : Qle_bool (inject_Z 1) (inject_Z 1200 / inject_Z (Z.of_nat w)) = true).
    { apply Qle_bool_iff. apply Qle_shift_div_l; [exact E|].
      rewrite <- inject_Z_mult, <- Zle_Qle. lia. }
    rewrite H. reflexivity.
Qed.

(** One hundredth of a width of at most 1200, rounded, is at most 12. *)
Lemma hundredth_small (w : nat) :
  (w <= 1200)%nat ->
  exists k, Num.round (Num.mul (Num.ofNat w) lit_0_01) = Num.ofZ k /\ (0 <= k <= 12)%Z.
Proof.
  intros Hw. unfold Num.ofNat, Num.ofZ, lit_0_01. cbn [Num.mul Num.round].
  eexists. split; [reflexivity|].
  assert (H0 : (0 <= inject_Z (Z.of_nat w))%Q)
    by (change 0%Q with (inject_Z 0); rewrite <- Zle_Qle; lia).
  assert (H1 : (inject_Z (Z.of_nat w) <= inject_Z 1200)%Q) by (rewrite <- Zle_Qle; lia).
  change (inject_Z 1200) with (1200 # 1)%Q in H1.
  split.
  - change 0%Z with (Qfloor 0). apply Qfloor_resp_le. lra.
  - change 12%Z with (Qfloor (25 # 2)). apply Qfloor_resp_le. lra.
Qed.

Lemma max_ofZ (a b : Z) : (b <= a)%Z -> Num.max (Num.ofZ a) (Num.ofZ b) = Num.ofZ a.
Proof.
  intros H. unfold Num.max, Num.ofZ, Num.ltb.
  assert (E : Qle_bool (inject_Z b) (inject_Z a) = true)
    by (apply Qle_bool_iff; rewrite <- Zle_Qle; exact H).
  rewrite E. reflexivity.
Qed.

(** X20. For an image at most 1200 pixels wide the preview is drawn at the
    size of the image, with the lines, the font size and the panel size of
    the exported image; but the panel of the preview is kept 12 pixels from
    the corner, the panel of the exported image 16 pixels. *)
Theorem preview_differs_from_export_by_margin
  (measureText : number -> string -> string -> number)
  (msg : Messages) (style : WatermarkStyle.t) (item : PhotoDraft.t)
  (width height : nat)
  (Hwidth : (width <= 1200)%nat) :
  let p := previewOf measureText msg style item width height in
  let o := mainThreadOverlay measureText item (settingsForRender msg style) width height in
  canvasWidth p = Num.ofNat width /\ canvasHeight p = Num.ofNat height
  /\ lines (drawn p) = lines o
  /\ appliedFontSize (drawn p) = appliedFontSize o
  /\ boxWidth (drawn p) = boxWidth o /\ boxHeight (drawn p) = boxHeight o
  /\ margin (drawn p) = Num.ofZ 12 /\ margin o = Num.ofZ 16.
Proof.
  cbv zeta. unfold previewOf, previewOverlay, mainThreadOverlay.
  cbn [canvasWidth canvasHeight drawn lines appliedFontSize boxWidth boxHeight margin
       settingsForRender showLocation unknownLocationText fontFamily fontSize
       previewOfDraft PreviewPhoto.shotAt PreviewPhoto.locationText].
  rewrite (preview_scale_small width Hwidth).
  rewrite !round_mul_one, !round_ofNat.
  destruct (hundredth_small width Hwidth) as (k & -> & Hk).
  rewrite !max_ofZ by lia.
  repeat split.
Qed.

(** A photo of 800 by 600 pixels. *)
Lemma preview_differs_from_export_by_margin_witness :
  let p := previewOf sampleMeasure sampleMessages sampleStyle sampleDraft 800 600 in
  let o := mainThreadOverlay sampleMeasure sampleDraft
             (settingsForRender sampleMessages sampleStyle) 800 600 in
  canvasWidth p = Num.ofNat 800 /\ canvasHeight p = Num.ofNat 600
  /\ lines (drawn p) = lines o
  /\ appliedFontSize (drawn p) = appliedFontSize o
  /\ boxWidth (drawn p) = boxWidth o /\ boxHeight (drawn p) = boxHeight o
  /\ margin (drawn p) = Num.ofZ 12 /\ margin o = Num.ofZ 16.
Proof.
  apply (preview_differs_from_export_by_margin sampleMeasure sampleMessages sampleStyle
           sampleDraft 800 600).
  lia.
Defined.

(** X21. The canvas of the preview is as wide as the image, but never wider
    than 1200 pixels; an image of width 0 gives a canvas of width 0. *)
Theorem preview_width_capped
  (measureText : number -> string -> string -> number)
  (photo : PreviewPhoto.t) (showLocation : bool) (unknownLocationText : string)
  (fontFamilyKey : FontFamilyKey) (fontSize : number) (imgWidth imgHeight : nat) :
  canvasWidth (previewOverlay measureText photo showLocation unknownLocationText
                 fontFamilyKey fontSize imgWidth imgHeight)
  = Num.ofNat (Nat.min imgWidth 1200).
Proof.
  unfold previewOverlay. cbn [canvasWidth].
  destruct (Nat.le_gt_cases imgWidth 1200) as [Hw|Hw].
  - rewrite (preview_scale_small imgWidth Hw), round_mul_one, round_ofNat.
    rewrite Nat.min_l by exact Hw. reflexivity.
  - rewrite Nat.min_r by lia.
    assert (Hpos : (inject_Z 1200 < inject_Z (Z.of_nat imgWidth))%Q)
      by (rewrite <- Zlt_Qlt; lia).
    change (inject_Z 1200) with (1200 # 1)%Q in Hpos.
    unfold Num.ofNat, Num.ofZ, MoreNum.div, Num.sgn.
    destruct (inject_Z (Z.of_nat imgWidth) ?= 0)%Q eqn:E.
    + apply Qeq_alt in E. lra.
    + apply Qlt_alt in E. lra.
    + cbn [MoreNum.min Num.ltb].
      assert (H : Qle_bool (inject_Z 1) (inject_Z 1200 / inject_Z (Z.of_nat imgWidth))
                  = false).
      { destruct (Qle_bool _ _) eqn:B; [|reflexivity].
        apply Qle_bool_iff in B.
        assert (Hlt : (inject_Z 1200 / inject_Z (Z.of_nat imgWidth) < 1)%Q).
        { apply Qlt_shift_div_r; [lra|].
          change (inject_Z 1200) with (1200 # 1)%Q. lra. }
        change (inject_Z 1) with 1%Q in B. lra. }
      rewrite H. cbn [negb Num.mul Num.round]. do 2 f_equal.
      rewrite (Qfloor_comp _ (2401 # 2)); [reflexivity|].
      change (inject_Z 1200) with (1200 # 1)%Q. field. lra.
Qed.

(** ** Locales *)

Lemma strictEq_true (a b : string) : JsString.strictEq a b = true <-> a = b.
Proof. unfold JsString.strictEq. apply bool_decide_eq_true. Qed.

(** X22. The locale a page is rendered in is always one of the supported
    ones: every supported locale is kept, and any other request, or a
    missing one, gives the default locale.  The page is laid out right to
    left for Arabic only. *)
Theorem locale_is_supported (locale : option string) :
  In (resolveLocale locale) locales
  /\ Forall (fun l => resolveLocale (Some l) = l) locales
  /\ (locale = Some (resolveLocale locale) \/ resolveLocale locale = defaultLocale)
  /\ (direction locale = "rtl" <-> locale = Some "ar").
Proof.
  assert (Hdefault : In defaultLocale locales) by (left; reflexivity).
  split; [|split; [|split]].
  - destruct locale as [l|]; cbn [resolveLocale]; [|exact Hdefault].
    destruct (existsb (JsString.strictEq l) locales) eqn:E; [|exact Hdefault].
    apply existsb_exists in E as (x & Hx & E). apply strictEq_true in E. subst x. exact Hx.
  - repeat constructor.
  - destruct locale as [l|]; cbn [resolveLocale]; [|right; reflexivity].
    destruct (existsb (JsString.strictEq l) locales); [left|right]; reflexivity.
  - unfold direction, rtlLocales. cbn [existsb]. rewrite orb_false_r.
    destruct (JsString.strictEq (resolveLocale locale) "ar") eqn:E.
    + apply strictEq_true in E. split; [intros _|reflexivity].
      destruct locale as [l|]; cbn [resolveLocale] in E; [|discriminate].
      destruct (existsb (JsString.strictEq l) locales); [congruence|discriminate].
    + split; [discriminate|]. intros ->. discriminate.
Qed.

(** ** Freshly dropped photos *)

(** X23. For a photo as [onDrop] has just ingested it, the worker and the
    main thread compute the same overlay, whatever the settings: its
    location text is the placeholder or a coordinate pair, and neither has
    white space around it.  The placeholder is taken without surrounding
    white space and the coordinates below 1e21 in magnitude. *)
Theorem fresh_draft_overlays_agree
  (measureText : number -> string -> string -> number)
  (msg : Messages) (index : nat) (file : File)
  (settings : WorkerSettings) (width height : nat)
  (Htrim : JsString.trim (unknownLocation msg) = unknownLocation msg)
  (Hrange : match PhotoDraft.gps (parseFile msg index file) with
            | Some g => plainRange (lat g) /\ plainRange (lon g)
            | None => True
            end) :
  workerOverlay measureText (toWorkerPhoto (parseFile msg index file)) settings width height
  = mainThreadOverlay measureText (parseFile msg index file) settings width height.
Proof.
  apply overlays_agree_on_trimmed_location.
  unfold parseFile in *. destruct (exifTags file) as [tags|]; [|exact Htrim].
  cbn [PhotoDraft.gps PhotoDraft.locationText] in *.
  destruct (parseExifGps tags) as [[[| | |p] [| | |q]]|]; cbn [lat lon plainRange] in Hrange;
    try (destruct Hrange; contradiction); [|exact Htrim].
  apply coordinate_text_is_numeric_pair.
Qed.

(** The sample photo. *)
Lemma fresh_draft_overlays_agree_witness :
  workerOverlay sampleMeasure (toWorkerPhoto (parseFile sampleMessages 0 sampleFile))
    sampleSettings 4000 3000
  = mainThreadOverlay sampleMeasure (parseFile sampleMessages 0 sampleFile)
      sampleSettings 4000 3000.
Proof.
  apply (fresh_draft_overlays_agree sampleMeasure sampleMessages 0 sampleFile
           sampleSettings 4000 3000).
  - reflexivity.
  - split; reflexivity.
Defined.
